(** * Sentiment classifier on sentence embeddings: dataset, batching,
      classifier head, training and evaluation epochs, single-text prediction.

    A shallow embedding of the notebook
    [Sentiment_Analysis_with_RNN_and_Pytorch.ipynb].  Python objects that the
    code mutates (the model, the optimizer, the random generator) live in an
    explicit environment that every call threads; Python exceptions are the
    [Raise] results of an error monad; Python floats are IEEE 754 binary64
    values and tensor elements binary32 values, both taken from the standard
    library's [SpecFloat] specification. *)

From Stdlib Require Import String Ascii.
From Stdlib Require Import ZArith List Bool Lia PeanoNat Permutation.
From Stdlib Require Import Floats.SpecFloat.
Import ListNotations.

(** ** Python exceptions and results *)

Inductive PyExc : Type :=
| ZeroDivisionError
| IndexError
| KeyError
| ValueError
| RuntimeError.

Inductive result (A : Type) : Type :=
| Ok (a : A)
| Raise (e : PyExc).

Arguments Ok {A} a.
Arguments Raise {A} e.

Definition rbind {A B : Type} (r : result A) (k : A -> result B) : result B :=
  match r with
  | Ok a => k a
  | Raise e => Raise e
  end.

Notation "x <- r ;; k" := (rbind r (fun x => k))
  (at level 61, r at next level, right associativity).

(** [[f(x) for x in l]]: the first exception stops the comprehension. *)
Fixpoint mapM {A B : Type} (f : A -> result B) (l : list A) : result (list B) :=
  match l with
  | [] => Ok []
  | x :: rest =>
      y <- f x ;;
      ys <- mapM f rest ;;
      Ok (y :: ys)
  end.

(** ** Floating-point numbers *)

(** A Python [float] is a binary64 value, an element of a default-dtype
    tensor a binary32 value. *)
Definition float : Type := spec_float.

Definition f64_add : float -> float -> float := SFadd 53 1024.
Definition f64_div : float -> float -> float := SFdiv 53 1024.

(** [float(n)] for a Python integer (round to nearest even). *)
Definition f64_of_Z (n : Z) : float := binary_normalize 53 1024 n 0 false.

(** [torch.tensor(x)] of a Python float: rounding to binary32. *)
Definition torch_tensor (x : float) : float :=
  match x with
  | S754_finite s m e => binary_round 24 128 s m e
  | _ => x
  end.

(** [t.item()] of a binary32 scalar tensor: the same value as a Python float. *)
Definition item (x : float) : float :=
  match x with
  | S754_finite s m e => binary_round 53 1024 s m e
  | _ => x
  end.

Definition is_nan (x : float) : bool :=
  match x with
  | S754_nan => true
  | _ => false
  end.

(** [math.isfinite]. *)
Definition is_finite (x : float) : bool :=
  match x with
  | S754_zero _ | S754_finite _ _ _ => true
  | S754_infinity _ | S754_nan => false
  end.

Definition f_zero : float := S754_zero false.
Definition f64_one : float := Eval vm_compute in SFone 53 1024.
Definition f32_one : float := Eval vm_compute in SFone 24 128.

(** [x / n] for a Python float [x] and a Python integer [n]. *)
Definition float_truediv (x : float) (n : Z) : result float :=
  if (n =? 0)%Z then Raise ZeroDivisionError
  else Ok (f64_div x (f64_of_Z n)).

(** [a / b] for Python integers that a binary64 holds exactly (magnitude at
    most 2^53), where CPython divides the two converted floats. *)
Definition int_truediv (a b : Z) : result float :=
  if (b =? 0)%Z then Raise ZeroDivisionError
  else Ok (f64_div (f64_of_Z a) (f64_of_Z b)).

(** ** Python sequences *)

(** [l[i]] for a sequence and an integer index: a negative index counts from
    the end, an index outside [-len, len) raises [IndexError].  [Series.iloc]
    with one integer behaves this way; [__getitem__] reaches it only with an
    index that the tensor of the embeddings has accepted. *)
Definition py_getitem {A : Type} (l : list A) (i : Z) : result A :=
  let n := Z.of_nat (length l) in
  let j := if (i <? 0)%Z then (i + n)%Z else i in
  if ((0 <=? j) && (j <? n))%Z then
    match nth_error l (Z.to_nat j) with
    | Some x => Ok x
    | None => Raise IndexError
    end
  else Raise IndexError.

(** The integers that a signed 64-bit integer holds. *)
Definition fits_int64 (i : Z) : bool := ((- 2 ^ 63 <=? i) && (i <? 2 ^ 63))%Z.

(** [t[i]] for a tensor and a Python integer, along the first dimension.
    The index is unpacked into a signed 64-bit integer: an integer that does
    not fit raises [ValueError] (overflow), one that fits is looked up as in
    a sequence.  A tensor has fewer than 2^63 rows, so that an index within
    [-len, len) always fits; the look-up is written first here, which gives
    the same result for every tensor (lemma [tensor_getitem_unpacks_first])
    and needs no bound on the length. *)
Definition tensor_getitem {A : Type} (t : list A) (i : Z) : result A :=
  match py_getitem t i with
  | Ok x => Ok x
  | Raise e => if fits_int64 i then Raise e else Raise ValueError
  end.

(** ** torch.max along dimension 1 *)

(** The reduction loop of the CPU kernel over one row: [max_number] starts at
    the row's first element, an element replaces it when
    [!(value <= max_number)], and a NaN ends the loop. *)
Fixpoint max_scan (row : list float) (i : nat) (max_number : float)
    (index : nat) : float * nat :=
  match row with
  | [] => (max_number, index)
  | value :: rest =>
      if negb (SFleb value max_number) then
        if is_nan value then (value, i)
        else max_scan rest (S i) value i
      else max_scan rest (S i) max_number index
  end.

Definition torch_max_row (row : list float) : result (float * nat) :=
  match row with
  | [] => Raise IndexError
  | x0 :: _ => Ok (max_scan row 0 x0 0)
  end.

(** [torch.max(predictions, 1)]: (values, indices) over the rows. *)
Definition torch_max (predictions : list (list float))
    : result (list float * list nat) :=
  rows <- mapM torch_max_row predictions ;;
  Ok (map fst rows, map snd rows).

(** [a == b] on one-dimensional integer tensors, with broadcasting of a
    one-element operand. *)
Definition tensor_eq (a b : list Z) : result (list bool) :=
  if length a =? length b then
    Ok (map (fun p => (fst p =? snd p)%Z) (combine a b))
  else
    match a, b with
    | [x], _ => Ok (map (fun y => (x =? y)%Z) b)
    | _, [y] => Ok (map (fun x => (x =? y)%Z) a)
    | _, _ => Raise RuntimeError
    end.

(** [t.sum().item()] of a boolean tensor. *)
Definition tensor_sum (t : list bool) : Z :=
  Z.of_nat (length (filter (fun b => b) t)).

(** ** calculate_accuracy *)

Definition calculate_accuracy (predictions : list (list float))
    (labels : list Z) : result float :=
  mx <- torch_max predictions ;;
  let predicted_classes := map Z.of_nat (snd mx) in
  eqs <- tensor_eq predicted_classes labels ;;
  let correct_predictions := tensor_sum eqs in
  accuracy <- int_truediv correct_predictions (Z.of_nat (length labels)) ;;
  Ok (torch_tensor accuracy).

(** ** SentimentDataset *)

Definition Embedding : Type := list float.

Record SentimentDataset : Type := {
  embeddings : list Embedding;
  labels : list Z
}.


(** [SentimentDataset.__len__]. *)
Definition SentimentDataset_len (self : SentimentDataset) : nat :=
  length (embeddings self).

(** [SentimentDataset.__getitem__]. *)
Definition SentimentDataset_getitem (self : SentimentDataset) (idx : Z)
    : result (Embedding * Z) :=
  embedding <- tensor_getitem (embeddings self) idx ;;
  label <- py_getitem (labels self) idx ;;
  Ok (embedding, label).

(** ** DataLoader *)

Record DataLoader : Type := {
  dataset : SentimentDataset;
  batch_size : nat;
  shuffle : bool
}.

(** [DataLoader(dataset, batch_size=..., shuffle=...)]: with [shuffle=True]
    the constructor builds a random sampler, which refuses a dataset without
    samples; the batch sampler it builds next refuses a batch size that is
    not positive. *)
Definition DataLoader_init (dataset0 : SentimentDataset) (batch_size0 : Z)
    (shuffle0 : bool) : result DataLoader :=
  if shuffle0 && (SentimentDataset_len dataset0 =? 0) then Raise ValueError
  else if (batch_size0 <=? 0)%Z then Raise ValueError
  else Ok {| dataset := dataset0;
             batch_size := Z.to_nat batch_size0;
             shuffle := shuffle0 |}.

(** [len(dataloader)] with [drop_last=False]:
    [(len(sampler) + batch_size - 1) // batch_size]. *)
Definition DataLoader_len (dl : DataLoader) : Z :=
  ((Z.of_nat (SentimentDataset_len (dataset dl))
    + Z.of_nat (batch_size dl) - 1) / Z.of_nat (batch_size dl))%Z.

(** The batch sampler's loop: indices are appended to [batch]; a full batch
    is yielded and a new one started; what is left at the end is yielded
    when it is not empty. *)
Fixpoint batch_sampler (bsize : nat) (batch : list nat) (sampler : list nat)
    : list (list nat) :=
  match sampler with
  | [] =>
      match batch with
      | [] => []
      | _ :: _ => [batch]
      end
  | idx :: rest =>
      let batch' := batch ++ [idx] in
      if length batch' =? bsize then batch' :: batch_sampler bsize [] rest
      else batch_sampler bsize batch' rest
  end.

Definition Batch : Type := (list Embedding * list Z)%type.

(** [torch.stack] of the embeddings of one batch: all of one size. *)
Definition stack (rows : list Embedding) : result (list Embedding) :=
  match rows with
  | [] => Raise RuntimeError
  | r0 :: _ =>
      if forallb (fun r => length r =? length r0) rows then Ok rows
      else Raise RuntimeError
  end.

(** Fetching one batch: [[dataset[i] for i in indices]], then the default
    collate function. *)
Definition fetch (ds : SentimentDataset) (indices : list nat) : result Batch :=
  samples <- mapM (fun i => SentimentDataset_getitem ds (Z.of_nat i)) indices ;;
  embedding_batch <- stack (map fst samples) ;;
  Ok (embedding_batch, map snd samples).

(** ** The numeric backend

    What the notebook takes from PyTorch as given: one output unit of a
    linear layer, the random mask of dropout, the random generator, automatic
    differentiation and the optimizer's update rule. *)

Definition Criterion : Type := list (list float) -> list Z -> result float.

(** [nn.Linear(in_features, out_features)]: [weight] has [out_features]
    rows of [in_features] numbers, [bias] has [out_features] numbers. *)
Record Linear : Type := {
  in_features : nat;
  weight : list (list float);
  bias : list float
}.

Record SentimentClassifier : Type := {
  fc1 : Linear;
  dropout_p : float;
  fc2 : Linear;
  training : bool
}.

Class Backend : Type := {
  generator : Type;
  gradients : Type;
  optimizer_state : Type;
  (** [w . x + b] in binary32, in the backend's summation order *)
  affine : list float -> float -> list float -> float;
  (** dropout in training mode over a batch of activations *)
  dropout_train : float -> generator -> list (list float)
                  -> list (list float) * generator;
  (** one draw of a 64-bit integer *)
  random_ : generator -> nat * generator;
  (** [torch.Generator().manual_seed(seed)] *)
  manual_seed : nat -> generator;
  (** gradient of [criterion(model(embedding_batch), label_batch)] with
      respect to the parameters, for the dropout mask drawn from the given
      generator state *)
  backward : Criterion -> SentimentClassifier -> generator
             -> list Embedding -> list Z -> gradients;
  (** accumulation into [.grad] *)
  grad_add : gradients -> gradients -> gradients;
  (** the optimizer's update of its state and of the parameters *)
  optimizer_step : optimizer_state -> Linear * Linear -> gradients
                   -> optimizer_state * (Linear * Linear)
}.

Section Notebook.

Context {B : Backend}.

(** [torch.randperm(n, generator=g)]: the permutation is built by inserting
    each index at a drawn position. *)
Fixpoint randperm (n : nat) (g : generator) : list nat * generator :=
  match n with
  | O => ([], g)
  | S n' =>
      let (p, g1) := randperm n' g in
      let (r, g2) := random_ g1 in
      let k := r mod (S n') in
      (firstn k p ++ n' :: skipn k p, g2)
  end.

(** ** SentimentClassifier.forward *)

Definition relu (x : float) : float :=
  match x with
  | S754_nan => x
  | _ => if SFltb f_zero x then x else f_zero
  end.

(** [nn.Linear] on one input row: a row of another length than
    [in_features] raises [RuntimeError], also when the layer has no output
    unit. *)
Definition linear (layer : Linear) (x : list float) : result (list float) :=
  if (length x =? in_features layer)
     && forallb (fun w => length w =? in_features layer) (weight layer) then
    Ok (map (fun wb => affine (fst wb) (snd wb) x)
            (combine (weight layer) (bias layer)))
  else Raise RuntimeError.

Definition forward (self : SentimentClassifier) (g : generator)
    (embedding : list Embedding) : result (list (list float)) * generator :=
  match mapM (linear (fc1 self)) embedding with
  | Raise e => (Raise e, g)
  | Ok out =>
      let out := map (map relu) out in
      let (out, g) :=
        if training self then dropout_train (dropout_p self) g out
        else (out, g) in
      (mapM (linear (fc2 self)) out, g)
  end.

(** ** The objects a call reaches *)

Record Env : Type := {
  model : SentimentClassifier;
  dataloader : DataLoader;
  optimizer : optimizer_state;
  grad : option gradients;
  rng : generator
}.

Definition set_model (m : SentimentClassifier) (env : Env) : Env :=
  {| model := m; dataloader := dataloader env; optimizer := optimizer env;
     grad := grad env; rng := rng env |}.

Definition set_rng (g : generator) (env : Env) : Env :=
  {| model := model env; dataloader := dataloader env;
     optimizer := optimizer env; grad := grad env; rng := g |}.

Definition set_grad (gr : option gradients) (env : Env) : Env :=
  {| model := model env; dataloader := dataloader env;
     optimizer := optimizer env; grad := gr; rng := rng env |}.

Definition set_optimizer (o : optimizer_state) (env : Env) : Env :=
  {| model := model env; dataloader := dataloader env; optimizer := o;
     grad := grad env; rng := rng env |}.

(** [model.train()] and [model.eval()]. *)
Definition set_training (mode : bool) (env : Env) : Env :=
  set_model {| fc1 := fc1 (model env); dropout_p := dropout_p (model env);
               fc2 := fc2 (model env); training := mode |} env.

(** [model(embedding_batch)]. *)
Definition call_model (embedding_batch : list Embedding) (env : Env)
    : result (list (list float)) * Env :=
  let (r, g) := forward (model env) (rng env) embedding_batch in
  (r, set_rng g env).

(** [optimizer.zero_grad()]. *)
Definition zero_grad (env : Env) : Env := set_grad None env.

(** [loss.backward()] for the loss of the batch just computed; [g0] is the
    generator state the forward pass started from. *)
Definition loss_backward (criterion : Criterion) (g0 : generator)
    (embedding_batch : list Embedding) (label_batch : list Z) (env : Env)
    : Env :=
  let d := backward criterion (model env) g0 embedding_batch label_batch in
  set_grad (Some match grad env with
                 | None => d
                 | Some old => grad_add old d
                 end) env.

(** [optimizer.step()]: parameters without a gradient are left alone. *)
Definition step (env : Env) : Env :=
  match grad env with
  | None => env
  | Some d =>
      let '(o, (l1, l2)) :=
        optimizer_step (optimizer env) (fc1 (model env), fc2 (model env)) d in
      set_optimizer o
        (set_model {| fc1 := l1; dropout_p := dropout_p (model env);
                      fc2 := l2; training := training (model env) |} env)
  end.

(** [iter(dataloader)]: the iterator draws its base seed; a shuffling
    sampler draws a seed of its own and permutes the indices with a fresh
    generator, a sequential one yields [range(len(dataset))]. *)
Definition iter_dataloader (env : Env) : list (list nat) * Env :=
  let dl := dataloader env in
  let n := SentimentDataset_len (dataset dl) in
  let (_, g1) := random_ (rng env) in
  if shuffle dl then
    let (seed, g2) := random_ g1 in
    (batch_sampler (batch_size dl) [] (fst (randperm n (manual_seed seed))),
     set_rng g2 env)
  else (batch_sampler (batch_size dl) [] (seq 0 n), set_rng g1 env).

(** ** train *)

(** The body of the loop of [train] for one batch of indices, from the fetch
    of the batch to the two accumulations ([.to(device)] moves a tensor and
    changes no value). *)
Definition train_batch (criterion : Criterion) (indices : list nat)
    (acc : float * float) (env : Env) : result (float * float) * Env :=
  let (epoch_loss, epoch_acc) := acc in
  match fetch (dataset (dataloader env)) indices with
  | Raise e => (Raise e, env)
  | Ok (embedding_batch, label_batch) =>
      let env := zero_grad env in
      let g0 := rng env in
      let (r, env) := call_model embedding_batch env in
      match r with
      | Raise e => (Raise e, env)
      | Ok predictions =>
          match criterion predictions label_batch with
          | Raise e => (Raise e, env)
          | Ok loss =>
              match calculate_accuracy predictions label_batch with
              | Raise e => (Raise e, env)
              | Ok acc1 =>
                  let env :=
                    loss_backward criterion g0 embedding_batch label_batch env in
                  let env := step env in
                  (Ok (f64_add epoch_loss (item loss),
                       f64_add epoch_acc (item acc1)), env)
              end
          end
      end
  end.

Fixpoint train_loop (criterion : Criterion) (batches : list (list nat))
    (acc : float * float) (env : Env) : result (float * float) * Env :=
  match batches with
  | [] => (Ok acc, env)
  | indices :: rest =>
      let (r, env) := train_batch criterion indices acc env in
      match r with
      | Raise e => (Raise e, env)
      | Ok acc' => train_loop criterion rest acc' env
      end
  end.

(** The [return] of [train] and of [evaluate]. *)
Definition epoch_means (acc : float * float) (dl : DataLoader)
    : result (float * float) :=
  let (epoch_loss, epoch_acc) := acc in
  l <- float_truediv epoch_loss (DataLoader_len dl) ;;
  a <- float_truediv epoch_acc (DataLoader_len dl) ;;
  Ok (l, a).

Definition train (criterion : Criterion) (env : Env)
    : result (float * float) * Env :=
  let env := set_training true env in
  let (batches, env) := iter_dataloader env in
  let (r, env) := train_loop criterion batches (f_zero, f_zero) env in
  match r with
  | Raise e => (Raise e, env)
  | Ok acc => (epoch_means acc (dataloader env), env)
  end.

(** ** evaluate *)

Definition evaluate_batch (criterion : Criterion) (indices : list nat)
    (acc : float * float) (env : Env) : result (float * float) * Env :=
  let (epoch_loss, epoch_acc) := acc in
  match fetch (dataset (dataloader env)) indices with
  | Raise e => (Raise e, env)
  | Ok (embedding_batch, label_batch) =>
      let (r, env) := call_model embedding_batch env in
      match r with
      | Raise e => (Raise e, env)
      | Ok predictions =>
          match criterion predictions label_batch with
          | Raise e => (Raise e, env)
          | Ok loss =>
              match calculate_accuracy predictions label_batch with
              | Raise e => (Raise e, env)
              | Ok acc1 =>
                  (Ok (f64_add epoch_loss (item loss),
                       f64_add epoch_acc (item acc1)), env)
              end
          end
      end
  end.

Fixpoint evaluate_loop (criterion : Criterion) (batches : list (list nat))
    (acc : float * float) (env : Env) : result (float * float) * Env :=
  match batches with
  | [] => (Ok acc, env)
  | indices :: rest =>
      let (r, env) := evaluate_batch criterion indices acc env in
      match r with
      | Raise e => (Raise e, env)
      | Ok acc' => evaluate_loop criterion rest acc' env
      end
  end.

Definition evaluate (criterion : Criterion) (env : Env)
    : result (float * float) * Env :=
  let env := set_training false env in
  let (batches, env) := iter_dataloader env in
  let (r, env) := evaluate_loop criterion batches (f_zero, f_zero) env in
  match r with
  | Raise e => (Raise e, env)
  | Ok acc => (epoch_means acc (dataloader env), env)
  end.

End Notebook.

(** ** Text preprocessing *)

(** A value of the text column: a string, or something else (a missing text
    is read as a NaN). *)
Inductive PyObject : Type :=
| PyStr (s : string)
| PyOther.

(** Membership in [string.punctuation], by code point. *)
Definition is_punctuation (c : ascii) : bool :=
  let n := nat_of_ascii c in
  ((33 <=? n) && (n <=? 47)) || ((58 <=? n) && (n <=? 64))
  || ((91 <=? n) && (n <=? 96)) || ((123 <=? n) && (n <=? 126)).

(** [str.isspace] on the code points below 256. *)
Definition is_space (c : ascii) : bool :=
  let n := nat_of_ascii c in
  ((9 <=? n) && (n <=? 13)) || ((28 <=? n) && (n <=? 32))
  || (n =? 133) || (n =? 160).

(** [text.translate(str.maketrans('', '', string.punctuation))]. *)
Fixpoint remove_punctuation (s : string) : string :=
  match s with
  | EmptyString => EmptyString
  | String c rest =>
      if is_punctuation c then remove_punctuation rest
      else String c (remove_punctuation rest)
  end.

(** [text.split()]: [word] is the word being read, last character first. *)
Fixpoint split_words (s : string) (word : list ascii) : list string :=
  let flush (ws : list string) :=
    match word with
    | [] => ws
    | _ :: _ => string_of_list_ascii (rev word) :: ws
    end in
  match s with
  | EmptyString => flush []
  | String c rest =>
      if is_space c then flush (split_words rest [])
      else split_words rest (c :: word)
  end.

(** [' '.join(words)]. *)
Fixpoint join_words (words : list string) : string :=
  match words with
  | [] => EmptyString
  | [w] => w
  | w :: rest => (w ++ String " " (join_words rest))%string
  end.

Section Text.

(** [str.lower], the substitution [re.sub(r'http\S+|www.\S+', '', text)] and
    the list [stopwords.words('english')]. *)
Variable lower : string -> string.
Variable remove_urls : string -> string.
Variable stop_words : list string.

Definition preprocess_text_st (text : PyObject) : string :=
  match text with
  | PyStr text =>
      let text := lower text in
      let text := remove_urls text in
      let text := remove_punctuation text in
      let text_list := split_words text [] in
      let filtered_words :=
        filter (fun word => negb (existsb (String.eqb word) stop_words))
               text_list in
      join_words filtered_words
  | PyOther => " "%string
  end.

End Text.

(** ** Label tables *)

(** A Python dictionary with integer keys, in insertion order. *)
Definition dict (V : Type) : Type := list (Z * V).

(** [d[k] = v]. *)
Fixpoint dict_setitem {V : Type} (k : Z) (v : V) (d : dict V) : dict V :=
  match d with
  | [] => [(k, v)]
  | (k', v') :: rest =>
      if (k' =? k)%Z then (k, v) :: rest
      else (k', v') :: dict_setitem k v rest
  end.

(** [d[k]]. *)
Fixpoint dict_getitem {V : Type} (d : dict V) (k : Z) : result V :=
  match d with
  | [] => Raise KeyError
  | (k', v) :: rest => if (k' =? k)%Z then Ok v else dict_getitem rest k
  end.

Definition sentiment_map : list (string * Z) :=
  [("negative"%string, 0%Z); ("neutral"%string, 1%Z); ("positive"%string, 2%Z)].

(** [{v: k for k, v in sentiment_map.items()}]. *)
Definition sentiment_map_inv : dict string :=
  fold_left (fun d kv => dict_setitem (snd kv) (fst kv) d) sentiment_map [].

(** ** predict_sentiment *)

Section Predict.

Context {B : Backend}.

Variable lower : string -> string.
Variable remove_urls : string -> string.
Variable stop_words : list string.

(** [sentence_transformer_model.encode([s], convert_to_tensor=True)] is
    [[encode s]]. *)
Definition predict_sentiment (encode : string -> Embedding)
    (sentence : PyObject) (sentiment_map_inv0 : dict string) (env : Env)
    : result string * Env :=
  let env := set_training false env in
  let processed_sentence :=
    preprocess_text_st lower remove_urls stop_words sentence in
  let embedding := [encode processed_sentence] in
  let (r, env) := call_model embedding env in
  (prediction <- r ;;
   mx <- torch_max prediction ;;
   match snd mx with
   | [predicted_sentiment_index] =>
       dict_getitem sentiment_map_inv0 (Z.of_nat predicted_sentiment_index)
   | _ => Raise RuntimeError
   end, env).

End Predict.

(** ** The training loop *)

Section TrainingLoop.

Context {B : Backend}.

(** The call of [train] or of [evaluate] with another loader: the model, the
    optimizer and the generator are the objects of the earlier calls. *)
Definition with_dataloader (dl : DataLoader) (env : Env) : Env :=
  {| model := model env; dataloader := dl; optimizer := optimizer env;
     grad := grad env; rng := rng env |}.

(** What a line printed by the loop shows: [epoch+1] and the four metrics
    (the formatting of the numbers is left out). *)
Record Report : Type := {
  epoch_number : nat;
  train_loss : float;
  train_acc : float;
  test_loss : float;
  test_acc : float
}.

(** [for epoch in epochs: ...]: the lines printed, the exception that ended
    the loop if there was one, and the environment at the end. *)
Fixpoint training_loop (criterion : Criterion)
    (train_dataloader_st test_dataloader_st : DataLoader)
    (epochs : list nat) (env : Env) : (list Report * option PyExc) * Env :=
  match epochs with
  | [] => (([], None), env)
  | epoch :: rest =>
      let (r, env) :=
        train criterion (with_dataloader train_dataloader_st env) in
      match r with
      | Raise e => (([], Some e), env)
      | Ok (train_loss, train_acc) =>
          let (r, env) :=
            evaluate criterion (with_dataloader test_dataloader_st env) in
          match r with
          | Raise e => (([], Some e), env)
          | Ok (test_loss, test_acc) =>
              let line := {| epoch_number := epoch + 1;
                             train_loss := train_loss;
                             train_acc := train_acc;
                             test_loss := test_loss;
                             test_acc := test_acc |} in
              let '((lines, e), env) :=
                training_loop criterion train_dataloader_st
                  test_dataloader_st rest env in
              ((line :: lines, e), env)
          end
      end
  end.

End TrainingLoop.

(** ** A sequential backend and small objects to run the definitions on *)

Definition f32_add : float -> float -> float := SFadd 24 128.
Definition f32_mul : float -> float -> float := SFmul 24 128.
Definition f32_div : float -> float -> float := SFdiv 24 128.
Definition f32_of_Z (n : Z) : float := binary_normalize 24 128 n 0 false.

(** Left-to-right summation; the dropout mask of probability zero, which
    keeps every unit as it is; a generator that replays a list of draws; and
    an optimizer with learning rate zero, which counts its steps and leaves
    the parameters where they are. *)
Definition sequential_backend : Backend := {|
  generator := list nat;
  gradients := unit;
  optimizer_state := nat;
  affine := fun w b x =>
    fold_left (fun s p => f32_add s (f32_mul (fst p) (snd p))) (combine w x) b;
  dropout_train := fun _ g x => (x, g);
  random_ := fun g => match g with [] => (0, []) | r :: g' => (r, g') end;
  manual_seed := fun seed => [seed];
  backward := fun _ _ _ _ _ => tt;
  grad_add := fun _ _ => tt;
  optimizer_step := fun o params _ => (S o, params)
|}.

(** The sequential backend with a generator that a seed fills with eight
    draws of that seed, so that the order of a shuffling loader follows the
    seed. *)
Definition seeded_backend : Backend := {|
  generator := list nat;
  gradients := unit;
  optimizer_state := nat;
  affine := fun w b x =>
    fold_left (fun s p => f32_add s (f32_mul (fst p) (snd p))) (combine w x) b;
  dropout_train := fun _ g x => (x, g);
  random_ := fun g => match g with [] => (0, []) | r :: g' => (r, g') end;
  manual_seed := fun seed => repeat seed 8;
  backward := fun _ _ _ _ _ => tt;
  grad_add := fun _ _ => tt;
  optimizer_step := fun o params _ => (S o, params)
|}.

(** [nn.NLLLoss()] (mean reduction, [ignore_index=-100]): the mean of
    [-predictions[i][labels[i]]] over the samples whose label is not -100,
    which is NaN when there is none; another label that is no class raises
    [IndexError].  The terms are added from left to right in binary32; the
    library may group them otherwise or add them with more precision, which
    gives the same sum whenever the partial sums are exact or infinite, as
    they are in every run of this criterion below. *)
Definition nll_loss : Criterion := fun predictions labels =>
  if length predictions =? length labels then
    let kept := filter (fun pl => negb (snd pl =? -100)%Z)
                       (combine predictions labels) in
    picked <- mapM (fun pl =>
                      if (snd pl <? 0)%Z then Raise IndexError
                      else match nth_error (fst pl) (Z.to_nat (snd pl)) with
                           | Some x => Ok (SFopp x)
                           | None => Raise IndexError
                           end)
                   kept ;;
    Ok (f32_div (fold_left f32_add picked f_zero)
                (f32_of_Z (Z.of_nat (length kept))))
  else Raise ValueError.

(** A head with one input, one hidden unit and three classes, and with
    dropout probability zero. *)
Definition small_model (w : float) : SentimentClassifier := {|
  fc1 := {| in_features := 1; weight := [[w]]; bias := [f_zero] |};
  dropout_p := f_zero;
  fc2 := {| in_features := 1;
            weight := [[f32_of_Z 1]; [f32_of_Z 2]; [f32_of_Z (-1)]];
            bias := [f_zero; f_zero; f_zero] |};
  training := false
|}.

Definition small_dataset : SentimentDataset := {|
  embeddings := [[f32_of_Z 1]; [f32_of_Z (-3)]; [f32_of_Z 2]];
  labels := [1%Z; 0%Z; 2%Z]
|}.

Definition small_env (w : float) (bsize : nat) : @Env sequential_backend :=
  @Build_Env sequential_backend
    (small_model w)
    {| dataset := small_dataset; batch_size := bsize; shuffle := false |}
    O None (@nil nat).

(** The head and the samples of [small_env] behind a shuffling loader with
    batches of two, on the seeded backend; the generator replays the draws
    0, 0, 0 and 1. *)
Definition reshuffled_env : @Env seeded_backend :=
  @Build_Env seeded_backend
    (small_model (f32_of_Z 1))
    {| dataset := small_dataset; batch_size := 2; shuffle := true |}
    O None [0; 0; 0; 1].

(** * Definitions the statements are written with *)

(** ** Samples and batches *)

Definition embedding_at (ds : SentimentDataset) (i : nat) : Embedding :=
  nth i (embeddings ds) [].

Definition label_at (ds : SentimentDataset) (i : nat) : Z :=
  nth i (labels ds) 0%Z.

(** The batch that holds the samples at [indices], in that order. *)
Definition batch_at (ds : SentimentDataset) (indices : list nat) : Batch :=
  (map (embedding_at ds) indices, map (label_at ds) indices).

(** The size a batch at position [i] must have among [count] batches drawn
    from [n] indices. *)
Definition batch_size_at (bsize n count i : nat) : nat :=
  if S i <? count then bsize
  else if n mod bsize =? 0 then bsize else n mod bsize.

(** ** Metrics of an epoch *)

(** Sum of the values divided by their number. *)
Definition mean (xs : list float) : float :=
  f64_div (fold_left f64_add xs f_zero) (f64_of_Z (Z.of_nat (length xs))).

Section EpochDefs.

Context {B : Backend}.

(** The forward pass in evaluation mode: no dropout, no generator. *)
Definition forward_eval (self : SentimentClassifier)
    (embedding : list Embedding) : result (list (list float)) :=
  out <- mapM (linear (fc1 self)) embedding ;;
  mapM (linear (fc2 self)) (map (map relu) out).

(** Loss and accuracy of one batch of indices in evaluation mode, as Python
    floats. *)
Definition batch_metrics_eval (criterion : Criterion)
    (m : SentimentClassifier) (ds : SentimentDataset) (indices : list nat)
    : result (float * float) :=
  b <- fetch ds indices ;;
  predictions <- forward_eval m (fst b) ;;
  loss <- criterion predictions (snd b) ;;
  acc1 <- calculate_accuracy predictions (snd b) ;;
  Ok (item loss, item acc1).

(** One training step on one batch of indices: its loss and accuracy as
    Python floats, and the environment after the update. *)
Definition train_step (criterion : Criterion) (indices : list nat)
    (env : Env) : result (float * float) * Env :=
  match fetch (dataset (dataloader env)) indices with
  | Raise e => (Raise e, env)
  | Ok (embedding_batch, label_batch) =>
      let env := zero_grad env in
      let g0 := rng env in
      let (r, env) := call_model embedding_batch env in
      match r with
      | Raise e => (Raise e, env)
      | Ok predictions =>
          match criterion predictions label_batch with
          | Raise e => (Raise e, env)
          | Ok loss =>
              match calculate_accuracy predictions label_batch with
              | Raise e => (Raise e, env)
              | Ok acc1 =>
                  (Ok (item loss, item acc1),
                   step (loss_backward criterion g0 embedding_batch
                           label_batch env))
              end
          end
      end
  end.

(** The per-batch metrics of an epoch of training, in batch order. *)
Fixpoint train_trace (criterion : Criterion) (batches : list (list nat))
    (env : Env) : result (list (float * float)) * Env :=
  match batches with
  | [] => (Ok [], env)
  | indices :: rest =>
      let (r, env) := train_step criterion indices env in
      match r with
      | Raise e => (Raise e, env)
      | Ok m =>
          let (rs, env) := train_trace criterion rest env in
          (ms <- rs ;; Ok (m :: ms), env)
      end
  end.

(** The two sums of an epoch, from the accumulators' initial values. *)
Definition sums (acc : float * float) (ms : list (float * float))
    : float * float :=
  (fold_left f64_add (map fst ms) (fst acc),
   fold_left f64_add (map snd ms) (snd acc)).

Definition means (ms : list (float * float)) : float * float :=
  (mean (map fst ms), mean (map snd ms)).

(** The batches of indices an epoch iterates over, and the environment its
    loop starts from ([mode] is the mode the epoch puts the model in). *)
Definition epoch_batches (mode : bool) (env : Env) : list (list nat) :=
  fst (iter_dataloader (set_training mode env)).

Definition epoch_start (mode : bool) (env : Env) : Env :=
  snd (iter_dataloader (set_training mode env)).

End EpochDefs.

(** The environments the statements are run on. *)
Definition demo_env : @Env sequential_backend := small_env (f32_of_Z 1) 2.
Definition overflow_env : @Env sequential_backend :=
  small_env (f32_of_Z (2 ^ 127)) 2.

(** The per-batch losses and accuracies of an epoch of training over
    [overflow_env]. *)
Definition overflow_metrics : list (float * float) :=
  [(S754_infinity true, f64_one); (S754_infinity false, f_zero)].

(** A dataset of one sample behind a loader with batches of 64. *)
Definition single_env : @Env sequential_backend :=
  @Build_Env sequential_backend
    (small_model (f32_of_Z 1))
    {| dataset := {| embeddings := [[f32_of_Z 5]]; labels := [2%Z] |};
       batch_size := 64; shuffle := false |}
    O None (@nil nat).

(** A sample whose embedding is longer than the others' and whose label is
    not a class. *)
Definition malformed_embeddings : list Embedding :=
  [[f32_of_Z 1]; [f32_of_Z 1; f32_of_Z 2; f32_of_Z 3]].
Definition malformed_labels : list Z := [1%Z; 7%Z].

(** ** Greatest scores *)

(** The order [torch.max] maximises: the order of the numbers, with NaN
    above every number. *)
Definition max_le (x y : float) : bool := is_nan y || SFleb x y.

(** [i] is the lowest index of a greatest element of [row]. *)
Definition first_argmax (row : list float) (i : nat) : Prop :=
  i < length row
  /\ (forall j, j < length row ->
        max_le (nth j row f_zero) (nth i row f_zero) = true)
  /\ (forall j, j < i -> max_le (nth i row f_zero) (nth j row f_zero) = false).

(** The number of samples whose predicted class is their label. *)
Definition correct_count (classes : list nat) (labels : list Z) : Z :=
  Z.of_nat (length (filter (fun p => (Z.of_nat (fst p) =? snd p)%Z)
                           (combine classes labels))).

(** Predictions and labels of three samples; the second row holds a NaN. *)
Definition demo_predictions : list (list float) :=
  [[f32_of_Z 1; f32_of_Z 2; f32_of_Z 2];
   [f32_of_Z 1; S754_nan; f32_of_Z 2];
   [f_zero; f_zero; f_zero]].
Definition demo_labels : list Z := [1%Z; 1%Z; 2%Z].

(** ** Values between zero and one *)

(** A float of sign [s] and of magnitude at most one, in a format of
    precision [prec]: a zero, or a mantissa [m] and an exponent [e] at most
    the exponent of one with [m * 2^e <= 1]. *)
Definition unit_shape (prec : Z) (s : bool) (x : float) : Prop :=
  x = S754_zero s
  \/ exists m e,
       x = S754_finite s m e /\ (e <= 1 - prec)%Z /\ (Zpos m <= 2 ^ (- e))%Z.

(** The binary64 number of a positive integer below 2^53: its digits moved
    up to the top of the mantissa. *)
Definition f64_normal (n : positive) : float :=
  S754_finite false
    (Z.to_pos (Zpos n * 2 ^ (53 - Zpos (digits2_pos n))))%Z
    (Zpos (digits2_pos n) - 53)%Z.

(** ** Shapes of the classifier *)

(** [layer] is an [nn.Linear(n_in, n_out)]. *)
Definition linear_shape (layer : Linear) (n_in n_out : nat) : Prop :=
  in_features layer = n_in
  /\ length (weight layer) = n_out /\ length (bias layer) = n_out
  /\ Forall (fun w => length w = n_in) (weight layer).

(** [m] is a [SentimentClassifier(embedding_dim, output_dim, hidden_dim, p)]. *)
Definition classifier_shape (m : SentimentClassifier)
    (embedding_dim hidden_dim output_dim : nat) : Prop :=
  linear_shape (fc1 m) embedding_dim hidden_dim
  /\ linear_shape (fc2 m) hidden_dim output_dim.

(** An encoder with embeddings of one number. *)
Definition demo_encode (s : string) : Embedding :=
  [f32_of_Z (Z.of_nat (String.length s))].

(** A tactic for goals on the comparison of two floats. *)
Ltac compare_cases :=
  repeat match goal with
         | |- context [Z.compare ?a ?b] =>
             destruct (Z.compare_spec a b); try lia; subst
         | |- context [Pos.compare_cont Eq ?a ?b] =>
             change (Pos.compare_cont Eq a b) with (Pos.compare a b);
             destruct (Pos.compare_spec a b); try lia; subst
         | H : context [Z.compare ?a ?b] |- _ =>
             destruct (Z.compare_spec a b); try lia; subst
         | H : context [Pos.compare_cont Eq ?a ?b] |- _ =>
             change (Pos.compare_cont Eq a b) with (Pos.compare a b) in H;
             destruct (Pos.compare_spec a b); try lia; subst
         end;
  simpl in *; try congruence; try discriminate.

(** ** Words, tables and further small objects *)

(** ** Words and tables *)

(** A string with a character of [string.punctuation]. *)
Definition has_punctuation (w : string) : bool :=
  existsb is_punctuation (list_ascii_of_string w).

(** A word as [str.split] yields it: not empty and without whitespace. *)
Definition is_word (w : string) : Prop :=
  w <> EmptyString
  /\ Forall (fun c => is_space c = false) (list_ascii_of_string w).

(** [{v: k for k, v in table.items()}] for any table. *)
Definition dict_invert (table : list (string * Z)) : dict string :=
  fold_left (fun d kv => dict_setitem (snd kv) (fst kv) d) table [].

(** The words of the text after lowercasing, URL and punctuation removal. *)
Definition text_words (lower remove_urls : string -> string) (text : string)
    : list string :=
  split_words (remove_punctuation (remove_urls (lower text))) [].

(** The three samples of [small_dataset], the last one with a label that is
    no class of the head, in batches of two. *)
Definition late_failure_env : @Env sequential_backend :=
  @Build_Env sequential_backend
    (small_model (f32_of_Z 1))
    {| dataset := {| embeddings := embeddings small_dataset;
                     labels := [1%Z; 0%Z; 7%Z] |};
       batch_size := 2; shuffle := false |}
    O None (@nil nat).

(** [demo_env] behind a shuffling loader; the generator replays the draws 4
    and 9. *)
Definition shuffled_env : @Env sequential_backend :=
  @Build_Env sequential_backend
    (small_model (f32_of_Z 1))
    {| dataset := small_dataset; batch_size := 2; shuffle := true |}
    O None [4; 9].

(** The malformed sample of above in a dataset. *)
Definition malformed_dataset : SentimentDataset :=
  {| embeddings := malformed_embeddings; labels := malformed_labels |}.

(** Three rows of logits that all predict class 1. *)
Definition same_class_predictions : list (list float) :=
  [[f_zero; f32_of_Z 1; f_zero]; [f_zero; f32_of_Z 2; f32_of_Z 1];
   [f32_of_Z (-1); f_zero; f32_of_Z (-1)]].

(** [x] is zero or a positive number of value at most the integer [n]. *)
Definition at_most (n : Z) (x : float) : Prop :=
  x = S754_zero false
  \/ exists m e,
       x = S754_finite false m e /\ (e <= 0)%Z /\ (Zpos m <= n * 2 ^ (- e))%Z.

(** ** The calls of the training loop *)

Section LoopCalls.

Context {B : Backend}.

Variable criterion : Criterion.
Variables train_dataloader_st test_dataloader_st : DataLoader.

(** The environment that [train] and then [evaluate] leave when they are
    called one after the other, as in one epoch of the loop. *)
Definition after_epoch (env : Env) : Env :=
  snd (evaluate criterion
         (with_dataloader test_dataloader_st
            (snd (train criterion
                    (with_dataloader train_dataloader_st env))))).

(** The environment after [k] such epochs. *)
Fixpoint after_epochs (k : nat) (env : Env) : Env :=
  match k with
  | O => env
  | S k' => after_epoch (after_epochs k' env)
  end.

(** The environments in which the loop that starts from [env] calls [train]
    and [evaluate] in its epoch [i] (counted from 0). *)
Definition train_call (i : nat) (env : Env) : Env :=
  with_dataloader train_dataloader_st (after_epochs i env).

Definition evaluate_call (i : nat) (env : Env) : Env :=
  with_dataloader test_dataloader_st
    (snd (train criterion (train_call i env))).

End LoopCalls.

(** * Lemmas and theorems *)

(** ** The definitions on small inputs *)

Example batch_sampler_five_by_two :
  batch_sampler 2 [] (seq 0 5) = [[0; 1]; [2; 3]; [4]].
Proof. reflexivity. Qed.

Example torch_max_row_tie :
  torch_max_row [f32_of_Z 1; f32_of_Z 2; f32_of_Z 2] = Ok (f32_of_Z 2, 1).
Proof. reflexivity. Qed.

Example torch_max_row_nan :
  torch_max_row [f32_of_Z 1; S754_nan; f32_of_Z 2] = Ok (S754_nan, 1).
Proof. reflexivity. Qed.

(** Two of three predictions are right: 2/3 in binary64, then in binary32. *)
Example int_truediv_two_thirds :
  int_truediv 2 3 = Ok (S754_finite false 6004799503160661 (-53)).
Proof. vm_compute. reflexivity. Qed.

Example calculate_accuracy_two_thirds :
  calculate_accuracy demo_predictions demo_labels
  = Ok (S754_finite false 11184811 (-24)).
Proof. vm_compute. reflexivity. Qed.

Example float_truediv_by_zero :
  float_truediv f64_one 0 = Raise ZeroDivisionError.
Proof. reflexivity. Qed.

Example getitem_last : SentimentDataset_getitem small_dataset 2
                       = Ok ([f32_of_Z 2], 2%Z).
Proof. reflexivity. Qed.

Example preprocess_text_st_words :
  preprocess_text_st (fun s => s) (fun s => s)
    ["the"%string; "a"%string] (PyStr "the film, a  good one!")
  = "film good one"%string.
Proof. reflexivity. Qed.

Example preprocess_text_st_not_a_string :
  preprocess_text_st (fun s => s) (fun s => s) [] PyOther = " "%string.
Proof. reflexivity. Qed.

Example sentiment_map_inv_entries :
  sentiment_map_inv
  = [(0%Z, "negative"%string); (1%Z, "neutral"%string);
     (2%Z, "positive"%string)].
Proof. reflexivity. Qed.

Example train_demo_epoch :
  fst (train nll_loss demo_env)
  = Ok (S754_finite false 4503599627370496 (-53),
        S754_finite false 4503599627370496 (-53)).
Proof. vm_compute. reflexivity. Qed.

Example predict_sentiment_demo :
  fst (predict_sentiment (fun s => s) (fun s => s) [] demo_encode
         (PyStr "good film") sentiment_map_inv demo_env)
  = Ok "neutral"%string.
Proof. vm_compute. reflexivity. Qed.

(** ** Results and comprehensions *)

Lemma mapM_length {A B : Type} (f : A -> result B) (l : list A) (ys : list B) :
  mapM f l = Ok ys -> length ys = length l.
Proof.
  revert ys; induction l as [|x l IH]; simpl; intros ys H.
  - inversion H; reflexivity.
  - destruct (f x) as [y|e]; simpl in H; [|discriminate].
    destruct (mapM f l) as [ys'|e]; simpl in H; [|discriminate].
    inversion H; subst; simpl; f_equal; apply IH; reflexivity.
Qed.

Lemma mapM_app {A B : Type} (f : A -> result B) (l1 l2 : list A) :
  mapM f (l1 ++ l2) =
  (ys1 <- mapM f l1 ;; ys2 <- mapM f l2 ;; Ok (ys1 ++ ys2)).
Proof.
  induction l1 as [|x l1 IH]; simpl.
  - destruct (mapM f l2); reflexivity.
  - destruct (f x) as [y|e]; simpl; [|reflexivity].
    rewrite IH. destruct (mapM f l1) as [ys1|e]; simpl; [|reflexivity].
    destruct (mapM f l2); reflexivity.
Qed.

Lemma mapM_ok_all {A B : Type} (f : A -> result B) (g : A -> B) (l : list A) :
  (forall x, In x l -> f x = Ok (g x)) -> mapM f l = Ok (map g l).
Proof.
  induction l as [|x l IH]; simpl; intros H; [reflexivity|].
  rewrite (H x (or_introl eq_refl)); simpl.
  rewrite IH by (intros; apply H; right; assumption). reflexivity.
Qed.

(** ** Non-finite values in sums and quotients *)

Lemma f64_add_nonfinite_l (x y : float) :
  is_finite x = false -> is_finite (f64_add x y) = false.
Proof.
  destruct x as [s|s| |s m e]; simpl; try discriminate; intros _.
  - destruct y as [t|t| |t n f]; simpl; try reflexivity.
    destruct s, t; reflexivity.
  - reflexivity.
Qed.

Lemma f64_add_nonfinite_r (x y : float) :
  is_finite y = false -> is_finite (f64_add x y) = false.
Proof.
  destruct y as [t|t| |t n f]; simpl; try discriminate; intros _.
  - destruct x as [s|s| |s m e]; simpl; try reflexivity.
    destruct s, t; reflexivity.
  - destruct x; reflexivity.
Qed.

Lemma f64_div_nonfinite (x y : float) :
  is_finite x = false -> is_finite (f64_div x y) = false.
Proof.
  destruct x as [s|s| |s m e]; simpl; try discriminate; intros _.
  - destruct y; reflexivity.
  - reflexivity.
Qed.

Lemma item_nonfinite (x : float) :
  is_finite x = false -> is_finite (item x) = false.
Proof. destruct x; simpl; intros H; try discriminate; reflexivity. Qed.

Lemma fold_add_nonfinite_acc (xs : list float) (a : float) :
  is_finite a = false -> is_finite (fold_left f64_add xs a) = false.
Proof.
  revert a; induction xs as [|x xs IH]; simpl; intros a H; [exact H|].
  apply IH, f64_add_nonfinite_l, H.
Qed.

Lemma fold_add_nonfinite (xs : list float) (a : float) :
  existsb (fun x => negb (is_finite x)) xs = true ->
  is_finite (fold_left f64_add xs a) = false.
Proof.
  revert a; induction xs as [|x xs IH]; simpl; intros a H; [discriminate|].
  apply orb_true_iff in H as [H|H].
  - apply fold_add_nonfinite_acc, f64_add_nonfinite_r.
    destruct (is_finite x); [discriminate|reflexivity].
  - apply IH, H.
Qed.

(** ** Indexing *)

Lemma py_getitem_spec {A : Type} (l : list A) (i : Z) :
  let n := Z.of_nat (length l) in
  ((- n <= i < n)%Z ->
     exists x, py_getitem l i = Ok x
               /\ nth_error l (Z.to_nat (i mod n)) = Some x)
  /\ (~ (- n <= i < n)%Z -> py_getitem l i = Raise IndexError).
Proof.
  intros n; unfold py_getitem; fold n; split.
  - intros Hi.
    assert (Hj : ((if (i <? 0)%Z then (i + n)%Z else i) = i mod n)%Z).
    { destruct (Z.ltb_spec i 0).
      - apply Z.mod_unique with (q := (-1)%Z); lia.
      - symmetry; apply Z.mod_small; lia. }
    rewrite Hj.
    assert (Hr : (0 <= i mod n < n)%Z) by (apply Z.mod_pos_bound; lia).
    replace ((0 <=? i mod n)%Z && (i mod n <? n)%Z) with true
      by (symmetry; apply andb_true_iff; split;
          [apply Z.leb_le|apply Z.ltb_lt]; lia).
    destruct (nth_error l (Z.to_nat (i mod n))) as [x|] eqn:E.
    + exists x; split; reflexivity.
    + apply nth_error_None in E; lia.
  - intros Hi.
    destruct (Z.ltb_spec i 0).
    + destruct (Z.leb_spec 0 (i + n)); [|reflexivity].
      destruct (Z.ltb_spec (i + n) n); [lia|reflexivity].
    + destruct (Z.leb_spec 0 i); [|reflexivity].
      destruct (Z.ltb_spec i n); [lia|reflexivity].
Qed.

Lemma py_getitem_nat {A : Type} (l : list A) (i : nat) (x : A) :
  nth_error l i = Some x -> py_getitem l (Z.of_nat i) = Ok x.
Proof.
  intros H. unfold py_getitem.
  assert (i < length l) by (apply nth_error_Some; congruence).
  destruct (Z.ltb_spec (Z.of_nat i) 0); [lia|].
  replace ((0 <=? Z.of_nat i)%Z && (Z.of_nat i <? Z.of_nat (length l))%Z)
    with true
    by (symmetry; apply andb_true_iff; split;
        [apply Z.leb_le|apply Z.ltb_lt]; lia).
  rewrite Nat2Z.id, H. reflexivity.
Qed.

Lemma fits_int64_spec (i : Z) :
  fits_int64 i = true <-> (- 2 ^ 63 <= i < 2 ^ 63)%Z.
Proof.
  unfold fits_int64. rewrite andb_true_iff, Z.leb_le, Z.ltb_lt. reflexivity.
Qed.

Lemma tensor_getitem_spec {A : Type} (t : list A) (i : Z) :
  let n := Z.of_nat (length t) in
  ((- n <= i < n)%Z ->
     exists x, tensor_getitem t i = Ok x
               /\ nth_error t (Z.to_nat (i mod n)) = Some x)
  /\ (~ (- n <= i < n)%Z -> (- 2 ^ 63 <= i < 2 ^ 63)%Z ->
      tensor_getitem t i = Raise IndexError)
  /\ (~ (- n <= i < n)%Z -> ~ (- 2 ^ 63 <= i < 2 ^ 63)%Z ->
      tensor_getitem t i = Raise ValueError).
Proof.
  intros n. destruct (py_getitem_spec t i) as [H1 H2]. fold n in H1, H2.
  unfold tensor_getitem. split; [|split].
  - intros Hi. destruct (H1 Hi) as (x & -> & Hx). exists x. auto.
  - intros Hi Hf. rewrite (H2 Hi).
    apply fits_int64_spec in Hf. now rewrite Hf.
  - intros Hi Hf. rewrite (H2 Hi).
    destruct (fits_int64 i) eqn:E; [|reflexivity].
    apply fits_int64_spec in E. contradiction.
Qed.

(** For a tensor, which has fewer than 2^63 rows, the result is that of
    unpacking the index first and of looking it up next. *)
Lemma tensor_getitem_unpacks_first {A : Type} (t : list A) (i : Z) :
  (Z.of_nat (length t) <= 2 ^ 63)%Z ->
  tensor_getitem t i
  = if fits_int64 i then py_getitem t i else Raise ValueError.
Proof.
  intros Hlen. destruct (py_getitem_spec t i) as [H1 H2].
  unfold tensor_getitem.
  destruct (fits_int64 i) eqn:E; [destruct (py_getitem t i); reflexivity|].
  rewrite H2; [reflexivity|]. intros Hi.
  assert (fits_int64 i = true) by (apply fits_int64_spec; lia).
  congruence.
Qed.

(** ** The batch sampler *)

Lemma batch_sampler_concat (bsize : nat) (sampler batch : list nat) :
  concat (batch_sampler bsize batch sampler) = batch ++ sampler.
Proof.
  revert batch; induction sampler as [|idx rest IH]; intros batch; simpl.
  - destruct batch; simpl; [reflexivity|].
    now rewrite !app_nil_r.
  - destruct (length (batch ++ [idx]) =? bsize); simpl; rewrite IH;
      now rewrite <- app_assoc.
Qed.

Lemma batch_sampler_nonempty (bsize : nat) (sampler batch : list nat) :
  Forall (fun b => b <> []) (batch_sampler bsize batch sampler).
Proof.
  revert batch; induction sampler as [|idx rest IH]; intros batch; simpl.
  - destruct batch; constructor; [discriminate|constructor].
  - destruct (length (batch ++ [idx]) =? bsize); [constructor|]; auto.
    destruct batch; discriminate.
Qed.

(** A sampler that does not fill the batch under construction. *)
Lemma batch_sampler_short (bsize : nat) (sampler batch : list nat) :
  length (batch ++ sampler) < bsize -> batch ++ sampler <> [] ->
  batch_sampler bsize batch sampler = [batch ++ sampler].
Proof.
  revert batch; induction sampler as [|idx rest IH]; intros batch Hlen Hne;
    simpl.
  - rewrite app_nil_r in *. destruct batch; [contradiction|reflexivity].
  - rewrite length_app in Hlen; simpl in Hlen.
    destruct (Nat.eqb_spec (length (batch ++ [idx])) bsize) as [E|_].
    + rewrite length_app in E; simpl in E; lia.
    + rewrite IH.
      * now rewrite <- app_assoc.
      * rewrite <- app_assoc, length_app; simpl; lia.
      * destruct batch; discriminate.
Qed.

(** A sampler that fills the batch under construction with [xs]. *)
Lemma batch_sampler_fill (bsize : nat) (xs sampler batch : list nat) :
  xs <> [] -> length (batch ++ xs) = bsize ->
  batch_sampler bsize batch (xs ++ sampler)
  = (batch ++ xs) :: batch_sampler bsize [] sampler.
Proof.
  revert batch; induction xs as [|x xs IH]; intros batch Hne Hlen;
    [contradiction|]; simpl.
  destruct xs as [|y ys].
  - rewrite Hlen, Nat.eqb_refl. reflexivity.
  - destruct (Nat.eqb_spec (length (batch ++ [x])) bsize) as [E|_].
    + rewrite !length_app in *; simpl in *; lia.
    + rewrite IH; [|discriminate|].
      * now rewrite <- app_assoc.
      * now rewrite <- app_assoc.
Qed.

Lemma div_up_small (n b : nat) : 0 < n <= b -> (n + b - 1) / b = 1.
Proof.
  intros H. symmetry. apply Nat.div_unique with (r := n - 1); lia.
Qed.

Lemma div_up_step (n b : nat) :
  0 < b -> b <= n -> (n + b - 1) / b = S ((n - b + b - 1) / b).
Proof.
  intros Hb H.
  replace (n + b - 1) with ((n - b + b - 1) + 1 * b) by lia.
  rewrite Nat.div_add by lia. lia.
Qed.

Lemma mod_step (n b : nat) : 0 < b -> b <= n -> (n - b) mod b = n mod b.
Proof.
  intros Hb H.
  replace n with ((n - b) + 1 * b) at 2 by lia.
  now rewrite Nat.Div0.mod_add.
Qed.

Lemma batch_sampler_sizes (bsize : nat) (sampler : list nat) :
  0 < bsize ->
  let batches := batch_sampler bsize [] sampler in
  length batches = (length sampler + bsize - 1) / bsize
  /\ forall i b, nth_error batches i = Some b ->
       length b = batch_size_at bsize (length sampler) (length batches) i.
Proof.
  intros Hb.
  remember (length sampler) as n eqn:Hn.
  revert sampler Hn.
  induction n as [n IH] using lt_wf_ind; intros sampler Hn batches.
  destruct (Nat.ltb_spec n bsize) as [Hlt|Hge].
  - (* everything fits one batch that stays short *)
    destruct sampler as [|x xs].
    + simpl in Hn; subst n; subst batches; simpl.
      split; [symmetry; apply Nat.div_small; lia|].
      intros [|i] b; discriminate.
    + subst batches.
      rewrite (batch_sampler_short bsize (x :: xs) []) by
        (simpl in *; first [lia|discriminate]).
      simpl app. split.
      * simpl length at 1. rewrite div_up_small; [reflexivity|simpl in Hn; lia].
      * intros [|[|i]] b; simpl; try discriminate.
        intros E; inversion E; subst b. unfold batch_size_at; simpl length.
        change (length (x :: xs)) with (S (length xs)) in Hn.
        rewrite <- Hn. simpl (1 <? 1).
        rewrite Nat.mod_small by lia.
        destruct (Nat.eqb_spec n 0); [lia|reflexivity].
  - (* a full batch, then the rest *)
    assert (Hs : sampler = firstn bsize sampler ++ skipn bsize sampler)
      by (symmetry; apply firstn_skipn).
    assert (Hf : length (firstn bsize sampler) = bsize)
      by (rewrite length_firstn; lia).
    assert (Hk : length (skipn bsize sampler) = n - bsize)
      by (rewrite length_skipn; lia).
    assert (E : batches = firstn bsize sampler
                          :: batch_sampler bsize [] (skipn bsize sampler)).
    { subst batches. rewrite Hs at 1.
      apply (batch_sampler_fill bsize _ _ []); [|exact Hf].
      intros C; rewrite C in Hf; simpl in Hf; lia. }
    destruct (IH (n - bsize) ltac:(lia) (skipn bsize sampler)
                 (eq_sym Hk)) as [IHlen IHnth].
    rewrite E. simpl length. split.
    + rewrite IHlen, (div_up_step n bsize) by lia. reflexivity.
    + intros [|i] b; simpl; intros Hb'.
      * inversion Hb'; subst b. rewrite Hf. unfold batch_size_at.
        destruct (Nat.ltb_spec 1
                    (S (length (batch_sampler bsize []
                                  (skipn bsize sampler))))) as [_|Hone];
          [reflexivity|].
        assert (Hz : length (batch_sampler bsize [] (skipn bsize sampler)) = 0)
          by lia.
        rewrite IHlen in Hz.
        destruct (Nat.eq_dec n bsize) as [->|Hne].
        -- rewrite Nat.Div0.mod_same, Nat.eqb_refl. reflexivity.
        -- apply Nat.div_small_iff in Hz; lia.
      * rewrite (IHnth i b Hb'). unfold batch_size_at.
        rewrite (mod_step n bsize) by lia.
        change (S (S i) <? S (length (batch_sampler bsize []
                                        (skipn bsize sampler))))
          with (S i <? length (batch_sampler bsize [] (skipn bsize sampler))).
        reflexivity.
Qed.

(** ** Retrieval and batches of the dataset *)

Lemma getitem_in_range (ds : SentimentDataset) (i : nat) :
  i < SentimentDataset_len ds -> i < length (labels ds) ->
  SentimentDataset_getitem ds (Z.of_nat i)
  = Ok (embedding_at ds i, label_at ds i).
Proof.
  unfold SentimentDataset_len, SentimentDataset_getitem; intros He Hl.
  unfold tensor_getitem.
  rewrite (py_getitem_nat (embeddings ds) i (embedding_at ds i))
    by (apply nth_error_nth'; exact He).
  simpl.
  rewrite (py_getitem_nat (labels ds) i (label_at ds i))
    by (apply nth_error_nth'; exact Hl).
  reflexivity.
Qed.

Lemma stack_uniform (d : nat) (rows : list Embedding) :
  rows <> [] -> Forall (fun r => length r = d) rows -> stack rows = Ok rows.
Proof.
  intros Hne Hall. destruct rows as [|r0 rows]; [contradiction|].
  unfold stack.
  replace (forallb _ _) with true; [reflexivity|].
  symmetry; apply forallb_forall; intros r Hr.
  rewrite Forall_forall in Hall.
  rewrite (Hall r Hr), (Hall r0 (or_introl eq_refl)). apply Nat.eqb_refl.
Qed.

Lemma fetch_in_range (ds : SentimentDataset) (d : nat) (indices : list nat) :
  length (labels ds) = SentimentDataset_len ds ->
  Forall (fun e => length e = d) (embeddings ds) ->
  indices <> [] ->
  (forall i, In i indices -> i < SentimentDataset_len ds) ->
  fetch ds indices = Ok (batch_at ds indices).
Proof.
  intros Hl Hd Hne Hin. unfold fetch.
  rewrite (mapM_ok_all _ (fun i => (embedding_at ds i, label_at ds i)))
    by (intros i Hi; apply getitem_in_range; [|rewrite Hl]; apply Hin, Hi).
  simpl. rewrite !map_map; simpl.
  rewrite (stack_uniform d).
  - reflexivity.
  - destruct indices; [contradiction|discriminate].
  - apply Forall_forall; intros e He.
    apply in_map_iff in He as [i [<- Hi]].
    rewrite Forall_forall in Hd. apply Hd, nth_In, Hin, Hi.
Qed.

Lemma map_nth_all {A : Type} (l : list A) (d : A) :
  map (fun i => nth i l d) (seq 0 (length l)) = l.
Proof.
  apply nth_ext with (d := d) (d' := d).
  - now rewrite length_map, length_seq.
  - intros i Hi. rewrite length_map, length_seq in Hi.
    rewrite (nth_indep _ d (nth 0 l d))
      by (now rewrite length_map, length_seq).
    rewrite (map_nth (fun i => nth i l d) (seq 0 (length l)) 0 i).
    now rewrite seq_nth.
Qed.

Lemma div_up_Z (n b : nat) :
  0 < b ->
  Z.of_nat ((n + b - 1) / b) = ((Z.of_nat n + Z.of_nat b - 1) / Z.of_nat b)%Z.
Proof.
  intros Hb. rewrite Nat2Z.inj_div. f_equal. lia.
Qed.

(** The batches an unshuffled loader yields, fetched one after the other. *)
Lemma unshuffled_batches_fetched (ds : SentimentDataset) (d bsize : nat) :
  length (labels ds) = SentimentDataset_len ds ->
  Forall (fun e => length e = d) (embeddings ds) ->
  let batches := batch_sampler bsize [] (seq 0 (SentimentDataset_len ds)) in
  mapM (fetch ds) batches = Ok (map (batch_at ds) batches).
Proof.
  intros Hl Hd batches. apply mapM_ok_all. intros b Hb.
  apply (fetch_in_range ds d); auto.
  - pose proof (batch_sampler_nonempty bsize
                  (seq 0 (SentimentDataset_len ds)) []) as Hne.
    rewrite Forall_forall in Hne. apply Hne, Hb.
  - intros i Hi.
    assert (In i (concat batches))
      by (apply in_concat; exists b; split; assumption).
    unfold batches in H. rewrite batch_sampler_concat in H. simpl in H.
    apply in_seq in H. lia.
Qed.

Section EpochLemmas.

Context {B : Backend}.

Lemma set_rng_same (env : Env) : set_rng (rng env) env = env.
Proof. destruct env; reflexivity. Qed.

Lemma forward_in_eval_mode (self : SentimentClassifier) (g : generator)
    (embedding : list Embedding) :
  training self = false ->
  forward self g embedding = (forward_eval self embedding, g).
Proof.
  intros H. unfold forward, forward_eval. rewrite H.
  destruct (mapM (linear (fc1 self)) embedding); reflexivity.
Qed.

Lemma call_model_in_eval_mode (embedding : list Embedding) (env : Env) :
  training (model env) = false ->
  call_model embedding env = (forward_eval (model env) embedding, env).
Proof.
  intros H. unfold call_model.
  rewrite forward_in_eval_mode by exact H. now rewrite set_rng_same.
Qed.

Lemma evaluate_batch_in_eval_mode (criterion : Criterion)
    (indices : list nat) (acc : float * float) (env : Env) :
  training (model env) = false ->
  evaluate_batch criterion indices acc env
  = (m <- batch_metrics_eval criterion (model env)
            (dataset (dataloader env)) indices ;;
     Ok (f64_add (fst acc) (fst m), f64_add (snd acc) (snd m)), env).
Proof.
  intros H. unfold evaluate_batch, batch_metrics_eval.
  destruct acc as [el ea].
  destruct (fetch (dataset (dataloader env)) indices) as [[eb lb]|e];
    [|reflexivity].
  rewrite call_model_in_eval_mode by exact H. simpl.
  destruct (forward_eval (model env) eb) as [p|e]; [|reflexivity]. simpl.
  destruct (criterion p lb) as [loss|e]; [|reflexivity]. simpl.
  destruct (calculate_accuracy p lb) as [a|e]; reflexivity.
Qed.

Lemma evaluate_loop_in_eval_mode (criterion : Criterion)
    (batches : list (list nat)) (acc : float * float) (env : Env) :
  training (model env) = false ->
  evaluate_loop criterion batches acc env
  = (ms <- mapM (batch_metrics_eval criterion (model env)
                   (dataset (dataloader env))) batches ;;
     Ok (sums acc ms), env).
Proof.
  intros H. revert acc; induction batches as [|indices rest IH]; intros acc.
  - destruct acc; reflexivity.
  - simpl. rewrite evaluate_batch_in_eval_mode by exact H.
    destruct (batch_metrics_eval criterion (model env)
                (dataset (dataloader env)) indices) as [m|e];
      [|reflexivity].
    simpl. rewrite IH.
    destruct (mapM _ rest) as [ms|e]; reflexivity.
Qed.

Lemma train_batch_step (criterion : Criterion) (indices : list nat)
    (acc : float * float) (env : Env) :
  train_batch criterion indices acc env
  = (let (r, env') := train_step criterion indices env in
     (m <- r ;; Ok (f64_add (fst acc) (fst m), f64_add (snd acc) (snd m)),
      env')).
Proof.
  unfold train_batch, train_step. destruct acc as [el ea].
  destruct (fetch (dataset (dataloader env)) indices) as [[eb lb]|e];
    [|reflexivity].
  destruct (call_model eb (zero_grad env)) as [[p|e] env1]; [|reflexivity].
  destruct (criterion p lb) as [loss|e]; [|reflexivity].
  destruct (calculate_accuracy p lb) as [a|e]; reflexivity.
Qed.

Lemma train_loop_trace (criterion : Criterion) (batches : list (list nat))
    (acc : float * float) (env : Env) :
  train_loop criterion batches acc env
  = (let (r, env') := train_trace criterion batches env in
     (ms <- r ;; Ok (sums acc ms), env')).
Proof.
  revert acc env; induction batches as [|indices rest IH]; intros acc env.
  - destruct acc; reflexivity.
  - simpl. rewrite train_batch_step.
    destruct (train_step criterion indices env) as [[m|e] env1];
      [|reflexivity].
    simpl. rewrite IH.
    destruct (train_trace criterion rest env1) as [[ms|e] env2]; reflexivity.
Qed.

Lemma train_trace_length (criterion : Criterion) (batches : list (list nat))
    (env env' : Env) (ms : list (float * float)) :
  train_trace criterion batches env = (Ok ms, env') ->
  length ms = length batches.
Proof.
  revert env ms; induction batches as [|indices rest IH]; intros env ms;
    simpl.
  - intros H; inversion H; reflexivity.
  - destruct (train_step criterion indices env) as [[m|e] env1];
      [|discriminate].
    destruct (train_trace criterion rest env1) as [[ms'|e] env2] eqn:E;
      simpl; [|discriminate].
    intros H; inversion H; subst; simpl. f_equal. eapply IH, E.
Qed.

Lemma randperm_length (n : nat) (g : generator) :
  length (fst (randperm n g)) = n.
Proof.
  induction n as [|n IH]; simpl; [reflexivity|].
  destruct (randperm n g) as [p g1]; simpl in IH.
  destruct (random_ g1) as [r g2]; simpl.
  rewrite length_app; simpl. rewrite length_firstn, length_skipn. lia.
Qed.

(** What [iter(dataloader)] yields and what it changes. *)
Lemma iter_dataloader_spec (env : Env) :
  exists (sampler : list nat) (g : generator),
    iter_dataloader env
    = (batch_sampler (batch_size (dataloader env)) [] sampler, set_rng g env)
    /\ length sampler = SentimentDataset_len (dataset (dataloader env))
    /\ (shuffle (dataloader env) = false ->
        sampler = seq 0 (SentimentDataset_len (dataset (dataloader env)))).
Proof.
  unfold iter_dataloader.
  destruct (random_ (rng env)) as [r0 g1].
  destruct (shuffle (dataloader env)).
  - destruct (random_ g1) as [seed g2].
    eexists; exists g2; split; [reflexivity|]. split; [|discriminate].
    apply randperm_length.
  - eexists; exists g1; split; [reflexivity|]. split; [|reflexivity].
    apply length_seq.
Qed.

Lemma DataLoader_len_batches (dl : DataLoader) (sampler : list nat) :
  0 < batch_size dl ->
  length sampler = SentimentDataset_len (dataset dl) ->
  Z.of_nat (length (batch_sampler (batch_size dl) [] sampler))
  = DataLoader_len dl.
Proof.
  intros Hb Hn. unfold DataLoader_len.
  pose proof (batch_sampler_sizes (batch_size dl) sampler Hb) as [Hlen _].
  rewrite Hlen, Hn. apply div_up_Z, Hb.
Qed.

Lemma DataLoader_init_batch_size (ds : SentimentDataset) (bsize : Z)
    (sh : bool) (dl : DataLoader) :
  DataLoader_init ds bsize sh = Ok dl ->
  0 < batch_size dl /\ dataset dl = ds /\ shuffle dl = sh.
Proof.
  unfold DataLoader_init.
  destruct (sh && (SentimentDataset_len ds =? 0)); [discriminate|].
  destruct (Z.leb_spec bsize 0); [discriminate|].
  intros E; injection E as <-. simpl. repeat split. lia.
Qed.

Lemma DataLoader_len_positive (dl : DataLoader) :
  0 < batch_size dl -> 0 < SentimentDataset_len (dataset dl) ->
  (0 < DataLoader_len dl)%Z.
Proof.
  intros Hb Hn. unfold DataLoader_len.
  apply Z.div_str_pos. lia.
Qed.

Lemma DataLoader_len_empty (dl : DataLoader) :
  SentimentDataset_len (dataset dl) = 0 -> DataLoader_len dl = 0%Z.
Proof.
  intros Hn. unfold DataLoader_len. rewrite Hn.
  destruct (batch_size dl) as [|b]; [reflexivity|].
  apply Z.div_small. lia.
Qed.

Lemma epoch_means_nonzero (acc : float * float) (dl : DataLoader) :
  DataLoader_len dl <> 0%Z ->
  epoch_means acc dl
  = Ok (f64_div (fst acc) (f64_of_Z (DataLoader_len dl)),
        f64_div (snd acc) (f64_of_Z (DataLoader_len dl))).
Proof.
  intros H. unfold epoch_means, float_truediv. destruct acc as [el ea].
  destruct (Z.eqb_spec (DataLoader_len dl) 0); [contradiction|reflexivity].
Qed.

Lemma epoch_means_zero (acc : float * float) (dl : DataLoader) :
  DataLoader_len dl = 0%Z -> epoch_means acc dl = Raise ZeroDivisionError.
Proof.
  intros H. unfold epoch_means, float_truediv. destruct acc as [el ea].
  rewrite H. reflexivity.
Qed.

Lemma epoch_means_of_sums (ms : list (float * float)) (dl : DataLoader) :
  ms <> [] -> Z.of_nat (length ms) = DataLoader_len dl ->
  epoch_means (sums (f_zero, f_zero) ms) dl = Ok (means ms).
Proof.
  intros Hne Hlen. rewrite epoch_means_nonzero.
  - unfold means, mean, sums; simpl. rewrite !length_map, Hlen. reflexivity.
  - rewrite <- Hlen. destruct ms; [contradiction|simpl; lia].
Qed.

End EpochLemmas.

Section Epochs.

Context {B : Backend}.

(** *** What an epoch leaves alone *)

Lemma train_step_dataloader (criterion : Criterion) (indices : list nat)
    (env : Env) :
  dataloader (snd (train_step criterion indices env)) = dataloader env.
Proof.
  unfold train_step.
  destruct (fetch (dataset (dataloader env)) indices) as [[eb lb]|e];
    [|reflexivity].
  unfold call_model.
  destruct (forward (model (zero_grad env)) (rng (zero_grad env)) eb)
    as [[p|e] g]; [|reflexivity].
  destruct (criterion p lb) as [loss|e]; [|reflexivity].
  destruct (calculate_accuracy p lb) as [a|e]; [|reflexivity].
  unfold step, loss_backward; simpl.
  destruct (optimizer_step _ _ _) as [o [l1 l2]]. reflexivity.
Qed.

Lemma train_trace_dataloader (criterion : Criterion)
    (batches : list (list nat)) (env : Env) :
  dataloader (snd (train_trace criterion batches env)) = dataloader env.
Proof.
  revert env; induction batches as [|indices rest IH]; intros env;
    [reflexivity|]. simpl.
  pose proof (train_step_dataloader criterion indices env) as H1.
  destruct (train_step criterion indices env) as [[m|e] env1];
    simpl in H1; [|exact H1].
  pose proof (IH env1) as H2.
  destruct (train_trace criterion rest env1) as [rs env2]; simpl in *.
  congruence.
Qed.

(** *** The two epochs as their per-batch metrics *)

Lemma train_unfold (criterion : Criterion) (env : Env) :
  train criterion env
  = (let (batches, env1) := iter_dataloader (set_training true env) in
     let (r, env2) := train_trace criterion batches env1 in
     (ms <- r ;; epoch_means (sums (f_zero, f_zero) ms) (dataloader env),
      env2)).
Proof.
  unfold train.
  destruct (iter_dataloader_spec (set_training true env))
    as (sampler & g & E & _ & _).
  rewrite E, train_loop_trace.
  pose proof (train_trace_dataloader criterion
                (batch_sampler (batch_size (dataloader (set_training true env)))
                   [] sampler) (set_rng g (set_training true env))) as Hd.
  destruct (train_trace _ _ _) as [[ms|e] env2]; simpl in *;
    [rewrite Hd|]; reflexivity.
Qed.

Lemma evaluate_unfold (criterion : Criterion) (env : Env) :
  evaluate criterion env
  = (let (batches, env1) := iter_dataloader (set_training false env) in
     (ms <- mapM (batch_metrics_eval criterion (model env1)
                    (dataset (dataloader env))) batches ;;
      epoch_means (sums (f_zero, f_zero) ms) (dataloader env), env1)).
Proof.
  unfold evaluate.
  destruct (iter_dataloader_spec (set_training false env))
    as (sampler & g & E & _ & _).
  rewrite E, evaluate_loop_in_eval_mode by reflexivity. simpl.
  destruct (mapM _ _) as [ms|e]; reflexivity.
Qed.

Lemma batches_nonempty (dl : DataLoader) (sampler : list nat) :
  0 < batch_size dl -> 0 < SentimentDataset_len (dataset dl) ->
  length sampler = SentimentDataset_len (dataset dl) ->
  batch_sampler (batch_size dl) [] sampler <> [].
Proof.
  intros Hb Hn Hs C.
  pose proof (DataLoader_len_batches dl sampler Hb Hs) as H.
  pose proof (DataLoader_len_positive dl Hb Hn).
  rewrite C in H; simpl in H; lia.
Qed.

End Epochs.

Section EpochMeans.

Context {B : Backend}.

Lemma mapM_ext {X Y : Type} (f g : X -> result Y) (l : list X) :
  (forall x, f x = g x) -> mapM f l = mapM g l.
Proof.
  intros H; induction l as [|x l IH]; simpl; [reflexivity|].
  now rewrite H, IH.
Qed.

Lemma train_by_trace (criterion : Criterion) (env : Env) :
  train criterion env
  = (ms <- fst (train_trace criterion (epoch_batches true env)
                  (epoch_start true env)) ;;
     epoch_means (sums (f_zero, f_zero) ms) (dataloader env),
     snd (train_trace criterion (epoch_batches true env)
            (epoch_start true env))).
Proof.
  rewrite train_unfold. unfold epoch_batches, epoch_start.
  destruct (iter_dataloader (set_training true env)) as [batches env1].
  simpl. destruct (train_trace criterion batches env1); reflexivity.
Qed.

Lemma evaluate_by_metrics (criterion : Criterion) (env : Env) :
  evaluate criterion env
  = (ms <- mapM (batch_metrics_eval criterion (model (epoch_start false env))
                   (dataset (dataloader env))) (epoch_batches false env) ;;
     epoch_means (sums (f_zero, f_zero) ms) (dataloader env),
     epoch_start false env).
Proof.
  rewrite evaluate_unfold. unfold epoch_batches, epoch_start.
  destruct (iter_dataloader (set_training false env)); reflexivity.
Qed.

Lemma epoch_batches_spec (mode : bool) (env : Env) :
  exists (sampler : list nat) (g : generator),
    epoch_batches mode env
    = batch_sampler (batch_size (dataloader env)) [] sampler
    /\ epoch_start mode env = set_rng g (set_training mode env)
    /\ length sampler = SentimentDataset_len (dataset (dataloader env))
    /\ (shuffle (dataloader env) = false ->
        sampler = seq 0 (SentimentDataset_len (dataset (dataloader env)))).
Proof.
  destruct (iter_dataloader_spec (set_training mode env))
    as (sampler & g & E & Hlen & Hseq).
  exists sampler, g. unfold epoch_batches, epoch_start. rewrite E.
  repeat split; assumption.
Qed.

Lemma epoch_batches_count (mode : bool) (env : Env) :
  0 < batch_size (dataloader env) ->
  Z.of_nat (length (epoch_batches mode env)) = DataLoader_len (dataloader env).
Proof.
  intros Hb. destruct (epoch_batches_spec mode env)
    as (sampler & g & E & _ & Hlen & _).
  rewrite E. apply DataLoader_len_batches; assumption.
Qed.

Lemma mapM_ok_means (X : Type) (f : X -> result (float * float))
    (batches : list X) (dl : DataLoader) :
  batches <> [] -> Z.of_nat (length batches) = DataLoader_len dl ->
  (ms <- mapM f batches ;; epoch_means (sums (f_zero, f_zero) ms) dl)
  = (ms <- mapM f batches ;; Ok (means ms)).
Proof.
  intros Hne Hlen. destruct (mapM f batches) as [ms|e] eqn:E;
    [|reflexivity]. simpl.
  apply mapM_length in E. apply epoch_means_of_sums.
  - destruct ms; [|discriminate]. destruct batches; [contradiction|].
    discriminate.
  - now rewrite E.
Qed.

(** C7. Over a loader that yields at least one batch, [train] and
    [evaluate] return, for the loss and for the accuracy, the sum of the
    per-batch values divided by the number of batches: each batch counts
    once, whatever its size. *)
Theorem epoch_metrics_are_batch_means (criterion : Criterion) (env : Env) :
  0 < batch_size (dataloader env) ->
  0 < SentimentDataset_len (dataset (dataloader env)) ->
  epoch_batches true env <> [] /\ epoch_batches false env <> []
  /\ train criterion env
     = (ms <- fst (train_trace criterion (epoch_batches true env)
                     (epoch_start true env)) ;;
        Ok (mean (map fst ms), mean (map snd ms)),
        snd (train_trace criterion (epoch_batches true env)
               (epoch_start true env)))
  /\ evaluate criterion env
     = (ms <- mapM (batch_metrics_eval criterion
                      (model (epoch_start false env))
                      (dataset (dataloader env))) (epoch_batches false env) ;;
        Ok (mean (map fst ms), mean (map snd ms)),
        epoch_start false env).
Proof.
  intros Hb Hn.
  assert (Hne : forall mode, epoch_batches mode env <> []).
  { intros mode C. pose proof (epoch_batches_count mode env Hb) as H.
    pose proof (DataLoader_len_positive _ Hb Hn).
    rewrite C in H; simpl in H; lia. }
  split; [apply Hne|]. split; [apply Hne|]. split.
  - rewrite train_by_trace. f_equal.
    destruct (train_trace criterion (epoch_batches true env)
                (epoch_start true env)) as [[ms|e] env2] eqn:E;
      [|reflexivity]. simpl.
    apply train_trace_length in E. apply epoch_means_of_sums.
    + specialize (Hne true). destruct ms; [|discriminate].
      destruct (epoch_batches true env); [contradiction|discriminate].
    + rewrite E. apply epoch_batches_count, Hb.
  - rewrite evaluate_by_metrics. f_equal.
    apply mapM_ok_means; [apply Hne|apply epoch_batches_count, Hb].
Qed.

End EpochMeans.

(** The two epochs over the three samples of [demo_env], in batches of
    two. *)
Lemma epoch_metrics_are_batch_means_witness :
  epoch_batches true demo_env <> [] /\ epoch_batches false demo_env <> []
  /\ train nll_loss demo_env
     = (ms <- fst (train_trace nll_loss (epoch_batches true demo_env)
                     (epoch_start true demo_env)) ;;
        Ok (mean (map fst ms), mean (map snd ms)),
        snd (train_trace nll_loss (epoch_batches true demo_env)
               (epoch_start true demo_env)))
  /\ evaluate nll_loss demo_env
     = (ms <- mapM (@batch_metrics_eval sequential_backend nll_loss
                      (model (epoch_start false demo_env))
                      (dataset (dataloader demo_env)))
                   (epoch_batches false demo_env) ;;
        Ok (mean (map fst ms), mean (map snd ms)),
        epoch_start false demo_env).
Proof.
  apply (epoch_metrics_are_batch_means nll_loss demo_env); vm_compute; lia.
Defined.

Section EpochFrames.

Context {B : Backend}.

Lemma train_loop_dataloader (criterion : Criterion)
    (batches : list (list nat)) (acc : float * float) (env : Env) :
  dataloader (snd (train_loop criterion batches acc env)) = dataloader env.
Proof.
  rewrite train_loop_trace.
  pose proof (train_trace_dataloader criterion batches env) as H.
  destruct (train_trace criterion batches env); exact H.
Qed.

Lemma evaluate_batch_env (criterion : Criterion) (indices : list nat)
    (acc : float * float) (env : Env) :
  exists g, snd (evaluate_batch criterion indices acc env) = set_rng g env.
Proof.
  unfold evaluate_batch. destruct acc as [el ea].
  destruct (fetch (dataset (dataloader env)) indices) as [[eb lb]|e].
  - unfold call_model.
    destruct (forward (model env) (rng env) eb) as [[p|e] g]; exists g;
      [|reflexivity].
    destruct (criterion p lb); [|reflexivity].
    destruct (calculate_accuracy p lb); reflexivity.
  - exists (rng env). symmetry; apply set_rng_same.
Qed.

Lemma evaluate_loop_env (criterion : Criterion) (batches : list (list nat))
    (acc : float * float) (env : Env) :
  exists g, snd (evaluate_loop criterion batches acc env) = set_rng g env.
Proof.
  revert acc env; induction batches as [|indices rest IH]; intros acc env.
  - exists (rng env). symmetry; apply set_rng_same.
  - simpl. destruct (evaluate_batch_env criterion indices acc env) as [g Hg].
    destruct (evaluate_batch criterion indices acc env) as [[acc'|e] env1];
      simpl in Hg; [|exists g; exact Hg].
    destruct (IH acc' env1) as [g' Hg']. exists g'.
    rewrite Hg', Hg. reflexivity.
Qed.

Lemma epoch_batches_empty (mode : bool) (env : Env) :
  SentimentDataset_len (dataset (dataloader env)) = 0 ->
  epoch_batches mode env = [].
Proof.
  intros Hn. destruct (epoch_batches_spec mode env)
    as (sampler & g & E & _ & Hlen & _).
  rewrite Hn in Hlen. destruct sampler; [|discriminate].
  rewrite E. reflexivity.
Qed.

(** C10. With an empty dataset the loader yields no batch, its length is
    zero, and the final division of [train] and of [evaluate] raises
    [ZeroDivisionError]; either returns metrics only for a dataset with at
    least one sample, and for such a dataset the divisor is not zero: the
    division returns whenever the loop over the batches has. *)
Theorem epoch_division_needs_a_sample (criterion : Criterion) (env : Env) :
  (SentimentDataset_len (dataset (dataloader env)) = 0 ->
     epoch_batches true env = [] /\ epoch_batches false env = []
     /\ DataLoader_len (dataloader env) = 0%Z
     /\ fst (train criterion env) = Raise ZeroDivisionError
     /\ fst (evaluate criterion env) = Raise ZeroDivisionError)
  /\ (forall m,
        fst (train criterion env) = Ok m \/ fst (evaluate criterion env) = Ok m
        -> 0 < SentimentDataset_len (dataset (dataloader env)))
  /\ (0 < SentimentDataset_len (dataset (dataloader env)) ->
      0 < batch_size (dataloader env) ->
      DataLoader_len (dataloader env) <> 0%Z
      /\ train criterion env
         = (acc <- fst (train_loop criterion (epoch_batches true env)
                          (f_zero, f_zero) (epoch_start true env)) ;;
            Ok (f64_div (fst acc) (f64_of_Z (DataLoader_len (dataloader env))),
                f64_div (snd acc) (f64_of_Z (DataLoader_len (dataloader env)))),
            snd (train_loop criterion (epoch_batches true env)
                   (f_zero, f_zero) (epoch_start true env)))
      /\ evaluate criterion env
         = (acc <- fst (evaluate_loop criterion (epoch_batches false env)
                          (f_zero, f_zero) (epoch_start false env)) ;;
            Ok (f64_div (fst acc) (f64_of_Z (DataLoader_len (dataloader env))),
                f64_div (snd acc) (f64_of_Z (DataLoader_len (dataloader env)))),
            snd (evaluate_loop criterion (epoch_batches false env)
                   (f_zero, f_zero) (epoch_start false env)))).
Proof.
  assert (Hzero :
    SentimentDataset_len (dataset (dataloader env)) = 0 ->
    fst (train criterion env) = Raise ZeroDivisionError
    /\ fst (evaluate criterion env) = Raise ZeroDivisionError).
  { intros Hn. split.
    - rewrite train_by_trace, (epoch_batches_empty true env Hn).
      cbn -[epoch_means].
      apply epoch_means_zero, DataLoader_len_empty, Hn.
    - rewrite evaluate_by_metrics, (epoch_batches_empty false env Hn).
      cbn -[epoch_means].
      apply epoch_means_zero, DataLoader_len_empty, Hn. }
  split; [|split].
  - intros Hn. destruct (Hzero Hn) as [Ht He].
    repeat split; auto using epoch_batches_empty, DataLoader_len_empty.
  - intros m Hm.
    destruct (SentimentDataset_len (dataset (dataloader env))) eqn:Hn;
      [|lia].
    destruct (Hzero eq_refl) as [Ht He].
    destruct Hm as [Hm|Hm]; congruence.
  - intros Hn Hb.
    assert (Hlen : DataLoader_len (dataloader env) <> 0%Z)
      by (pose proof (DataLoader_len_positive _ Hb Hn); lia).
    split; [exact Hlen|]. split.
    + unfold train, epoch_batches, epoch_start.
      destruct (iter_dataloader_spec (set_training true env))
        as (sampler & g & E & _ & _).
      rewrite E. simpl fst; simpl snd.
      pose proof (train_loop_dataloader criterion
                    (batch_sampler
                       (batch_size (dataloader (set_training true env)))
                       [] sampler) (f_zero, f_zero)
                    (set_rng g (set_training true env))) as Hd.
      destruct (train_loop _ _ _ _) as [[acc|e] env2]; [|reflexivity].
      simpl in *. rewrite Hd. now rewrite epoch_means_nonzero.
    + unfold evaluate, epoch_batches, epoch_start.
      destruct (iter_dataloader_spec (set_training false env))
        as (sampler & g & E & _ & _).
      rewrite E. simpl fst; simpl snd.
      destruct (evaluate_loop_env criterion
                  (batch_sampler
                     (batch_size (dataloader (set_training false env)))
                     [] sampler) (f_zero, f_zero)
                  (set_rng g (set_training false env))) as [g' Hd].
      destruct (evaluate_loop _ _ _ _) as [[acc|e] env2]; [|reflexivity].
      simpl in *. rewrite Hd. simpl. now rewrite epoch_means_nonzero.
Qed.

Lemma batch_metrics_eval_params (criterion : Criterion)
    (m1 m2 : SentimentClassifier) (ds : SentimentDataset)
    (indices : list nat) :
  fc1 m1 = fc1 m2 -> fc2 m1 = fc2 m2 ->
  batch_metrics_eval criterion m1 ds indices
  = batch_metrics_eval criterion m2 ds indices.
Proof.
  intros H1 H2. unfold batch_metrics_eval, forward_eval.
  now rewrite H1, H2.
Qed.

Lemma iter_dataloader_inputs (env1 env2 : Env) :
  dataloader env1 = dataloader env2 ->
  shuffle (dataloader env1) = false \/ rng env1 = rng env2 ->
  fst (iter_dataloader env1) = fst (iter_dataloader env2).
Proof.
  intros Hd Hs. unfold iter_dataloader. rewrite <- Hd.
  destruct Hs as [Hs|Hg].
  - rewrite Hs.
    destruct (random_ (rng env1)); destruct (random_ (rng env2)).
    reflexivity.
  - rewrite <- Hg. destruct (random_ (rng env1)) as [r0 g1].
    destruct (shuffle (dataloader env1)); [|reflexivity].
    destruct (random_ g1); reflexivity.
Qed.

(** C3 (as the code has it). Two calls of [evaluate] on models with the same
    parameters and on the same loader return the same loss and accuracy,
    whatever the mode
    flag, the dropout probability, the optimizer state and the gradients of
    each call are, and whatever its random generator is when the loader does
    not shuffle (a shuffling loader takes its order from the generator, which
    then has to be in the same state). *)
Theorem evaluate_is_deterministic (criterion : Criterion) (env1 env2 : Env) :
  fc1 (model env1) = fc1 (model env2) ->
  fc2 (model env1) = fc2 (model env2) ->
  dataloader env1 = dataloader env2 ->
  shuffle (dataloader env1) = false \/ rng env1 = rng env2 ->
  fst (evaluate criterion env1) = fst (evaluate criterion env2).
Proof.
  intros H1 H2 Hd Hs.
  rewrite !evaluate_by_metrics. cbn [fst].
  assert (Eb : epoch_batches false env1 = epoch_batches false env2)
    by (apply iter_dataloader_inputs; assumption).
  destruct (epoch_batches_spec false env1) as (s1 & g1 & _ & S1 & _).
  destruct (epoch_batches_spec false env2) as (s2 & g2 & _ & S2 & _).
  rewrite Eb, S1, S2, <- Hd.
  rewrite (mapM_ext _ _ _
             (fun indices =>
                batch_metrics_eval_params criterion
                  (model (set_rng g1 (set_training false env1)))
                  (model (set_rng g2 (set_training false env2)))
                  (dataset (dataloader env1)) indices H1 H2)).
  reflexivity.
Qed.

(** C6. [evaluate] changes no parameter of the classifier and neither the
    optimizer state, the gradients nor the loader with its dataset: of the
    model only the mode flag is set, and the generator has given a seed to
    the loader's iterator. *)
Theorem evaluate_changes_no_parameter (criterion : Criterion) (env : Env) :
  fc1 (model (snd (evaluate criterion env))) = fc1 (model env)
  /\ fc2 (model (snd (evaluate criterion env))) = fc2 (model env)
  /\ dropout_p (model (snd (evaluate criterion env))) = dropout_p (model env)
  /\ training (model (snd (evaluate criterion env))) = false
  /\ optimizer (snd (evaluate criterion env)) = optimizer env
  /\ grad (snd (evaluate criterion env)) = grad env
  /\ dataloader (snd (evaluate criterion env)) = dataloader env.
Proof.
  rewrite evaluate_by_metrics. simpl.
  destruct (epoch_batches_spec false env) as (s & g & _ & S & _).
  rewrite S. repeat split.
Qed.

(** C1 (as the code has it). [train] never tests a loss for finiteness: when
    every batch of the epoch is processed without an exception and the loss
    of some batch is not finite, [train] raises nothing and returns, after
    the update steps of all batches, a mean loss that is itself not finite. *)
Theorem nonfinite_loss_reaches_epoch_mean (criterion : Criterion)
    (env env2 : Env) (ms : list (float * float)) :
  0 < batch_size (dataloader env) ->
  train_trace criterion (epoch_batches true env) (epoch_start true env)
  = (Ok ms, env2) ->
  existsb (fun m => negb (is_finite (fst m))) ms = true ->
  exists l a, train criterion env = (Ok (l, a), env2) /\ is_finite l = false.
Proof.
  intros Hb Htr Hex.
  rewrite train_by_trace, Htr. cbn -[epoch_means].
  pose proof (train_trace_length _ _ _ _ _ Htr) as Hlen.
  rewrite epoch_means_nonzero.
  - eexists; eexists; split; [reflexivity|]. simpl.
    apply f64_div_nonfinite, fold_add_nonfinite.
    rewrite existsb_exists in *. destruct Hex as [m [Hin Hm]].
    exists (fst m); split; [apply in_map, Hin|exact Hm].
  - rewrite <- (epoch_batches_count true env Hb), <- Hlen.
    destruct ms; [discriminate|simpl; lia].
Qed.

End EpochFrames.

(** On the three samples of [demo_env] the division of [train] does not
    raise. *)
Lemma epoch_division_needs_a_sample_witness :
  0 < SentimentDataset_len (dataset (dataloader demo_env))
  /\ fst (train nll_loss demo_env) <> Raise ZeroDivisionError.
Proof.
  split; [vm_compute; lia|].
  destruct (epoch_division_needs_a_sample nll_loss demo_env)
    as (_ & _ & H).
  destruct (H ltac:(vm_compute; lia) ltac:(vm_compute; lia)) as (_ & Ht & _).
  rewrite Ht. vm_compute. discriminate.
Defined.

(** [evaluate] on [demo_env] and on an environment that differs from it in
    mode, dropout probability, optimizer state, gradients and generator. *)
Lemma evaluate_is_deterministic_witness :
  fst (evaluate nll_loss demo_env)
  = fst (evaluate nll_loss
           (@Build_Env sequential_backend
              {| fc1 := fc1 (model demo_env); dropout_p := f32_of_Z 1;
                 fc2 := fc2 (model demo_env); training := true |}
              (dataloader demo_env) 7 (Some tt) [3; 1; 4])).
Proof.
  apply (evaluate_is_deterministic nll_loss demo_env);
    [reflexivity|reflexivity|reflexivity|left; reflexivity].
Defined.

(** C3 does not hold as stated: behind a shuffling loader a second call of
    [evaluate], with the same parameters and the same loader, meets the
    generator in another state.  It batches the three samples as (0, 2), (1)
    where the first call had (2, 1), (0), and returns the loss 0.0 where the
    first call returned -0.5. *)
Lemma evaluate_follows_the_shuffle :
  fc1 (model (snd (evaluate nll_loss reshuffled_env)))
  = fc1 (model reshuffled_env)
  /\ fc2 (model (snd (evaluate nll_loss reshuffled_env)))
     = fc2 (model reshuffled_env)
  /\ dataloader (snd (evaluate nll_loss reshuffled_env))
     = dataloader reshuffled_env
  /\ epoch_batches false reshuffled_env = [[2; 1]; [0]]
  /\ epoch_batches false (snd (evaluate nll_loss reshuffled_env))
     = [[0; 2]; [1]]
  /\ fst (evaluate nll_loss reshuffled_env)
     = Ok (S754_finite true 4503599627370496 (-53),
           S754_finite false 6755399441055744 (-53))
  /\ fst (evaluate nll_loss (snd (evaluate nll_loss reshuffled_env)))
     = Ok (S754_zero false, S754_finite false 6755399441055744 (-53)).
Proof. repeat split; vm_compute; reflexivity. Qed.

(** The epoch over [overflow_env], whose two batch losses are infinite. *)
Lemma nonfinite_loss_reaches_epoch_mean_witness :
  exists l a,
    train nll_loss overflow_env
    = (Ok (l, a),
       snd (train_trace nll_loss (epoch_batches true overflow_env)
              (epoch_start true overflow_env)))
    /\ is_finite l = false.
Proof.
  apply (nonfinite_loss_reaches_epoch_mean nll_loss overflow_env _
           overflow_metrics).
  - vm_compute; lia.
  - vm_compute. reflexivity.
  - vm_compute. reflexivity.
Defined.

(** C1 does not hold as stated: the first batch overflows binary32 and its
    loss is minus infinity; the epoch goes on to the second batch, whose
    loss is plus infinity, raises nothing and returns NaN as its mean
    loss. *)
Lemma train_absorbs_nonfinite_loss :
  fst (train_trace nll_loss (epoch_batches true overflow_env)
         (epoch_start true overflow_env))
  = Ok [(S754_infinity true, f64_one); (S754_infinity false, f_zero)]
  /\ fst (train nll_loss overflow_env)
     = Ok (S754_nan, S754_finite false 4503599627370496 (-53)).
Proof. split; vm_compute; reflexivity. Qed.



(** C5 (as the code has it). In a dataset of N embeddings and N labels,
    retrieval succeeds exactly for the indices in [-N, N), a negative index
    counting from the end.  Every other index raises: [IndexError] when it
    fits a signed 64-bit integer, [ValueError] (overflow) when it does
    not. *)
Theorem getitem_index_range (ds : SentimentDataset) (idx : Z) :
  length (labels ds) = SentimentDataset_len ds ->
  ((- Z.of_nat (SentimentDataset_len ds) <= idx
    < Z.of_nat (SentimentDataset_len ds))%Z ->
   SentimentDataset_getitem ds idx
   = Ok (embedding_at ds
           (Z.to_nat (idx mod Z.of_nat (SentimentDataset_len ds))),
         label_at ds
           (Z.to_nat (idx mod Z.of_nat (SentimentDataset_len ds)))))
  /\ (~ (- Z.of_nat (SentimentDataset_len ds) <= idx
         < Z.of_nat (SentimentDataset_len ds))%Z ->
      (- 2 ^ 63 <= idx < 2 ^ 63)%Z ->
      SentimentDataset_getitem ds idx = Raise IndexError)
  /\ (~ (- Z.of_nat (SentimentDataset_len ds) <= idx
         < Z.of_nat (SentimentDataset_len ds))%Z ->
      ~ (- 2 ^ 63 <= idx < 2 ^ 63)%Z ->
      SentimentDataset_getitem ds idx = Raise ValueError).
Proof.
  unfold SentimentDataset_len, SentimentDataset_getitem; intros Hl.
  destruct (tensor_getitem_spec (embeddings ds) idx) as (He1 & He2 & He3).
  destruct (py_getitem_spec (labels ds) idx) as [Hl1 Hl2].
  rewrite Hl in Hl1, Hl2. split; [|split].
  - intros Hi.
    destruct (He1 Hi) as (e & -> & Ee). destruct (Hl1 Hi) as (l & -> & El).
    simpl. unfold embedding_at, label_at.
    now rewrite (nth_error_nth _ _ _ Ee), (nth_error_nth _ _ _ El).
  - intros Hi Hf. now rewrite (He2 Hi Hf).
  - intros Hi Hf. now rewrite (He3 Hi Hf).
Qed.

(** The indices -3, 3 and 2^63 on the three samples of [small_dataset]. *)
Lemma getitem_index_range_witness :
  SentimentDataset_getitem small_dataset (-3)
  = Ok (embedding_at small_dataset 0, label_at small_dataset 0)
  /\ SentimentDataset_getitem small_dataset 3 = Raise IndexError
  /\ SentimentDataset_getitem small_dataset (2 ^ 63) = Raise ValueError.
Proof.
  destruct (getitem_index_range small_dataset (-3) eq_refl) as (H & _ & _).
  destruct (getitem_index_range small_dataset 3 eq_refl) as (_ & H' & _).
  destruct (getitem_index_range small_dataset (2 ^ 63) eq_refl)
    as (_ & _ & H'').
  split; [|split].
  - apply H. change (SentimentDataset_len small_dataset) with 3. lia.
  - apply H'; change (SentimentDataset_len small_dataset) with 3; lia.
  - apply H''; change (SentimentDataset_len small_dataset) with 3; lia.
Defined.

(** C5 does not hold as stated: the index -1 lies outside [0, 3) and retrieves
    the last sample. *)
Lemma getitem_negative_index_succeeds :
  SentimentDataset_len small_dataset = 3
  /\ SentimentDataset_getitem small_dataset (-1) = Ok ([f32_of_Z 2], 2%Z).
Proof. split; reflexivity. Qed.

Section Batching.

Context {B : Backend}.

(** C4. An unshuffled loader over N samples with embeddings of one length
    yields batches that, concatenated in order, are the N samples in their
    order; there are ceil(N / batch_size) of them, each of [batch_size]
    samples but the last, which has N mod batch_size samples, or
    [batch_size] when that is zero.  One sample gives one batch of one
    sample, whatever the batch size. *)
Theorem unshuffled_batches_partition_dataset (env : Env) (d : nat) :
  shuffle (dataloader env) = false ->
  0 < batch_size (dataloader env) ->
  length (labels (dataset (dataloader env)))
  = SentimentDataset_len (dataset (dataloader env)) ->
  Forall (fun e => length e = d) (embeddings (dataset (dataloader env))) ->
  exists bs : list Batch,
    mapM (fetch (dataset (dataloader env))) (fst (iter_dataloader env)) = Ok bs
    /\ concat (map fst bs) = embeddings (dataset (dataloader env))
    /\ concat (map snd bs) = labels (dataset (dataloader env))
    /\ Z.of_nat (length bs) = DataLoader_len (dataloader env)
    /\ (forall i b, nth_error bs i = Some b ->
          length (fst b)
          = batch_size_at (batch_size (dataloader env))
              (SentimentDataset_len (dataset (dataloader env))) (length bs) i
          /\ length (snd b) = length (fst b))
    /\ (SentimentDataset_len (dataset (dataloader env)) = 1 ->
        bs = [(embeddings (dataset (dataloader env)),
               labels (dataset (dataloader env)))]).
Proof.
  intros Hs Hb Hl Hd.
  set (ds := dataset (dataloader env)) in *.
  set (n := SentimentDataset_len ds) in *.
  set (batches := batch_sampler (batch_size (dataloader env)) [] (seq 0 n)).
  assert (E : fst (iter_dataloader env) = batches).
  { destruct (iter_dataloader_spec env) as (s & g & E & _ & Q).
    rewrite E, (Q Hs). reflexivity. }
  rewrite E.
  exists (map (batch_at ds) batches).
  assert (Hcat : concat batches = seq 0 n)
    by (apply batch_sampler_concat).
  pose proof (batch_sampler_sizes (batch_size (dataloader env)) (seq 0 n) Hb)
    as [Hcount Hsizes].
  fold batches in Hcount, Hsizes. rewrite length_seq in Hcount, Hsizes.
  split; [apply (unshuffled_batches_fetched ds d); assumption|].
  split; [|split; [|split; [|split]]].
  - rewrite map_map; simpl. rewrite <- concat_map, Hcat.
    apply map_nth_all.
  - rewrite map_map; simpl. rewrite <- concat_map, Hcat.
    unfold label_at. fold n. rewrite <- Hl. apply map_nth_all.
  - rewrite length_map, Hcount. apply div_up_Z, Hb.
  - intros i b Hi. rewrite nth_error_map in Hi.
    destruct (nth_error batches i) as [indices|] eqn:Ei; [|discriminate].
    inversion Hi; subst b; simpl. rewrite !length_map.
    split; [apply Hsizes, Ei|reflexivity].
  - intros H1. unfold batches. rewrite H1.
    assert (E1 : batch_sampler (batch_size (dataloader env)) [] (seq 0 1)
                 = [[0]])
      by (simpl; destruct (batch_size (dataloader env)) as [|[|b]];
          reflexivity).
    rewrite E1. unfold batch_at; simpl. unfold embedding_at, label_at.
    unfold n, SentimentDataset_len in H1, Hl. rewrite H1 in Hl.
    destruct (embeddings ds) as [|e [|e' es]]; try discriminate.
    destruct (labels ds) as [|l [|l' ls]]; try discriminate.
    reflexivity.
Qed.

End Batching.

(** One sample behind a loader with batches of 64: one batch of one
    sample. *)
Lemma unshuffled_batches_partition_dataset_witness :
  exists bs : list Batch,
    mapM (fetch (dataset (dataloader single_env)))
         (fst (iter_dataloader single_env)) = Ok bs
    /\ concat (map fst bs) = embeddings (dataset (dataloader single_env))
    /\ concat (map snd bs) = labels (dataset (dataloader single_env))
    /\ Z.of_nat (length bs) = DataLoader_len (dataloader single_env)
    /\ (forall i b, nth_error bs i = Some b ->
          length (fst b)
          = batch_size_at (batch_size (dataloader single_env))
              (SentimentDataset_len (dataset (dataloader single_env)))
              (length bs) i
          /\ length (snd b) = length (fst b))
    /\ (SentimentDataset_len (dataset (dataloader single_env)) = 1 ->
        bs = [(embeddings (dataset (dataloader single_env)),
               labels (dataset (dataloader single_env)))]).
Proof.
  apply (unshuffled_batches_partition_dataset single_env 1).
  - reflexivity.
  - vm_compute; lia.
  - reflexivity.
  - repeat constructor.
Defined.

(** ** The order of the floating-point numbers *)

Lemma SFleb_not_nan (x y : float) :
  SFleb x y = true -> is_nan x = false /\ is_nan y = false.
Proof.
  destruct x, y; simpl; intros H; try discriminate; split; reflexivity.
Qed.

Lemma SFleb_refl (x : float) : is_nan x = false -> SFleb x x = true.
Proof.
  destruct x as [[]|[]| |[] m e]; unfold SFleb; simpl; intros H;
    try discriminate; try reflexivity;
    rewrite Z.compare_refl;
    change (Pos.compare_cont Eq m m) with (Pos.compare m m);
    rewrite Pos.compare_refl; reflexivity.
Qed.

Lemma SFleb_total (x y : float) :
  is_nan x = false -> is_nan y = false ->
  SFleb x y = false -> SFleb y x = true.
Proof.
  destruct x as [[]|[]| |[] m1 e1]; destruct y as [[]|[]| |[] m2 e2];
    unfold SFleb; simpl; intros Hx Hy H;
    try discriminate; try reflexivity; compare_cases.
Qed.

Lemma SFleb_trans (x y z : float) :
  SFleb x y = true -> SFleb y z = true -> SFleb x z = true.
Proof.
  destruct x as [[]|[]| |[] m1 e1]; destruct y as [[]|[]| |[] m2 e2];
    destruct z as [[]|[]| |[] m3 e3];
    unfold SFleb; simpl; intros H1 H2;
    try discriminate; try reflexivity; compare_cases.
Qed.

(** ** The reduction loop *)

Lemma max_scan_invariant (rest pre : list float) (mx : float) (idx : nat) :
  idx < length pre ->
  nth idx pre f_zero = mx ->
  is_nan mx = false ->
  (forall j, j < length pre -> SFleb (nth j pre f_zero) mx = true) ->
  (forall j, j < idx -> SFleb mx (nth j pre f_zero) = false) ->
  first_argmax (pre ++ rest) (snd (max_scan rest (length pre) mx idx))
  /\ fst (max_scan rest (length pre) mx idx)
     = nth (snd (max_scan rest (length pre) mx idx)) (pre ++ rest) f_zero.
Proof.
  revert pre mx idx; induction rest as [|value rest IH];
    intros pre mx idx Hidx Hmx Hnan Hle Hlt.
  - simpl. rewrite app_nil_r. split; [|symmetry; exact Hmx].
    split; [exact Hidx|]. split.
    + intros j Hj. unfold max_le. rewrite Hmx, (Hle j Hj). apply orb_true_r.
    + intros j Hj. unfold max_le. rewrite Hmx.
      destruct (SFleb_not_nan _ _ (Hle j ltac:(lia))) as [-> _].
      apply (Hlt j Hj).
  - simpl.
    assert (Hpre : forall j, j < length pre ->
              nth j ((pre ++ [value]) ++ rest) f_zero = nth j pre f_zero)
      by (intros j Hj; rewrite <- app_assoc; apply app_nth1; exact Hj).
    assert (Hpre' : forall j, j < length pre ->
              nth j (pre ++ [value]) f_zero = nth j pre f_zero)
      by (intros j Hj; apply app_nth1; exact Hj).
    assert (Hval : nth (length pre) (pre ++ [value]) f_zero = value)
      by (rewrite app_nth2, Nat.sub_diag by lia; reflexivity).
    assert (Hlen : length (pre ++ [value]) = S (length pre))
      by (rewrite length_app; simpl; lia).
    destruct (SFleb value mx) eqn:Ev; simpl.
    + (* the maximum stays *)
      replace (pre ++ value :: rest) with ((pre ++ [value]) ++ rest)
        by (now rewrite <- app_assoc).
      rewrite <- Hlen. apply IH.
      * lia.
      * now rewrite Hpre'.
      * exact Hnan.
      * intros j Hj. rewrite Hlen in Hj.
        destruct (Nat.eq_dec j (length pre)) as [->|Hne].
        -- now rewrite Hval.
        -- rewrite Hpre' by lia. apply Hle; lia.
      * intros j Hj. rewrite Hpre' by lia. apply Hlt, Hj.
    + destruct (is_nan value) eqn:En; simpl.
      * (* a NaN ends the loop *)
        assert (Hk : nth (length pre) (pre ++ value :: rest) f_zero = value)
          by (rewrite app_nth2, Nat.sub_diag by lia; reflexivity).
        split; [|symmetry; exact Hk]. split; [|split].
        -- rewrite length_app; simpl; lia.
        -- intros j _. unfold max_le. now rewrite Hk, En.
        -- intros j Hj. unfold max_le. rewrite Hk, app_nth1 by exact Hj.
           destruct (SFleb_not_nan _ _ (Hle j Hj)) as [-> _].
           destruct value; try discriminate; reflexivity.
      * (* a greater number replaces the maximum *)
        assert (Hgt : SFleb mx value = true)
          by (apply SFleb_total; assumption).
        replace (pre ++ value :: rest) with ((pre ++ [value]) ++ rest)
          by (now rewrite <- app_assoc).
        rewrite <- Hlen. apply IH.
        -- lia.
        -- exact Hval.
        -- exact En.
        -- intros j Hj. rewrite Hlen in Hj.
           destruct (Nat.eq_dec j (length pre)) as [->|Hne].
           ++ rewrite Hval. apply SFleb_refl, En.
           ++ rewrite Hpre' by lia.
              apply SFleb_trans with (y := mx); [apply Hle; lia|exact Hgt].
        -- intros j Hj. rewrite Hpre' by lia.
           destruct (SFleb value (nth j pre f_zero)) eqn:C; [|reflexivity].
           rewrite (SFleb_trans _ _ _ C (Hle j Hj)) in Ev. discriminate.
Qed.

Lemma torch_max_row_spec (row : list float) :
  row <> [] ->
  exists v i, torch_max_row row = Ok (v, i)
              /\ first_argmax row i /\ v = nth i row f_zero.
Proof.
  destruct row as [|x0 rest]; [contradiction|intros _].
  unfold torch_max_row.
  exists (fst (max_scan (x0 :: rest) 0 x0 0)),
         (snd (max_scan (x0 :: rest) 0 x0 0)).
  split; [now rewrite <- surjective_pairing|].
  simpl max_scan.
  destruct (is_nan x0) eqn:En.
  - replace (SFleb x0 x0) with false
      by (destruct x0; try discriminate; reflexivity).
    simpl. split; [|reflexivity]. split; [simpl; lia|]. split.
    + intros j _. unfold max_le.
      change (nth 0 (x0 :: rest) f_zero) with x0. now rewrite En.
    + intros j Hj; lia.
  - rewrite (SFleb_refl x0 En). simpl.
    apply (max_scan_invariant rest [x0] x0 0); simpl; auto.
    + intros [|j] Hj; [apply SFleb_refl, En|lia].
    + intros j Hj; lia.
Qed.

Section FloatBounds.

Local Open Scope Z_scope.

(** ** Rounding of values between zero and one *)

(** *** Binary digits *)

Lemma digits2_pos_bounds (p : positive) :
  2 ^ (Zpos (digits2_pos p) - 1) <= Zpos p < 2 ^ Zpos (digits2_pos p).
Proof.
  induction p as [p IH|p IH|]; simpl digits2_pos.
  - rewrite Pos2Z.inj_succ, (Pos2Z.inj_xI p).
    replace (Z.succ (Zpos (digits2_pos p)) - 1)
      with (Z.succ (Zpos (digits2_pos p) - 1)) by lia.
    rewrite !Z.pow_succ_r by lia.
    revert IH. generalize (2 ^ (Zpos (digits2_pos p) - 1)).
    generalize (2 ^ Zpos (digits2_pos p)). lia.
  - rewrite Pos2Z.inj_succ, (Pos2Z.inj_xO p).
    replace (Z.succ (Zpos (digits2_pos p)) - 1)
      with (Z.succ (Zpos (digits2_pos p) - 1)) by lia.
    rewrite !Z.pow_succ_r by lia.
    revert IH. generalize (2 ^ (Zpos (digits2_pos p) - 1)).
    generalize (2 ^ Zpos (digits2_pos p)). lia.
  - simpl. lia.
Qed.

Lemma Zdigits2_nonneg (m : Z) : 0 <= Zdigits2 m.
Proof. destruct m; simpl; lia. Qed.

Lemma Zdigits2_bounds (m : Z) :
  0 < m -> 2 ^ (Zdigits2 m - 1) <= m < 2 ^ Zdigits2 m.
Proof.
  destruct m as [|p|p]; try lia. intros _. apply digits2_pos_bounds.
Qed.

Lemma Zdigits2_le (m k : Z) : 0 <= m -> 0 <= k -> m < 2 ^ k -> Zdigits2 m <= k.
Proof.
  intros Hm Hk H. destruct (Z.eq_dec m 0) as [->|Hne]; [simpl; lia|].
  destruct (Zdigits2_bounds m ltac:(lia)) as [Hlo _].
  destruct (Z_le_gt_dec (Zdigits2 m) k) as [|Hgt]; [assumption|].
  assert (2 ^ k <= 2 ^ (Zdigits2 m - 1)) by (apply Z.pow_le_mono_r; lia).
  lia.
Qed.

Lemma Zdigits2_ge (m k : Z) : 0 <= k -> 2 ^ k <= m -> k + 1 <= Zdigits2 m.
Proof.
  intros Hk H.
  assert (0 < 2 ^ k) by (apply Z.pow_pos_nonneg; lia).
  destruct (Zdigits2_bounds m ltac:(lia)) as [_ Hhi].
  destruct (Z_le_gt_dec (k + 1) (Zdigits2 m)) as [|Hgt]; [assumption|].
  pose proof (Zdigits2_nonneg m).
  assert (2 ^ Zdigits2 m <= 2 ^ k) by (apply Z.pow_le_mono_r; lia).
  lia.
Qed.

Lemma Zdigits2_unique (m d : Z) :
  0 < d -> 2 ^ (d - 1) <= m < 2 ^ d -> Zdigits2 m = d.
Proof.
  intros Hd [Hlo Hhi].
  assert (0 < 2 ^ (d - 1)) by (apply Z.pow_pos_nonneg; lia).
  pose proof (Zdigits2_le m d ltac:(lia) ltac:(lia) Hhi).
  pose proof (Zdigits2_ge m (d - 1) ltac:(lia) Hlo). lia.
Qed.

(** *** Shifting a mantissa to the right *)

Lemma iter_pos_nat {A : Type} (f : A -> A) (p : positive) (x : A) :
  iter_pos f p x = Nat.iter (Pos.to_nat p) f x.
Proof.
  revert x; induction p as [p IH|p IH|]; intros x; cbn [iter_pos].
  - rewrite !IH, Pos2Nat.inj_xI.
    replace (S (2 * Pos.to_nat p)) with (Pos.to_nat p + (Pos.to_nat p + 1))%nat
      by lia.
    rewrite !Nat.iter_add. reflexivity.
  - rewrite !IH, Pos2Nat.inj_xO.
    replace (2 * Pos.to_nat p)%nat with (Pos.to_nat p + Pos.to_nat p)%nat
      by lia.
    rewrite Nat.iter_add. reflexivity.
  - reflexivity.
Qed.

Lemma shr_1_div (mrs : shr_record) :
  0 <= shr_m mrs -> shr_m (shr_1 mrs) = shr_m mrs / 2.
Proof.
  destruct mrs as [m r s]; simpl. intros Hm.
  destruct m as [|[p|p|]|p]; simpl; try reflexivity; try lia.
  - rewrite (Pos2Z.inj_xI p).
    apply Z.div_unique with (r := 1); lia.
  - rewrite (Pos2Z.inj_xO p).
    apply Z.div_unique with (r := 0); lia.
Qed.

Lemma shr_iter_div (k : nat) (mrs : shr_record) :
  0 <= shr_m mrs ->
  shr_m (Nat.iter k shr_1 mrs) = shr_m mrs / 2 ^ Z.of_nat k.
Proof.
  intros Hm. induction k as [|k IH].
  - simpl. now rewrite Z.div_1_r.
  - rewrite Nat2Z.inj_succ, Z.pow_succ_r by lia.
    change (Nat.iter (S k) shr_1 mrs) with (shr_1 (Nat.iter k shr_1 mrs)).
    rewrite shr_1_div, IH.
    + rewrite Z.div_div by (try apply Z.pow_pos_nonneg; lia).
      f_equal; ring.
    + rewrite IH. apply Z.div_pos; [lia|apply Z.pow_pos_nonneg; lia].
Qed.

(** Shifting out zeros only keeps the record exact. *)
Lemma shr_iter_exact (k : nat) (m : Z) :
  0 <= m ->
  Nat.iter k shr_1 (Build_shr_record (m * 2 ^ Z.of_nat k) false false)
  = Build_shr_record m false false.
Proof.
  intros Hm. induction k as [|k IH].
  - simpl. f_equal; lia.
  - rewrite Nat.iter_succ_r.
    replace (m * 2 ^ Z.of_nat (S k)) with (2 * (m * 2 ^ Z.of_nat k))
      by (rewrite Nat2Z.inj_succ, Z.pow_succ_r by lia; ring).
    assert (Hs : shr_1 (Build_shr_record (2 * (m * 2 ^ Z.of_nat k)) false false)
                 = Build_shr_record (m * 2 ^ Z.of_nat k) false false).
    { assert (0 <= m * 2 ^ Z.of_nat k)
        by (apply Z.mul_nonneg_nonneg; [lia|apply Z.pow_nonneg; lia]).
      destruct (m * 2 ^ Z.of_nat k) as [|q|q]; [reflexivity|reflexivity|lia]. }
    rewrite Hs. exact IH.
Qed.

Lemma loc_of_shr_record_of_loc (m : Z) (l : location) :
  loc_of_shr_record (shr_record_of_loc m l) = l.
Proof. destruct l as [|[]]; reflexivity. Qed.

Lemma shr_m_of_loc (m : Z) (l : location) : shr_m (shr_record_of_loc m l) = m.
Proof. destruct l as [|[]]; reflexivity. Qed.

Section UnitRounding.

Variables prec emax : Z.
Hypothesis Hprec : 0 < prec.
Hypothesis Hemax : 2 <= emax.

Lemma fexp_le_one (k : Z) : k <= 1 -> fexp prec emax k <= 1 - prec.
Proof. unfold fexp, emin. lia. Qed.

Lemma fexp_ge (k : Z) : k - prec <= fexp prec emax k.
Proof. unfold fexp. lia. Qed.

Lemma digits_exponent_le_one (m e : Z) :
  0 <= m -> e <= 0 -> m <= 2 ^ (- e) -> Zdigits2 m + e <= 1.
Proof.
  intros Hm He H.
  assert (Zdigits2 m <= 1 - e); [|lia].
  apply Zdigits2_le; [lia|lia|].
  replace (1 - e) with (Z.succ (- e)) by lia.
  rewrite Z.pow_succ_r by lia.
  assert (0 < 2 ^ (- e)) by (apply Z.pow_pos_nonneg; lia). lia.
Qed.

Lemma shr_unit (mx ex : Z) (lx : location) (n : Z) :
  0 <= mx -> 0 <= n -> ex + n <= 0 ->
  (mx < 2 ^ (- ex) \/ (mx = 2 ^ (- ex) /\ lx = loc_Exact)) ->
  exists mrs,
    shr (shr_record_of_loc mx lx) ex n = (mrs, ex + n)
    /\ 0 <= shr_m mrs
    /\ (shr_m mrs < 2 ^ (- (ex + n))
        \/ (shr_m mrs = 2 ^ (- (ex + n))
            /\ loc_of_shr_record mrs = loc_Exact)).
Proof.
  intros Hm Hn He H.
  destruct n as [|p|p]; [| |lia].
  - exists (shr_record_of_loc mx lx). rewrite Z.add_0_r.
    rewrite shr_m_of_loc, loc_of_shr_record_of_loc. auto.
  - exists (iter_pos shr_1 p (shr_record_of_loc mx lx)).
    split; [reflexivity|].
    rewrite iter_pos_nat.
    assert (Hpow : 2 ^ (- ex) = 2 ^ (- (ex + Zpos p)) * 2 ^ Zpos p)
      by (rewrite <- Z.pow_add_r by lia; f_equal; lia).
    assert (Hpos : 0 < 2 ^ Zpos p) by (apply Z.pow_pos_nonneg; lia).
    destruct H as [H|[H ->]].
    + rewrite shr_iter_div by (rewrite shr_m_of_loc; exact Hm).
      rewrite shr_m_of_loc, positive_nat_Z.
      split; [apply Z.div_pos; lia|]. left.
      apply Z.div_lt_upper_bound; [exact Hpos|]. rewrite Z.mul_comm. lia.
    + simpl shr_record_of_loc. rewrite H, Hpow, <- (positive_nat_Z p).
      rewrite shr_iter_exact by (apply Z.pow_nonneg; lia).
      simpl. split; [apply Z.pow_nonneg; lia|]. right. split; reflexivity.
Qed.

Lemma round_nearest_even_unit (m b : Z) (l : location) :
  0 <= m -> (m < b \/ (m = b /\ l = loc_Exact)) ->
  0 <= round_nearest_even m l <= b.
Proof.
  intros Hm [H|[H ->]]; [|simpl; lia].
  destruct l as [|[]]; simpl; try lia.
  destruct (Z.even m); lia.
Qed.

(** Rounding a value of at most one that is given with enough digits. *)
Lemma binary_round_aux_unit (s : bool) (mx ex : Z) (lx : location) :
  0 <= mx -> ex <= 0 ->
  ex <= fexp prec emax (Zdigits2 mx + ex) ->
  (mx < 2 ^ (- ex) \/ (mx = 2 ^ (- ex) /\ lx = loc_Exact)) ->
  unit_shape prec s (binary_round_aux prec emax s mx ex lx).
Proof.
  intros Hm He Hf H.
  assert (Hle : mx <= 2 ^ (- ex)) by lia.
  pose proof (fexp_le_one _ (digits_exponent_le_one mx ex Hm He Hle)) as He1.
  unfold binary_round_aux, shr_fexp.
  destruct (shr_unit mx ex lx (fexp prec emax (Zdigits2 mx + ex) - ex)
              Hm ltac:(lia) ltac:(lia) H) as (mrs1 & -> & Hm1 & H1).
  replace (ex + (fexp prec emax (Zdigits2 mx + ex) - ex))
    with (fexp prec emax (Zdigits2 mx + ex)) in * by lia.
  set (e1 := fexp prec emax (Zdigits2 mx + ex)) in *.
  pose proof (round_nearest_even_unit (shr_m mrs1) (2 ^ (- e1))
                (loc_of_shr_record mrs1) Hm1 H1) as [Hm2 Hm2'].
  set (m2 := round_nearest_even (shr_m mrs1) (loc_of_shr_record mrs1)) in *.
  pose proof (fexp_le_one _
                (digits_exponent_le_one m2 e1 Hm2 ltac:(lia) Hm2')) as He2.
  assert (Hfin : forall m3 e3,
            0 <= m3 <= 2 ^ (- e3) -> e3 <= 1 - prec ->
            unit_shape prec s
              match m3 with
              | 0 => S754_zero s
              | Zpos m =>
                  if e3 <=? emax - prec then S754_finite s m e3
                  else S754_infinity s
              | Zneg _ => S754_nan
              end).
  { intros m3 e3 Hm3 He3. destruct m3 as [|m|m]; [left; reflexivity| |lia].
    destruct (Z.leb_spec e3 (emax - prec)); [|lia].
    right. exists m, e3. repeat split; lia. }
  destruct (Z_le_gt_dec (fexp prec emax (Zdigits2 m2 + e1) - e1) 0)
    as [Hn2|Hn2].
  - assert (E : shr (shr_record_of_loc m2 loc_Exact) e1
                  (fexp prec emax (Zdigits2 m2 + e1) - e1)
                = (shr_record_of_loc m2 loc_Exact, e1))
      by (destruct (fexp prec emax (Zdigits2 m2 + e1) - e1);
          try reflexivity; lia).
    rewrite E. simpl shr_m. apply Hfin; lia.
  - assert (H2 : m2 < 2 ^ (- e1) \/ (m2 = 2 ^ (- e1) /\ loc_Exact = loc_Exact))
      by (destruct (Z.eq_dec m2 (2 ^ (- e1)));
          [right; split; [assumption|reflexivity]|left; lia]).
    destruct (shr_unit m2 e1 loc_Exact
                (fexp prec emax (Zdigits2 m2 + e1) - e1)
                Hm2 ltac:(lia) ltac:(lia) H2)
      as (mrs3 & -> & Hm3 & H3).
    apply Hfin; lia.
Qed.

End UnitRounding.

Lemma iter_xO_mul (m d : positive) :
  Zpos (Pos.iter xO m d) = Zpos m * 2 ^ Zpos d.
Proof.
  induction d as [|d IH] using Pos.peano_ind.
  - simpl. lia.
  - rewrite Pos.iter_succ, (Pos2Z.inj_xO (Pos.iter xO m d)), IH.
    rewrite Pos2Z.inj_succ, Z.pow_succ_r by lia. ring.
Qed.

Lemma shl_align_spec (m : positive) (e e' : Z) :
  (e' < e ->
   Zpos (fst (shl_align m e e')) = Zpos m * 2 ^ (e - e')
   /\ snd (shl_align m e e') = e')
  /\ (e <= e' -> shl_align m e e' = (m, e)).
Proof.
  unfold shl_align. split; intros H.
  - destruct (e' - e) as [|d|d] eqn:E; try lia. simpl.
    rewrite iter_xO_mul. replace (e - e') with (Zpos d) by lia. auto.
  - destruct (e' - e) as [|d|d] eqn:E; try lia; reflexivity.
Qed.

Lemma Zdigits2_mul_pow2 (m k : Z) :
  0 < m -> 0 <= k -> Zdigits2 (m * 2 ^ k) = Zdigits2 m + k.
Proof.
  intros Hm Hk.
  destruct (Zdigits2_bounds m Hm) as [Hlo Hhi].
  assert (Hd : 0 < Zdigits2 m)
    by (destruct m; simpl; lia).
  assert (Hp : 0 < 2 ^ k) by (apply Z.pow_pos_nonneg; lia).
  apply Zdigits2_unique; [lia|].
  replace (Zdigits2 m + k - 1) with ((Zdigits2 m - 1) + k) by lia.
  rewrite !Z.pow_add_r by lia. split.
  - apply Z.mul_le_mono_nonneg_r; lia.
  - apply Z.mul_lt_mono_pos_r; lia.
Qed.

Section ExactRounding.

Variables prec emax : Z.
Hypothesis Hprec : 0 < prec.
Hypothesis Hemax : 2 <= emax.

(** Rounding a value of at most one that is given exactly. *)
Lemma binary_round_unit (s : bool) (m : positive) (e : Z) :
  e <= 0 -> Zpos m <= 2 ^ (- e) ->
  unit_shape prec s (binary_round prec emax s m e).
Proof.
  intros He Hm. unfold binary_round.
  set (e' := fexp prec emax (Zpos (digits2_pos m) + e)).
  destruct (shl_align_spec m e e') as [Hlt Hge].
  destruct (shl_align m e e') as [mz ez] eqn:E. cbn [fst snd] in Hlt.
  assert (Hexact : forall x : Z, x <= 2 ^ (- ez) ->
            x < 2 ^ (- ez) \/ (x = 2 ^ (- ez) /\ loc_Exact = loc_Exact))
    by (intros x Hx; destruct (Z.eq_dec x (2 ^ (- ez)));
        [right; split; [assumption|reflexivity]|left; lia]).
  destruct (Z_lt_le_dec e' e) as [H|H].
  - destruct (Hlt H) as [Hmz ->].
    assert (Hpow : 2 ^ (- e') = 2 ^ (- e) * 2 ^ (e - e'))
      by (rewrite <- Z.pow_add_r by lia; f_equal; lia).
    apply (binary_round_aux_unit prec emax Hprec Hemax); try lia.
    + rewrite Hmz, Zdigits2_mul_pow2 by lia.
      change (Zdigits2 (Zpos m)) with (Zpos (digits2_pos m)).
      replace (Zpos (digits2_pos m) + (e - e') + e')
        with (Zpos (digits2_pos m) + e) by lia.
      fold e'. lia.
    + apply Hexact. rewrite Hmz, Hpow.
      apply Z.mul_le_mono_nonneg_r; [apply Z.pow_nonneg|]; lia.
  - injection (Hge H) as -> ->.
    apply (binary_round_aux_unit prec emax Hprec Hemax); try lia.
    + exact H.
    + apply Hexact, Hm.
Qed.

(** A normal mantissa with an exponent in range is kept by rounding. *)
Lemma binary_round_aux_normal (s : bool) (m : positive) (e : Z) :
  Zpos (digits2_pos m) = prec -> 3 - emax - prec <= e <= emax - prec ->
  binary_round_aux prec emax s (Zpos m) e loc_Exact = S754_finite s m e.
Proof.
  intros Hd He. unfold binary_round_aux, shr_fexp.
  assert (Hf : fexp prec emax (Zpos (digits2_pos m) + e) - e = 0)
    by (rewrite Hd; unfold fexp, emin; lia).
  cbn [Zdigits2]. rewrite Hf.
  cbn [shr shr_record_of_loc shr_m loc_of_shr_record round_nearest_even
       Zdigits2].
  rewrite Hf. cbn [shr shr_record_of_loc shr_m].
  destruct (Z.leb_spec e (emax - prec)); [reflexivity|lia].
Qed.

End ExactRounding.

(** *** Integers as binary64 numbers *)

Lemma f64_normal_mantissa (n : positive) :
  Zpos n < 2 ^ 53 ->
  Zpos (Z.to_pos (Zpos n * 2 ^ (53 - Zpos (digits2_pos n))))
  = Zpos n * 2 ^ (53 - Zpos (digits2_pos n))
  /\ Zdigits2 (Zpos n * 2 ^ (53 - Zpos (digits2_pos n))) = 53
  /\ 1 <= Zpos (digits2_pos n) <= 53.
Proof.
  intros Hn.
  assert (Hd : Zpos (digits2_pos n) <= 53)
    by (apply (Zdigits2_le (Zpos n) 53); lia).
  assert (0 < 2 ^ (53 - Zpos (digits2_pos n)))
    by (apply Z.pow_pos_nonneg; lia).
  split; [apply Z2Pos.id; lia|]. split; [|lia].
  rewrite Zdigits2_mul_pow2 by lia. simpl Zdigits2. lia.
Qed.

Lemma f64_of_Z_small (n : positive) :
  Zpos n < 2 ^ 53 -> f64_of_Z (Zpos n) = f64_normal n.
Proof.
  intros Hn. destruct (f64_normal_mantissa n Hn) as (Hm & Hdig & Hd).
  unfold f64_of_Z, binary_normalize, binary_round, f64_normal.
  replace (Zpos (digits2_pos n) + 0) with (Zpos (digits2_pos n)) by lia.
  assert (Hf : fexp 53 1024 (Zpos (digits2_pos n)) = Zpos (digits2_pos n) - 53)
    by (unfold fexp, emin; lia).
  rewrite Hf.
  destruct (shl_align_spec n 0 (Zpos (digits2_pos n) - 53)) as [Hlt Hge].
  destruct (shl_align n 0 (Zpos (digits2_pos n) - 53)) as [mz ez] eqn:E.
  cbn [fst snd] in Hlt.
  assert (Hmz : Zpos mz = Zpos n * 2 ^ (53 - Zpos (digits2_pos n))
                /\ ez = Zpos (digits2_pos n) - 53).
  { destruct (Z_lt_le_dec (Zpos (digits2_pos n) - 53) 0) as [H|H].
    - destruct (Hlt H) as [H1 H2]. split; [|exact H2].
      rewrite H1. f_equal. f_equal. lia.
    - injection (Hge H) as -> ->.
      replace (Zpos (digits2_pos n)) with 53 by lia.
      split; [simpl; lia|reflexivity]. }
  destruct Hmz as [Hmz ->].
  rewrite binary_round_aux_normal.
  - f_equal. rewrite <- Hmz. now rewrite Pos2Z.id.
  - change (Zpos (digits2_pos mz)) with (Zdigits2 (Zpos mz)).
    rewrite Hmz. exact Hdig.
  - lia.
Qed.

(** *** The quotient of two integers *)

Lemma new_location_exact (nb_steps : Z) : new_location nb_steps 0 = loc_Exact.
Proof.
  unfold new_location, new_location_even, new_location_odd.
  destruct (Z.even nb_steps); reflexivity.
Qed.

Lemma f64_div_unit (c n : positive) :
  Zpos c <= Zpos n -> Zpos n < 2 ^ 53 ->
  unit_shape 53 false (f64_div (f64_normal c) (f64_normal n)).
Proof.
  intros Hcn Hn.
  assert (Hc : Zpos c < 2 ^ 53) by lia.
  destruct (f64_normal_mantissa c Hc) as (Emc & Dmc & Hdc).
  destruct (f64_normal_mantissa n Hn) as (Emn & Dmn & Hdn).
  assert (Hdcn : Zpos (digits2_pos c) <= Zpos (digits2_pos n)).
  { apply (Zdigits2_le (Zpos c)); [lia|lia|].
    pose proof (digits2_pos_bounds n). lia. }
  unfold f64_div, SFdiv, f64_normal, SFdiv_core_binary.
  set (dc := Zpos (digits2_pos c)) in *.
  set (dn := Zpos (digits2_pos n)) in *.
  set (mc := Z.to_pos (Zpos c * 2 ^ (53 - dc))) in *.
  set (mn := Z.to_pos (Zpos n * 2 ^ (53 - dn))) in *.
  rewrite Emc, Emn, Dmc, Dmn.
  replace (53 + (dc - 53) - (53 + (dn - 53))) with (dc - dn) by lia.
  replace (dc - 53 - (dn - 53)) with (dc - dn) by lia.
  assert (Hf : fexp 53 1024 (dc - dn) = dc - dn - 53)
    by (unfold fexp, emin; lia).
  rewrite Hf, Z.min_l by lia.
  replace (dc - dn - (dc - dn - 53)) with 53 by lia.
  rewrite <- Emc, <- Emn.
  cbv beta iota zeta.
  rewrite Z.shiftl_mul_pow2 by lia.
  pose proof (Z_div_mod (Zpos mc * 2 ^ 53) (Zpos mn) ltac:(lia)) as Hdiv.
  destruct (Z.div_eucl (Zpos mc * 2 ^ 53) (Zpos mn)) as [q r].
  destruct Hdiv as [Hqr Hr].
  set (e' := dc - dn - 53) in *.
  (* the identities between the powers of two involved *)
  assert (HA : 0 < 2 ^ (53 - dc)) by (apply Z.pow_pos_nonneg; lia).
  assert (HB : 0 < 2 ^ (53 - dn)) by (apply Z.pow_pos_nonneg; lia).
  assert (HT : 0 < 2 ^ (- e')) by (apply Z.pow_pos_nonneg; lia).
  assert (Hid : 2 ^ (53 - dc) * 2 ^ 53 = 2 ^ (53 - dn) * 2 ^ (- e'))
    by (rewrite <- !Z.pow_add_r by lia; f_equal; lia).
  assert (Hmc_lo : 2 ^ 52 <= Zpos mc).
  { pose proof (Zdigits2_bounds (Zpos mc) ltac:(lia)) as [Hlo _].
    rewrite Emc, Dmc in Hlo. rewrite Emc. exact Hlo. }
  assert (Hmn_hi : Zpos mn < 2 ^ 53).
  { pose proof (Zdigits2_bounds (Zpos mn) ltac:(lia)) as [_ Hhi].
    rewrite Emn, Dmn in Hhi. rewrite Emn. exact Hhi. }
  assert (Hval : Zpos mc * 2 ^ 53 <= Zpos mn * 2 ^ (- e')).
  { rewrite Emc, Emn.
    replace (Zpos c * 2 ^ (53 - dc) * 2 ^ 53)
      with (Zpos c * (2 ^ (53 - dc) * 2 ^ 53)) by ring.
    replace (Zpos n * 2 ^ (53 - dn) * 2 ^ (- e'))
      with (Zpos n * (2 ^ (53 - dn) * 2 ^ (- e'))) by ring.
    rewrite Hid. apply Z.mul_le_mono_nonneg_r; [|lia].
    apply Z.mul_nonneg_nonneg; lia. }
  assert (Hq0 : 0 <= q).
  { destruct (Z_le_gt_dec 0 q) as [|Hneg]; [assumption|].
    assert (Zpos mn * q <= - Zpos mn) by nia. 
    assert (0 <= Zpos mc * 2 ^ 53) by (apply Z.mul_nonneg_nonneg; lia).
    lia. }
  assert (Hq_lo : 2 ^ 52 <= q).
  { destruct (Z_le_gt_dec (2 ^ 52) q) as [|Hsmall]; [assumption|].
    assert (Zpos mn * q + r < Zpos mn * 2 ^ 52) by nia.
    assert (Zpos mn * 2 ^ 52 <= 2 ^ 53 * 2 ^ 52) by nia.
    assert (2 ^ 52 * 2 ^ 53 <= Zpos mc * 2 ^ 53) by nia.
    lia. }
  assert (Hq_hi : q <= 2 ^ (- e')).
  { destruct (Z_le_gt_dec q (2 ^ (- e'))) as [|Hbig]; [assumption|].
    assert (Zpos mn * (2 ^ (- e') + 1) <= Zpos mn * q) by nia.
    nia. }
  apply (binary_round_aux_unit 53 1024 ltac:(lia) ltac:(lia)).
  - exact Hq0.
  - lia.
  - pose proof (Zdigits2_ge q 52 ltac:(lia) Hq_lo).
    pose proof (fexp_ge 53 1024 (Zdigits2 q + e')). lia.
  - destruct (Z.eq_dec q (2 ^ (- e'))) as [Heq|Hne]; [right|left; lia].
    split; [exact Heq|].
    assert (r = 0) by nia. subst r. apply new_location_exact.
Qed.

Lemma accuracy_quotient_unit (c n : Z) :
  0 <= c <= n -> 0 < n < 2 ^ 53 ->
  unit_shape 53 false (f64_div (f64_of_Z c) (f64_of_Z n)).
Proof.
  intros Hc Hn. destruct n as [|n|n]; try lia.
  rewrite (f64_of_Z_small n) by lia.
  destruct c as [|c|c]; try lia.
  - left. reflexivity.
  - rewrite (f64_of_Z_small c) by lia. apply f64_div_unit; lia.
Qed.

(** *** Conversions between the two formats *)

Lemma torch_tensor_unit (x : float) :
  unit_shape 53 false x -> unit_shape 24 false (torch_tensor x).
Proof.
  intros [->|(m & e & -> & He & Hm)]; [left; reflexivity|].
  apply (binary_round_unit 24 128); lia.
Qed.

Lemma item_unit (x : float) :
  unit_shape 24 false x -> unit_shape 53 false (item x).
Proof.
  intros [->|(m & e & -> & He & Hm)]; [left; reflexivity|].
  apply (binary_round_unit 53 1024); lia.
Qed.

(** *** Comparison with zero and one *)

Lemma unit_shape_bounds (prec : Z) (one_m : positive) (x : float) :
  Zpos one_m = 2 ^ (prec - 1) -> 0 < prec ->
  unit_shape prec false x ->
  SFleb f_zero x = true /\ SFleb x (S754_finite false one_m (1 - prec)) = true.
Proof.
  intros Hone Hp [->|(m & e & -> & He & Hm)]; [split; reflexivity|].
  split; [reflexivity|].
  unfold SFleb, SFcompare.
  destruct (Z.compare_spec e (1 - prec)) as [->|_|]; [|reflexivity|lia].
  replace (- (1 - prec)) with (prec - 1) in Hm by lia.
  change (Pos.compare_cont Eq m one_m) with (Pos.compare m one_m).
  destruct (Pos.compare_spec m one_m); try reflexivity. lia.
Qed.

Lemma unit_shape_f32 (x : float) :
  unit_shape 24 false x -> SFleb f_zero x = true /\ SFleb x f32_one = true.
Proof. apply (unit_shape_bounds 24 8388608); [reflexivity|lia]. Qed.

Lemma unit_shape_f64 (x : float) :
  unit_shape 53 false x -> SFleb f_zero x = true /\ SFleb x f64_one = true.
Proof. apply (unit_shape_bounds 53 4503599627370496); [reflexivity|lia]. Qed.

End FloatBounds.

Lemma max_le_numbers (x y : float) :
  is_nan y = false -> max_le x y = SFleb x y.
Proof. unfold max_le. now intros ->. Qed.

Lemma first_argmax_unique (row : list float) (i j : nat) :
  first_argmax row i -> first_argmax row j -> i = j.
Proof.
  intros (Hi & Hmax_i & Hlow_i) (Hj & Hmax_j & Hlow_j).
  destruct (Nat.lt_trichotomy i j) as [H|[H|H]]; [|exact H|].
  - pose proof (Hlow_j i H) as C. rewrite (Hmax_i j Hj) in C. discriminate.
  - pose proof (Hlow_i j H) as C. rewrite (Hmax_j i Hi) in C. discriminate.
Qed.

Lemma torch_max_spec (predictions : list (list float)) :
  Forall (fun row => row <> []) predictions ->
  exists rows,
    mapM torch_max_row predictions = Ok rows
    /\ Forall2 (fun row r => first_argmax row (snd r)
                             /\ fst r = nth (snd r) row f_zero)
               predictions rows.
Proof.
  induction 1 as [|row predictions Hrow _ IH].
  - exists []. split; [reflexivity|constructor].
  - destruct IH as (rows & E & Hall).
    destruct (torch_max_row_spec row Hrow) as (v & i & Er & Harg & Hv).
    exists ((v, i) :: rows). simpl. rewrite Er, E. simpl.
    split; [reflexivity|]. constructor; [split; assumption|exact Hall].
Qed.

Lemma combine_map_l {X Y Z0 : Type} (f : X -> Y) (a : list X) (b : list Z0) :
  combine (map f a) b = map (fun p => (f (fst p), snd p)) (combine a b).
Proof.
  revert b; induction a as [|x a IH]; intros [|y b]; simpl;
    try reflexivity. now rewrite IH.
Qed.

Lemma filter_map_true {X : Type} (f : X -> bool) (l : list X) :
  length (filter (fun b : bool => b) (map f l)) = length (filter f l).
Proof.
  induction l as [|x l IH]; simpl; [reflexivity|].
  destruct (f x); simpl; now rewrite IH.
Qed.

Lemma correct_count_range (classes : list nat) (labels : list Z) :
  (0 <= correct_count classes labels <= Z.of_nat (length labels))%Z.
Proof.
  unfold correct_count. split; [lia|].
  apply inj_le.
  etransitivity; [apply filter_length_le|].
  rewrite length_combine. lia.
Qed.

(** C8. For every batch of logit rows, the class [calculate_accuracy]
    predicts for a row is the lowest index of a greatest score of the row
    (the only index with that property); the accuracy it returns is the
    binary32 number nearest to the number of samples whose predicted class
    is their label divided by the number of samples; and that accuracy lies
    between zero and one, as a tensor element and as the Python float that
    [item] makes of it. *)
Theorem accuracy_is_fraction_of_first_argmax
    (predictions : list (list float)) (labels : list Z) :
  length predictions = length labels ->
  labels <> [] ->
  (Z.of_nat (length labels) < 2 ^ 53)%Z ->
  Forall (fun row => row <> []) predictions ->
  exists (values : list float) (classes : list nat) (accuracy : float),
    torch_max predictions = Ok (values, classes)
    /\ Forall2 (fun row k =>
                  first_argmax row k
                  /\ forall k', first_argmax row k' -> k' = k)
               predictions classes
    /\ calculate_accuracy predictions labels = Ok accuracy
    /\ accuracy
       = torch_tensor (f64_div (f64_of_Z (correct_count classes labels))
                               (f64_of_Z (Z.of_nat (length labels))))
    /\ (0 <= correct_count classes labels <= Z.of_nat (length labels))%Z
    /\ SFleb f_zero accuracy = true /\ SFleb accuracy f32_one = true
    /\ SFleb f_zero (item accuracy) = true
    /\ SFleb (item accuracy) f64_one = true.
Proof.
  intros Hlen Hne Hbig Hrows.
  destruct (torch_max_spec predictions Hrows) as (rows & E & Hall).
  exists (map fst rows), (map snd rows).
  eexists. split; [unfold torch_max; rewrite E; reflexivity|].
  assert (Hcls : length (map snd rows) = length labels)
    by (rewrite length_map, (mapM_length _ _ _ E); exact Hlen).
  pose proof (correct_count_range (map snd rows) labels) as Hrange.
  assert (Hn : (0 < Z.of_nat (length labels))%Z)
    by (destruct labels; [contradiction|simpl; lia]).
  pose proof (accuracy_quotient_unit _ _ Hrange (conj Hn Hbig)) as Hq.
  pose proof (torch_tensor_unit _ Hq) as Ht.
  split; [|split; [|split; [reflexivity|split; [exact Hrange|]]]].
  - clear -Hall. induction Hall as [|row r predictions rows [Ha _] _ IH];
      simpl; constructor; [|exact IH].
    split; [exact Ha|]. intros k' Hk'.
    apply (first_argmax_unique row); assumption.
  - unfold calculate_accuracy, torch_max. rewrite E. simpl.
    unfold tensor_eq. rewrite length_map, Hcls, Nat.eqb_refl. simpl.
    unfold int_truediv.
    destruct (Z.eqb_spec (Z.of_nat (length labels)) 0); [lia|]. simpl.
    unfold tensor_sum, correct_count.
    now rewrite combine_map_l, map_map, filter_map_true.
  - destruct (unit_shape_f32 _ Ht) as [H0 H1].
    destruct (unit_shape_f64 _ (item_unit _ Ht)) as [H2 H3].
    repeat split; assumption.
Qed.

(** Three rows of logits, with a tie and with a NaN. *)
Lemma accuracy_is_fraction_of_first_argmax_witness :
  exists (values : list float) (classes : list nat) (accuracy : float),
    torch_max demo_predictions = Ok (values, classes)
    /\ Forall2 (fun row k =>
                  first_argmax row k
                  /\ forall k', first_argmax row k' -> k' = k)
               demo_predictions classes
    /\ calculate_accuracy demo_predictions demo_labels = Ok accuracy
    /\ accuracy
       = torch_tensor (f64_div (f64_of_Z (correct_count classes demo_labels))
                               (f64_of_Z (Z.of_nat (length demo_labels))))
    /\ (0 <= correct_count classes demo_labels
        <= Z.of_nat (length demo_labels))%Z
    /\ SFleb f_zero accuracy = true /\ SFleb accuracy f32_one = true
    /\ SFleb f_zero (item accuracy) = true
    /\ SFleb (item accuracy) f64_one = true.
Proof.
  apply (accuracy_is_fraction_of_first_argmax demo_predictions demo_labels).
  - reflexivity.
  - discriminate.
  - simpl. lia.
  - repeat constructor; discriminate.
Defined.

Lemma sentiment_map_inv_inverse (name : string) (k : Z) :
  In (name, k) sentiment_map <-> dict_getitem sentiment_map_inv k = Ok name.
Proof.
  change sentiment_map_inv
    with [(0%Z, "negative"%string); (1%Z, "neutral"%string);
          (2%Z, "positive"%string)].
  unfold sentiment_map. split.
  - intros [H|[H|[H|[]]]]; injection H as <- <-; reflexivity.
  - cbn [dict_getitem].
    destruct (Z.eqb_spec 0 k) as [<-|_].
    { intros H; injection H as <-; simpl; auto. }
    destruct (Z.eqb_spec 1 k) as [<-|_].
    { intros H; injection H as <-; simpl; auto. }
    destruct (Z.eqb_spec 2 k) as [<-|_].
    { intros H; injection H as <-; simpl; auto. }
    discriminate.
Qed.

Section PredictTheorems.

Context {B : Backend}.

Variable lower : string -> string.
Variable remove_urls : string -> string.
Variable stop_words : list string.

Lemma linear_in_shape (layer : Linear) (n_in n_out : nat) (x : list float) :
  linear_shape layer n_in n_out -> length x = n_in ->
  exists y, linear layer x = Ok y /\ length y = n_out.
Proof.
  intros (Hi & Hw & Hb & Hrows) Hx. unfold linear.
  rewrite Hi, Hx, Nat.eqb_refl. cbn [andb].
  replace (forallb _ (weight layer)) with true.
  - eexists; split; [reflexivity|].
    rewrite length_map, length_combine, Hw, Hb. apply Nat.min_id.
  - symmetry; apply forallb_forall; intros w Hin.
    rewrite Forall_forall in Hrows.
    rewrite (Hrows w Hin). apply Nat.eqb_refl.
Qed.

(** C9. For every input, [predict_sentiment] on a head with three outputs
    returns one of the three class names: the name that the label table
    gives the lowest index of a greatest logit, read through the inverse
    table, which holds exactly the pairs of the table.  The call changes no
    parameter of the head. *)
Theorem predict_sentiment_returns_class_name (encode : string -> Embedding)
    (sentence : PyObject) (env : Env) (embedding_dim hidden_dim : nat) :
  classifier_shape (model env) embedding_dim hidden_dim 3 ->
  (forall s, length (encode s) = embedding_dim) ->
  exists (logits : list float) (k : nat) (name : string),
    forward_eval (model env)
      [encode (preprocess_text_st lower remove_urls stop_words sentence)]
    = Ok [logits]
    /\ length logits = 3
    /\ first_argmax logits k
    /\ fst (predict_sentiment lower remove_urls stop_words encode sentence
              sentiment_map_inv env) = Ok name
    /\ In (name, Z.of_nat k) sentiment_map
    /\ In name ["negative"%string; "neutral"%string; "positive"%string]
    /\ (forall name' k', In (name', k') sentiment_map
                         <-> dict_getitem sentiment_map_inv k' = Ok name')
    /\ fc1 (model (snd (predict_sentiment lower remove_urls stop_words encode
                          sentence sentiment_map_inv env))) = fc1 (model env)
    /\ fc2 (model (snd (predict_sentiment lower remove_urls stop_words encode
                          sentence sentiment_map_inv env))) = fc2 (model env).
Proof.
  intros [H1 H2] Henc.
  set (x := encode (preprocess_text_st lower remove_urls stop_words sentence)).
  destruct (linear_in_shape _ _ _ x H1 (Henc _)) as (h & Eh & Hh).
  destruct (linear_in_shape (fc2 (model env)) hidden_dim 3 (map relu h) H2
              ltac:(now rewrite length_map)) as (y & Ey & Hy).
  assert (Hfw : forward_eval (model env) [x] = Ok [y])
    by (unfold forward_eval; simpl; rewrite Eh; simpl; rewrite Ey;
        reflexivity).
  assert (Hne : y <> []) by (destruct y; [discriminate|discriminate]).
  destruct (torch_max_row_spec y Hne) as (v & k & Ek & Harg & _).
  assert (Hk : k < 3) by (destruct Harg as [Hk _]; lia).
  assert (Hname : exists name,
            dict_getitem sentiment_map_inv (Z.of_nat k) = Ok name
            /\ In name ["negative"%string; "neutral"%string;
                        "positive"%string]).
  { destruct k as [|[|[|k]]]; [| | |lia]; eexists; split;
      try reflexivity; simpl; auto. }
  destruct Hname as (name & Eget & Hin).
  exists y, k, name.
  unfold predict_sentiment. fold x.
  rewrite call_model_in_eval_mode by reflexivity.
  assert (Hfw' : forward_eval (model (set_training false env)) [x] = Ok [y])
    by exact Hfw.
  rewrite Hfw'. simpl fst. simpl snd.
  unfold torch_max. simpl mapM. rewrite Ek. simpl.
  split; [exact Hfw|]. split; [exact Hy|]. split; [exact Harg|].
  split; [exact Eget|].
  split; [apply sentiment_map_inv_inverse, Eget|].
  split; [exact Hin|].
  split; [intros; apply sentiment_map_inv_inverse|].
  split; reflexivity.
Qed.

End PredictTheorems.

(** A prediction with the head of [demo_env]. *)
Lemma predict_sentiment_returns_class_name_witness :
  exists (logits : list float) (k : nat) (name : string),
    @forward_eval sequential_backend (model demo_env)
      [demo_encode (preprocess_text_st (fun s => s) (fun s => s) []
                      (PyStr "good film"))]
    = Ok [logits]
    /\ length logits = 3
    /\ first_argmax logits k
    /\ fst (predict_sentiment (fun s => s) (fun s => s) [] demo_encode
              (PyStr "good film") sentiment_map_inv demo_env) = Ok name
    /\ In (name, Z.of_nat k) sentiment_map
    /\ In name ["negative"%string; "neutral"%string; "positive"%string]
    /\ (forall name' k', In (name', k') sentiment_map
                         <-> dict_getitem sentiment_map_inv k' = Ok name')
    /\ fc1 (model (snd (predict_sentiment (fun s => s) (fun s => s) []
                          demo_encode (PyStr "good film") sentiment_map_inv
                          demo_env))) = fc1 (model demo_env)
    /\ fc2 (model (snd (predict_sentiment (fun s => s) (fun s => s) []
                          demo_encode (PyStr "good film") sentiment_map_inv
                          demo_env))) = fc2 (model demo_env).
Proof.
  apply (predict_sentiment_returns_class_name (fun s => s) (fun s => s) []
           demo_encode (PyStr "good film") demo_env 1 1).
  - repeat split; repeat constructor.
  - reflexivity.
Defined.

(** * Further properties of the code *)

(** ** Text preprocessing *)

Lemma remove_punctuation_chars (s : string) :
  list_ascii_of_string (remove_punctuation s)
  = filter (fun c => negb (is_punctuation c)) (list_ascii_of_string s).
Proof.
  induction s as [|c s IH]; simpl; [reflexivity|].
  destruct (is_punctuation c); simpl; now rewrite IH.
Qed.

(** Every character of a word of [split_words s word] is a character of [s]
    or of [word], and is not whitespace when those of [word] are not. *)
Lemma split_words_chars (P : ascii -> Prop) (s : string) (word : list ascii) :
  Forall P (list_ascii_of_string s) -> Forall P word ->
  Forall (fun w => Forall P (list_ascii_of_string w)) (split_words s word).
Proof.
  revert word; induction s as [|c s IH]; intros word Hs Hw; simpl.
  - destruct word as [|a word]; constructor; [|constructor].
    rewrite list_ascii_of_string_of_list_ascii.
    apply Forall_rev, Hw.
  - simpl in Hs. inversion Hs as [|? ? Hc Hs']; subst.
    destruct (is_space c).
    + destruct word as [|a word].
      * apply IH; [assumption|constructor].
      * constructor.
        -- rewrite list_ascii_of_string_of_list_ascii. apply Forall_rev, Hw.
        -- apply IH; [assumption|constructor].
    + apply IH; [assumption|constructor; assumption].
Qed.

Lemma split_words_are_words (s : string) (word : list ascii) :
  Forall (fun c => is_space c = false) word ->
  Forall is_word (split_words s word).
Proof.
  revert word; induction s as [|c s IH]; intros word Hw; simpl.
  - destruct word as [|a word]; constructor; [|constructor].
    split.
    + intros C. apply (f_equal list_ascii_of_string) in C.
      rewrite list_ascii_of_string_of_list_ascii in C. simpl in C.
      apply (f_equal (@length ascii)) in C.
      rewrite length_app, length_rev in C. simpl in C. lia.
    + rewrite list_ascii_of_string_of_list_ascii. apply Forall_rev, Hw.
  - destruct (is_space c) eqn:Ec.
    + destruct word as [|a word]; [apply IH; constructor|].
      constructor; [|apply IH; constructor].
      split.
      * intros C. apply (f_equal list_ascii_of_string) in C.
        rewrite list_ascii_of_string_of_list_ascii in C. simpl in C.
        apply (f_equal (@length ascii)) in C.
        rewrite length_app, length_rev in C. simpl in C. lia.
      * rewrite list_ascii_of_string_of_list_ascii. apply Forall_rev, Hw.
    + apply IH. constructor; assumption.
Qed.

(** Reading a word and what follows it. *)
Lemma split_words_app (w : list ascii) (rest : string) (word : list ascii) :
  Forall (fun c => is_space c = false) w ->
  split_words (string_of_list_ascii w ++ rest) word
  = split_words rest (rev w ++ word).
Proof.
  revert word; induction w as [|c w IH]; intros word Hw; simpl;
    [reflexivity|].
  inversion Hw as [|? ? Hc Hw']; subst. rewrite Hc, IH by assumption.
  now rewrite <- app_assoc.
Qed.

Lemma split_words_end (w : list ascii) :
  w <> [] -> Forall (fun c => is_space c = false) w ->
  split_words (string_of_list_ascii w) [] = [string_of_list_ascii w].
Proof.
  intros Hne Hw.
  assert (E : forall (l : list ascii) (word : list ascii),
            Forall (fun c => is_space c = false) l ->
            split_words (string_of_list_ascii l) word
            = split_words EmptyString (rev l ++ word)).
  { induction l as [|c l IH]; intros word Hl; [reflexivity|].
    inversion Hl as [|? ? Hc Hl']; subst. simpl. rewrite Hc, IH by assumption.
    now rewrite <- app_assoc. }
  rewrite E by assumption. rewrite app_nil_r. simpl.
  destruct (rev w) as [|a r] eqn:Er.
  - apply (f_equal (@length ascii)) in Er. rewrite length_rev in Er.
    destruct w; [contradiction|discriminate].
  - rewrite <- Er, rev_involutive. reflexivity.
Qed.

Lemma is_word_chars (w : string) :
  is_word w ->
  list_ascii_of_string w <> []
  /\ Forall (fun c => is_space c = false) (list_ascii_of_string w).
Proof.
  intros [Hne Hw]. split; [|exact Hw].
  intros C. apply Hne. rewrite <- (string_of_list_ascii_of_string w), C.
  reflexivity.
Qed.

Lemma split_words_join (words : list string) :
  Forall is_word words -> split_words (join_words words) [] = words.
Proof.
  induction 1 as [|w words Hw Hall IH]; [reflexivity|].
  destruct (is_word_chars w Hw) as [Hne Hchars].
  destruct words as [|w2 rest].
  - simpl. rewrite <- (string_of_list_ascii_of_string w) at 1.
    rewrite split_words_end by assumption.
    now rewrite string_of_list_ascii_of_string.
  - change (join_words (w :: w2 :: rest))
      with (w ++ String " " (join_words (w2 :: rest)))%string.
    rewrite <- (string_of_list_ascii_of_string w) at 1.
    rewrite split_words_app by assumption.
    rewrite app_nil_r.
    change (split_words (String " " (join_words (w2 :: rest)))
              (rev (list_ascii_of_string w)))
      with (match rev (list_ascii_of_string w) with
            | [] => split_words (join_words (w2 :: rest)) []
            | _ :: _ =>
                string_of_list_ascii (rev (rev (list_ascii_of_string w)))
                :: split_words (join_words (w2 :: rest)) []
            end).
    rewrite IH.
    destruct (rev (list_ascii_of_string w)) as [|a r] eqn:Er.
    + apply (f_equal (@length ascii)) in Er. rewrite length_rev in Er.
      destruct (list_ascii_of_string w); [contradiction|discriminate].
    + rewrite <- Er, rev_involutive, string_of_list_ascii_of_string.
      reflexivity.
Qed.

Lemma join_words_chars (P : ascii -> Prop) (words : list string) :
  P " "%char ->
  Forall (fun w => Forall P (list_ascii_of_string w)) words ->
  Forall P (list_ascii_of_string (join_words words)).
Proof.
  intros Hsp. induction 1 as [|w words Hw Hall IH]; [constructor|].
  destruct words as [|w2 rest]; [exact Hw|].
  change (join_words (w :: w2 :: rest))
    with (w ++ String " " (join_words (w2 :: rest)))%string.
  assert (E : forall a b : string,
            list_ascii_of_string (a ++ b)
            = list_ascii_of_string a ++ list_ascii_of_string b)
    by (induction a as [|c a IHa]; intros b; simpl;
        [reflexivity|now rewrite IHa]).
  rewrite E. apply Forall_app. split; [exact Hw|].
  simpl. constructor; assumption.
Qed.

Section TextTheorems.

Variable lower : string -> string.
Variable remove_urls : string -> string.
Variable stop_words : list string.

Lemma text_words_no_punctuation (text : string) :
  Forall (fun w => Forall (fun c => is_punctuation c = false)
                          (list_ascii_of_string w))
         (text_words lower remove_urls text).
Proof.
  apply split_words_chars; [|constructor].
  rewrite remove_punctuation_chars.
  apply Forall_forall. intros c Hc. apply filter_In in Hc as [_ Hc].
  now destruct (is_punctuation c).
Qed.

(** X1. [preprocess_text_st] never returns a punctuation character. *)
Theorem preprocess_removes_all_punctuation (text : PyObject) :
  Forall (fun c => is_punctuation c = false)
         (list_ascii_of_string
            (preprocess_text_st lower remove_urls stop_words text)).
Proof.
  destruct text as [text|]; [|repeat constructor].
  unfold preprocess_text_st.
  apply join_words_chars; [reflexivity|].
  pose proof (text_words_no_punctuation text) as H.
  rewrite Forall_forall in *. intros w Hw. apply H.
  apply filter_In in Hw as [Hw _]. exact Hw.
Qed.

(** X2. Splitting the result of [preprocess_text_st] gives back the words it
    kept: the words of the cleaned text that are no stop words, in their
    order; so no word of the result is a stop word, and the result is its
    own normal form (words joined by single spaces). *)
Theorem preprocess_words_round_trip (text : string) :
  split_words (preprocess_text_st lower remove_urls stop_words (PyStr text)) []
  = filter (fun word => negb (existsb (String.eqb word) stop_words))
           (text_words lower remove_urls text)
  /\ Forall (fun w => ~ In w stop_words)
            (split_words
               (preprocess_text_st lower remove_urls stop_words (PyStr text))
               [])
  /\ join_words
       (split_words
          (preprocess_text_st lower remove_urls stop_words (PyStr text)) [])
     = preprocess_text_st lower remove_urls stop_words (PyStr text).
Proof.
  assert (E : split_words
                (preprocess_text_st lower remove_urls stop_words (PyStr text))
                []
              = filter (fun word => negb (existsb (String.eqb word) stop_words))
                       (text_words lower remove_urls text)).
  { unfold preprocess_text_st. apply split_words_join.
    pose proof (split_words_are_words
                  (remove_punctuation (remove_urls (lower text))) []
                  (Forall_nil _)) as H.
    rewrite Forall_forall in *. intros w Hw. apply H.
    apply filter_In in Hw as [Hw _]. exact Hw. }
  split; [exact E|]. split.
  - rewrite E. apply Forall_forall. intros w Hw Hin.
    apply filter_In in Hw as [_ Hw].
    assert (existsb (String.eqb w) stop_words = true)
      by (apply existsb_exists; exists w; split;
          [exact Hin|apply String.eqb_refl]).
    rewrite H in Hw. discriminate.
  - rewrite E. reflexivity.
Qed.

End TextTheorems.

(** X3. A stop word with a punctuation character never matches a word of the
    text, whose punctuation is gone before the stop words are looked up:
    the list without such entries gives the same result. *)
Theorem preprocess_ignores_punctuated_stop_words
    (lower remove_urls : string -> string) (stop_words : list string)
    (text : PyObject) :
  preprocess_text_st lower remove_urls stop_words text
  = preprocess_text_st lower remove_urls
      (filter (fun w => negb (has_punctuation w)) stop_words) text.
Proof.
  destruct text as [text|]; [|reflexivity].
  unfold preprocess_text_st. f_equal.
  apply filter_ext_in. intros word Hword. f_equal.
  pose proof (text_words_no_punctuation lower remove_urls text) as Hnp.
  rewrite Forall_forall in Hnp. specialize (Hnp word Hword).
  assert (Hw : has_punctuation word = false).
  { unfold has_punctuation.
    destruct (existsb is_punctuation (list_ascii_of_string word)) eqn:E;
      [|reflexivity].
    apply existsb_exists in E as (c & Hc & Hp).
    rewrite Forall_forall in Hnp. rewrite (Hnp c Hc) in Hp. discriminate. }
  clear -Hw. induction stop_words as [|s rest IH]; [reflexivity|].
  simpl. destruct (String.eqb_spec word s) as [<-|Hne].
  - rewrite Hw. simpl. now rewrite String.eqb_refl.
  - simpl. destruct (has_punctuation s); simpl; [exact IH|].
    destruct (String.eqb_spec word s); [contradiction|]. simpl. exact IH.
Qed.

(** ** Dictionaries *)

Lemma dict_getitem_setitem_same {V : Type} (d : dict V) (k : Z) (v : V) :
  dict_getitem (dict_setitem k v d) k = Ok v.
Proof.
  induction d as [|[k' v'] d IH]; simpl.
  - now rewrite Z.eqb_refl.
  - destruct (Z.eqb_spec k' k) as [->|Hne]; simpl.
    + now rewrite Z.eqb_refl.
    + destruct (Z.eqb_spec k' k); [contradiction|exact IH].
Qed.

Lemma dict_getitem_setitem_other {V : Type} (d : dict V) (k k0 : Z) (v : V) :
  k0 <> k -> dict_getitem (dict_setitem k v d) k0 = dict_getitem d k0.
Proof.
  intros Hne. induction d as [|[k' v'] d IH]; simpl.
  - destruct (Z.eqb_spec k k0); [congruence|reflexivity].
  - destruct (Z.eqb_spec k' k) as [->|Hk]; simpl.
    + destruct (Z.eqb_spec k k0); [congruence|reflexivity].
    + destruct (Z.eqb_spec k' k0); [reflexivity|exact IH].
Qed.

Lemma dict_getitem_error {V : Type} (d : dict V) (k : Z) (e : PyExc) :
  dict_getitem d k = Raise e -> e = KeyError.
Proof.
  induction d as [|[k' v'] d IH]; simpl.
  - intros H; injection H as <-; reflexivity.
  - destruct (k' =? k)%Z; [discriminate|exact IH].
Qed.

(** The inverse table, filled from any dictionary [d]. *)
Lemma dict_invert_acc (table : list (string * Z)) (d : dict string) (v : Z) :
  (forall name, ~ In (name, v) table) ->
  dict_getitem
    (fold_left (fun d kv => dict_setitem (snd kv) (fst kv) d) table d) v
  = dict_getitem d v.
Proof.
  revert d; induction table as [|[name k] table IH]; intros d Habs;
    [reflexivity|]. simpl.
  rewrite IH by (intros n Hn; apply (Habs n); right; exact Hn).
  apply dict_getitem_setitem_other.
  intros ->. apply (Habs name). left; reflexivity.
Qed.

Lemma dict_invert_last (before after : list (string * Z)) (name : string)
    (v : Z) (d : dict string) :
  (forall name', ~ In (name', v) after) ->
  dict_getitem
    (fold_left (fun d kv => dict_setitem (snd kv) (fst kv) d)
       (before ++ (name, v) :: after) d) v
  = Ok name.
Proof.
  intros Habs. rewrite fold_left_app. simpl.
  rewrite dict_invert_acc by exact Habs.
  apply dict_getitem_setitem_same.
Qed.

(** The last pair of a table with a given value. *)
Lemma last_pair_with_value (table : list (string * Z)) (v : Z) :
  (forall name, ~ In (name, v) table)
  \/ exists before name after,
       table = before ++ (name, v) :: after
       /\ forall name', ~ In (name', v) after.
Proof.
  induction table as [|[name k] table IH]; [left; intros n []|].
  destruct IH as [Habs|(before & n & after & -> & Habs)].
  - destruct (Z.eq_dec k v) as [->|Hne].
    + right. exists [], name, table. split; [reflexivity|exact Habs].
    + left. intros n [H|H]; [congruence|exact (Habs n H)].
  - right. exists ((name, k) :: before), n, after. split; [reflexivity|].
    exact Habs.
Qed.

(** X20. The inverse of a table, as the dictionary comprehension builds it: a
    look-up returns a name the table pairs with the value; it raises
    [KeyError], and nothing else, exactly for a value the table does not
    hold; of several names with one value the last one is returned; and when
    no value occurs twice every pair of the table is found. *)
Theorem dict_invert_lookup (table : list (string * Z)) (v : Z) :
  (forall name, dict_getitem (dict_invert table) v = Ok name ->
                In (name, v) table)
  /\ (forall e, dict_getitem (dict_invert table) v = Raise e ->
                e = KeyError /\ forall name, ~ In (name, v) table)
  /\ (forall before name after,
        table = before ++ (name, v) :: after ->
        (forall name', ~ In (name', v) after) ->
        dict_getitem (dict_invert table) v = Ok name)
  /\ (NoDup (map snd table) ->
      forall name, In (name, v) table ->
                   dict_getitem (dict_invert table) v = Ok name).
Proof.
  unfold dict_invert.
  assert (Hlast : forall before name after,
            table = before ++ (name, v) :: after ->
            (forall name', ~ In (name', v) after) ->
            dict_getitem
              (fold_left (fun d kv => dict_setitem (snd kv) (fst kv) d)
                 table []) v = Ok name)
    by (intros before name after -> Habs; apply dict_invert_last, Habs).
  split; [|split; [|split; [exact Hlast|]]].
  - intros name H.
    destruct (last_pair_with_value table v)
      as [Habs|(before & n & after & E & Habs)].
    + rewrite dict_invert_acc in H by exact Habs. discriminate.
    + rewrite (Hlast _ _ _ E Habs) in H. injection H as <-.
      rewrite E. apply in_or_app. right. left. reflexivity.
  - intros e H. split; [exact (dict_getitem_error _ _ _ H)|].
    destruct (last_pair_with_value table v)
      as [Habs|(before & n & after & E & Habs)]; [exact Habs|].
    rewrite (Hlast _ _ _ E Habs) in H. discriminate.
  - intros Hnd name Hin.
    destruct (last_pair_with_value table v)
      as [Habs|(before & n & after & E & Habs)];
      [destruct (Habs name Hin)|].
    rewrite (Hlast _ _ _ E Habs). f_equal.
    (* the only pair with the value [v] is the last one *)
    subst table. rewrite map_app in Hnd. simpl in Hnd.
    apply NoDup_remove_2 in Hnd.
    apply in_app_or in Hin as [Hin|[Hin|Hin]].
    + exfalso. apply Hnd. apply in_or_app. left.
      apply in_map_iff. exists (name, v). split; [reflexivity|exact Hin].
    + now injection Hin as ->.
    + destruct (Habs name Hin).
Qed.

Lemma sentiment_map_inv_is_inverse : sentiment_map_inv = dict_invert sentiment_map.
Proof. reflexivity. Qed.

(** ** Datasets with embeddings and labels of different numbers *)

(** X4. Retrieval looks an index up in the embeddings and in the labels, each
    with its own length: it succeeds exactly for an index inside both
    ranges; a negative index counts from the end of each sequence, so that
    with fewer labels than embeddings it pairs an embedding with the label of
    another position.  An index outside the range of the embeddings raises
    [IndexError] when it fits a signed 64-bit integer and [ValueError]
    (overflow) when it does not; an index inside that range and outside the
    range of the labels raises [IndexError]. *)
Theorem getitem_indexes_each_sequence (ds : SentimentDataset) (idx : Z) :
  ((- Z.of_nat (length (embeddings ds)) <= idx
    < Z.of_nat (length (embeddings ds)))%Z
   /\ (- Z.of_nat (length (labels ds)) <= idx
       < Z.of_nat (length (labels ds)))%Z ->
   SentimentDataset_getitem ds idx
   = Ok (embedding_at ds
           (Z.to_nat (idx mod Z.of_nat (length (embeddings ds)))),
         label_at ds (Z.to_nat (idx mod Z.of_nat (length (labels ds))))))
  /\ (~ (- Z.of_nat (length (embeddings ds)) <= idx
         < Z.of_nat (length (embeddings ds)))%Z ->
      (- 2 ^ 63 <= idx < 2 ^ 63)%Z ->
      SentimentDataset_getitem ds idx = Raise IndexError)
  /\ (~ (- Z.of_nat (length (embeddings ds)) <= idx
         < Z.of_nat (length (embeddings ds)))%Z ->
      ~ (- 2 ^ 63 <= idx < 2 ^ 63)%Z ->
      SentimentDataset_getitem ds idx = Raise ValueError)
  /\ ((- Z.of_nat (length (embeddings ds)) <= idx
       < Z.of_nat (length (embeddings ds)))%Z ->
      ~ (- Z.of_nat (length (labels ds)) <= idx
         < Z.of_nat (length (labels ds)))%Z ->
      SentimentDataset_getitem ds idx = Raise IndexError).
Proof.
  unfold SentimentDataset_getitem.
  destruct (tensor_getitem_spec (embeddings ds) idx) as (He1 & He2 & He3).
  destruct (py_getitem_spec (labels ds) idx) as [Hl1 Hl2].
  split; [|split; [|split]].
  - intros [Hi Hj].
    destruct (He1 Hi) as (e & -> & Ee). destruct (Hl1 Hj) as (l & -> & El).
    simpl. unfold embedding_at, label_at.
    now rewrite (nth_error_nth _ _ _ Ee), (nth_error_nth _ _ _ El).
  - intros Hi Hf. now rewrite (He2 Hi Hf).
  - intros Hi Hf. now rewrite (He3 Hi Hf).
  - intros Hi Hj. destruct (He1 Hi) as (e & -> & _). simpl.
    now rewrite (Hl2 Hj).
Qed.

(** ** Collation of a batch *)

Lemma forallb_false_exists {X : Type} (f : X -> bool) (l : list X) :
  forallb f l = false <-> exists x, In x l /\ f x = false.
Proof.
  induction l as [|x l IH]; simpl.
  - split; [discriminate|intros (x & [] & _)].
  - rewrite andb_false_iff, IH. split.
    + intros [H|(y & Hy & Hf)]; [exists x; auto|exists y; auto].
    + intros (y & [<-|Hy] & Hf); [left; exact Hf|right; exists y; auto].
Qed.

(** X5. Fetching a batch of indices of the dataset succeeds exactly when the
    embeddings at these indices have one length, whatever the lengths
    elsewhere in the dataset are; embeddings of two lengths in one batch raise
    [RuntimeError]. *)
Theorem fetch_needs_one_length_per_batch (ds : SentimentDataset)
    (indices : list nat) :
  indices <> [] ->
  (forall i, In i indices ->
             i < length (embeddings ds) /\ i < length (labels ds)) ->
  ((forall i j, In i indices -> In j indices ->
                length (embedding_at ds i) = length (embedding_at ds j)) ->
   fetch ds indices = Ok (batch_at ds indices))
  /\ ((exists i j, In i indices /\ In j indices
                   /\ length (embedding_at ds i)
                      <> length (embedding_at ds j)) ->
      fetch ds indices = Raise RuntimeError).
Proof.
  intros Hne Hin.
  assert (Hget : mapM (fun i => SentimentDataset_getitem ds (Z.of_nat i))
                   indices
                 = Ok (map (fun i => (embedding_at ds i, label_at ds i))
                           indices))
    by (apply mapM_ok_all; intros i Hi; apply getitem_in_range;
        apply Hin, Hi).
  unfold fetch. rewrite Hget. simpl. rewrite !map_map. simpl.
  destruct indices as [|i0 rest]; [contradiction|].
  change (map (fun x => embedding_at ds x) (i0 :: rest))
    with (embedding_at ds i0 :: map (embedding_at ds) rest).
  unfold stack.
  split.
  - intros Hone.
    replace (forallb _ _) with true; [reflexivity|].
    symmetry. apply forallb_forall. intros r Hr.
    change (embedding_at ds i0 :: map (embedding_at ds) rest)
      with (map (embedding_at ds) (i0 :: rest)) in Hr.
    apply in_map_iff in Hr as (i & <- & Hi).
    apply Nat.eqb_eq, Hone; [exact Hi|left; reflexivity].
  - intros (i & j & Hi & Hj & Hdiff).
    replace (forallb _ _) with false; [reflexivity|].
    symmetry. apply forallb_false_exists.
    destruct (Nat.eq_dec (length (embedding_at ds i))
                (length (embedding_at ds i0))) as [E|E].
    + exists (embedding_at ds j). split.
      * change (embedding_at ds i0 :: map (embedding_at ds) rest)
          with (map (embedding_at ds) (i0 :: rest)).
        apply in_map, Hj.
      * apply Nat.eqb_neq. congruence.
    + exists (embedding_at ds i). split.
      * change (embedding_at ds i0 :: map (embedding_at ds) rest)
          with (map (embedding_at ds) (i0 :: rest)).
        apply in_map, Hi.
      * apply Nat.eqb_neq. exact E.
Qed.

(** ** A pass over a loader, shuffled or not *)

Section LoaderTheorems.

Context {B : Backend}.

Lemma randperm_permutation (n : nat) (g : generator) :
  Permutation (fst (randperm n g)) (seq 0 n).
Proof.
  induction n as [|n IH]; [constructor|].
  cbn [randperm].
  destruct (randperm n g) as [p g1]; cbn [fst] in IH.
  destruct (random_ g1) as [r g2]; cbn [fst].
  rewrite seq_S. cbn [Nat.add].
  etransitivity; [symmetry; apply Permutation_middle|].
  rewrite firstn_skipn.
  etransitivity; [apply Permutation_cons_append|].
  apply Permutation_app_tail, IH.
Qed.

Lemma iter_dataloader_sampler (env : Env) :
  exists sampler,
    fst (iter_dataloader env)
    = batch_sampler (batch_size (dataloader env)) [] sampler
    /\ Permutation sampler
         (seq 0 (SentimentDataset_len (dataset (dataloader env)))).
Proof.
  unfold iter_dataloader.
  destruct (random_ (rng env)) as [r0 g1].
  destruct (shuffle (dataloader env)).
  - destruct (random_ g1) as [seed g2].
    eexists; split; [reflexivity|]. apply randperm_permutation.
  - eexists; split; [reflexivity|]. apply Permutation_refl.
Qed.

Lemma map_sample_seq (ds : SentimentDataset) :
  length (labels ds) = SentimentDataset_len ds ->
  map (fun i => (embedding_at ds i, label_at ds i))
      (seq 0 (SentimentDataset_len ds))
  = combine (embeddings ds) (labels ds).
Proof.
  unfold SentimentDataset_len, embedding_at, label_at. intros Hl.
  apply nth_ext with (d := ([], 0%Z)) (d' := ([], 0%Z)).
  - rewrite length_map, length_seq, length_combine, Hl. lia.
  - intros i Hi. rewrite length_map, length_seq in Hi.
    rewrite combine_nth by (symmetry; exact Hl).
    rewrite (nth_indep _ _ (nth 0 (embeddings ds) [], nth 0 (labels ds) 0%Z))
      by (now rewrite length_map, length_seq).
    rewrite (map_nth (fun i => (nth i (embeddings ds) [],
                                nth i (labels ds) 0%Z))
               (seq 0 (length (embeddings ds))) 0 i).
    now rewrite seq_nth.
Qed.

(** X6. Every pass over a loader, shuffled or not, yields [len(dataloader)]
    batches, each full but the last, and every sample of a dataset with
    embeddings of one length exactly once, each embedding with its own
    label. *)
Theorem every_pass_visits_each_sample_once (env : Env) (d : nat) :
  0 < batch_size (dataloader env) ->
  length (labels (dataset (dataloader env)))
  = SentimentDataset_len (dataset (dataloader env)) ->
  Forall (fun e => length e = d) (embeddings (dataset (dataloader env))) ->
  exists bs : list Batch,
    mapM (fetch (dataset (dataloader env))) (fst (iter_dataloader env)) = Ok bs
    /\ Z.of_nat (length bs) = DataLoader_len (dataloader env)
    /\ Permutation
         (concat (map (fun b => combine (fst b) (snd b)) bs))
         (combine (embeddings (dataset (dataloader env)))
                  (labels (dataset (dataloader env))))
    /\ (forall i b, nth_error bs i = Some b ->
          length (fst b)
          = batch_size_at (batch_size (dataloader env))
              (SentimentDataset_len (dataset (dataloader env))) (length bs) i
          /\ length (snd b) = length (fst b)).
Proof.
  intros Hb Hl Hd.
  set (ds := dataset (dataloader env)) in *.
  destruct (iter_dataloader_sampler env) as (sampler & E & Hperm).
  fold ds in Hperm. rewrite E.
  set (batches := batch_sampler (batch_size (dataloader env)) [] sampler).
  assert (Hcat : concat batches = sampler) by apply batch_sampler_concat.
  assert (Hlen : length sampler = SentimentDataset_len ds)
    by (rewrite (Permutation_length Hperm); apply length_seq).
  pose proof (batch_sampler_sizes (batch_size (dataloader env)) sampler Hb)
    as [Hcount Hsizes].
  fold batches in Hcount, Hsizes. rewrite Hlen in Hcount, Hsizes.
  exists (map (batch_at ds) batches).
  split; [|split; [|split]].
  - apply mapM_ok_all. intros b Hin.
    apply (fetch_in_range ds d); auto.
    + pose proof (batch_sampler_nonempty (batch_size (dataloader env))
                    sampler []) as Hne.
      rewrite Forall_forall in Hne. apply Hne, Hin.
    + intros i Hi.
      assert (Hs : In i sampler)
        by (rewrite <- Hcat; apply in_concat; exists b; split; assumption).
      apply (Permutation_in _ Hperm), in_seq in Hs. lia.
  - rewrite length_map, Hcount. apply div_up_Z, Hb.
  - rewrite map_map.
    assert (Hpair : forall indices,
              combine (fst (batch_at ds indices)) (snd (batch_at ds indices))
              = map (fun i => (embedding_at ds i, label_at ds i)) indices)
      by (intros indices; unfold batch_at; simpl;
          induction indices as [|i indices IH]; simpl;
          [reflexivity|now rewrite IH]).
    rewrite (map_ext _ _ Hpair), <- concat_map, Hcat.
    rewrite <- (map_sample_seq ds Hl).
    apply Permutation_map, Hperm.
  - intros i b Hi. rewrite nth_error_map in Hi.
    destruct (nth_error batches i) as [indices|] eqn:Ei; [|discriminate].
    injection Hi as <-. simpl. rewrite !length_map.
    split; [apply Hsizes, Ei|reflexivity].
Qed.

End LoaderTheorems.

(** X7. [DataLoader] refuses exactly a batch size that is not positive and,
    when it shuffles, a dataset without samples, both with [ValueError]; the
    length of a loader it builds is the least number of batches of that size
    that hold the dataset. *)
Theorem DataLoader_init_length (ds : SentimentDataset) (bsize : Z)
    (sh : bool) :
  ((bsize <= 0)%Z \/ (sh = true /\ SentimentDataset_len ds = 0) ->
   DataLoader_init ds bsize sh = Raise ValueError)
  /\ ((0 < bsize)%Z -> sh = false \/ 0 < SentimentDataset_len ds ->
      exists dl,
        DataLoader_init ds bsize sh = Ok dl
        /\ dataset dl = ds /\ shuffle dl = sh
        /\ Z.of_nat (batch_size dl) = bsize
        /\ ((DataLoader_len dl - 1) * bsize
            < Z.of_nat (SentimentDataset_len ds)
            <= DataLoader_len dl * bsize)%Z).
Proof.
  unfold DataLoader_init. split.
  - intros [H|[-> ->]]; [|reflexivity].
    destruct (sh && (SentimentDataset_len ds =? 0)); [reflexivity|].
    destruct (Z.leb_spec bsize 0); [reflexivity|lia].
  - intros H Hs.
    assert (E : sh && (SentimentDataset_len ds =? 0) = false).
    { destruct Hs as [->|Hn]; [reflexivity|].
      destruct (Nat.eqb_spec (SentimentDataset_len ds) 0); [lia|].
      apply andb_false_r. }
    rewrite E.
    destruct (Z.leb_spec bsize 0); [lia|].
    eexists. split; [reflexivity|]. simpl.
    split; [reflexivity|]. split; [reflexivity|].
    split; [apply Z2Nat.id; lia|].
    unfold DataLoader_len. simpl. rewrite Z2Nat.id by lia.
    set (n := Z.of_nat (SentimentDataset_len ds)).
    pose proof (Z.div_mod (n + bsize - 1) bsize ltac:(lia)) as Hdm.
    pose proof (Z.mod_pos_bound (n + bsize - 1) bsize ltac:(lia)) as Hr.
    nia.
Qed.

Lemma fetch_needs_one_length_per_batch_witness :
  fetch malformed_dataset [0; 1] = Raise RuntimeError
  /\ fetch malformed_dataset [1] = Ok (batch_at malformed_dataset [1]).
Proof.
  split.
  - apply (fetch_needs_one_length_per_batch malformed_dataset [0; 1]).
    + discriminate.
    + intros i [<-|[<-|[]]]; simpl; lia.
    + exists 0, 1. simpl. repeat split; auto; lia.
  - apply (fetch_needs_one_length_per_batch malformed_dataset [1]).
    + discriminate.
    + intros i [<-|[]]; simpl; lia.
    + intros i j [<-|[]] [<-|[]]. reflexivity.
Defined.

Lemma every_pass_visits_each_sample_once_witness :
  exists bs : list Batch,
    mapM (fetch small_dataset) (fst (iter_dataloader shuffled_env)) = Ok bs
    /\ Z.of_nat (length bs) = 2%Z
    /\ Permutation
         (concat (map (fun b => combine (fst b) (snd b)) bs))
         (combine (embeddings small_dataset) (labels small_dataset))
    /\ (forall i b, nth_error bs i = Some b ->
          length (fst b) = batch_size_at 2 3 (length bs) i
          /\ length (snd b) = length (fst b)).
Proof.
  apply (every_pass_visits_each_sample_once shuffled_env 1).
  - simpl; lia.
  - reflexivity.
  - repeat constructor.
Defined.

(** ** Comprehensions that raise *)

Lemma mapM_raises {X Y : Type} (f : X -> result Y) (e : PyExc) (l : list X) :
  (forall x, In x l -> (exists y, f x = Ok y) \/ f x = Raise e) ->
  (exists x, In x l /\ f x = Raise e) ->
  mapM f l = Raise e.
Proof.
  induction l as [|x l IH]; intros Hall (x0 & Hin & Hx0); [destruct Hin|].
  simpl. destruct (Hall x (or_introl eq_refl)) as [[y Ey]|Ex];
    [|rewrite Ex; reflexivity].
  rewrite Ey. simpl.
  rewrite IH; [reflexivity| |].
  - intros z Hz. apply Hall. right; exact Hz.
  - destruct Hin as [->|Hin]; [congruence|]. exists x0; auto.
Qed.

(** ** The forward pass *)

Section ForwardTheorems.

Context {B : Backend}.

Lemma linear_wrong_width (layer : Linear) (n_in n_out : nat) (x : list float) :
  linear_shape layer n_in n_out -> length x <> n_in ->
  linear layer x = Raise RuntimeError.
Proof.
  intros (Hi & _) Hx. unfold linear. rewrite Hi.
  destruct (Nat.eqb_spec (length x) n_in); [contradiction|reflexivity].
Qed.

Lemma mapM_linear_shape (layer : Linear) (n_in n_out : nat)
    (rows : list (list float)) :
  linear_shape layer n_in n_out ->
  Forall (fun x => length x = n_in) rows ->
  exists out, mapM (linear layer) rows = Ok out
              /\ length out = length rows
              /\ Forall (fun y => length y = n_out) out.
Proof.
  intros Hs. induction 1 as [|x rows Hx _ (out & E & Hlen & Hall)].
  - exists []. repeat split; constructor.
  - destruct (linear_in_shape layer n_in n_out x Hs Hx) as (y & Ey & Hy).
    exists (y :: out). simpl. rewrite Ey, E. simpl.
    repeat split; [now rewrite Hlen|constructor; assumption].
Qed.

(** X8. In evaluation mode a head of shape (D, H, C) turns a batch of
    embeddings of length D into as many rows of C logits and leaves the
    generator alone. *)
Theorem forward_eval_mode_shapes (self : SentimentClassifier)
    (embedding_dim hidden_dim output_dim : nat) (g : generator)
    (embedding : list Embedding) :
  classifier_shape self embedding_dim hidden_dim output_dim ->
  training self = false ->
  Forall (fun e => length e = embedding_dim) embedding ->
  exists out,
    forward self g embedding = (Ok out, g)
    /\ length out = length embedding
    /\ Forall (fun logits => length logits = output_dim) out.
Proof.
  intros [H1 H2] Hmode Hemb.
  destruct (mapM_linear_shape _ _ _ _ H1 Hemb) as (h & Eh & Hh & Hall).
  assert (Hrelu : Forall (fun x => length x = hidden_dim) (map (map relu) h)).
  { rewrite Forall_forall in *. intros x Hx.
    apply in_map_iff in Hx as (x' & <- & Hx'). rewrite length_map.
    apply Hall, Hx'. }
  destruct (mapM_linear_shape _ _ _ _ H2 Hrelu) as (out & Eo & Ho & Hout).
  exists out. unfold forward. rewrite Eh, Hmode, Eo.
  split; [reflexivity|]. split; [|exact Hout].
  now rewrite Ho, length_map.
Qed.

(** X9. In either mode a batch with an embedding of another length than the
    head's input width raises [RuntimeError] in the first layer, before any
    random number is drawn. *)
Theorem forward_rejects_other_width (self : SentimentClassifier)
    (embedding_dim hidden_dim output_dim : nat) (g : generator)
    (embedding : list Embedding) :
  classifier_shape self embedding_dim hidden_dim output_dim ->
  0 < hidden_dim ->
  Exists (fun e => length e <> embedding_dim) embedding ->
  forward self g embedding = (Raise RuntimeError, g).
Proof.
  intros [H1 _] Hh Hex. unfold forward.
  rewrite (mapM_raises (linear (fc1 self)) RuntimeError); [reflexivity| |].
  - intros x _.
    destruct (Nat.eq_dec (length x) embedding_dim) as [E|E].
    + destruct (linear_in_shape _ _ _ x H1 E) as (y & Ey & _).
      left; exists y; exact Ey.
    + right. apply (linear_wrong_width _ _ _ _ H1 E).
  - apply Exists_exists in Hex as (x & Hin & Hx).
    exists x. split; [exact Hin|].
    apply (linear_wrong_width _ _ _ _ H1 Hx).
Qed.

End ForwardTheorems.

(** ** Edge cases of calculate_accuracy *)

Lemma torch_max_empty_row (predictions : list (list float)) :
  Exists (fun row => row = []) predictions ->
  torch_max predictions = Raise IndexError.
Proof.
  intros Hex. unfold torch_max.
  rewrite (mapM_raises torch_max_row IndexError); [reflexivity| |].
  - intros row _. destruct row as [|x0 row]; [right; reflexivity|].
    left. eexists. reflexivity.
  - apply Exists_exists in Hex as (row & Hin & ->).
    exists []. split; [exact Hin|reflexivity].
Qed.

Lemma torch_max_classes (predictions : list (list float)) :
  Forall (fun row => row <> []) predictions ->
  exists values classes,
    torch_max predictions = Ok (values, classes)
    /\ length classes = length predictions
    /\ Forall2 first_argmax predictions classes.
Proof.
  intros Hrows.
  destruct (torch_max_spec predictions Hrows) as (rows & E & Hall).
  exists (map fst rows), (map snd rows).
  split; [unfold torch_max; rewrite E; reflexivity|].
  split; [rewrite length_map; apply (mapM_length _ _ _ E)|].
  clear -Hall. induction Hall as [|row r predictions rows [Ha _] _ IH];
    simpl; constructor; assumption.
Qed.

(** X10. The errors of [calculate_accuracy]: a row without scores raises
    [IndexError]; predictions and labels of different numbers, neither of
    them one, raise [RuntimeError]; no labels (with at most one row of
    predictions) raise [ZeroDivisionError]. *)
Theorem calculate_accuracy_errors (predictions : list (list float))
    (labels : list Z) :
  (Exists (fun row => row = []) predictions ->
   calculate_accuracy predictions labels = Raise IndexError)
  /\ (Forall (fun row => row <> []) predictions ->
      length predictions <> length labels ->
      length predictions <> 1 -> length labels <> 1 ->
      calculate_accuracy predictions labels = Raise RuntimeError)
  /\ (Forall (fun row => row <> []) predictions ->
      labels = [] -> length predictions <= 1 ->
      calculate_accuracy predictions labels = Raise ZeroDivisionError).
Proof.
  split; [|split].
  - intros Hex. unfold calculate_accuracy.
    now rewrite torch_max_empty_row.
  - intros Hrows Hne Hp Hl.
    destruct (torch_max_classes predictions Hrows)
      as (values & classes & E & Hlen & _).
    unfold calculate_accuracy. rewrite E. simpl.
    unfold tensor_eq. rewrite length_map, Hlen.
    destruct (Nat.eqb_spec (length predictions) (length labels));
      [contradiction|].
    destruct classes as [|k [|k' classes]]; simpl in *;
      [|lia|].
    + destruct labels as [|l [|l' labels]]; simpl in *; try lia; reflexivity.
    + destruct labels as [|l [|l' labels]]; simpl in *; try lia; reflexivity.
  - intros Hrows -> Hp.
    destruct (torch_max_classes predictions Hrows)
      as (values & classes & E & Hlen & _).
    unfold calculate_accuracy. rewrite E. simpl.
    destruct classes as [|k [|k' classes]]; simpl in *; try lia; reflexivity.
Qed.

(** X11. One label against several rows of predictions is no error: the label is
    compared with the class of every row, and the result is the number of
    rows that predict it, divided by one. *)
Theorem calculate_accuracy_broadcasts_one_label
    (predictions : list (list float)) (label : Z) :
  Forall (fun row => row <> []) predictions ->
  predictions <> [] ->
  exists values classes,
    torch_max predictions = Ok (values, classes)
    /\ Forall2 first_argmax predictions classes
    /\ calculate_accuracy predictions [label]
       = Ok (torch_tensor
               (f64_div
                  (f64_of_Z
                     (Z.of_nat
                        (length (filter (fun k => (Z.of_nat k =? label)%Z)
                                        classes))))
                  (f64_of_Z 1))).
Proof.
  intros Hrows Hne.
  destruct (torch_max_classes predictions Hrows)
    as (values & classes & E & Hlen & Hall).
  exists values, classes. split; [exact E|]. split; [exact Hall|].
  unfold calculate_accuracy. rewrite E. simpl.
  assert (Heq : tensor_eq (map Z.of_nat classes) [label]
                = Ok (map (fun k => (Z.of_nat k =? label)%Z) classes)).
  { unfold tensor_eq. rewrite length_map.
    destruct classes as [|k [|k' classes]].
    - destruct predictions; [contradiction|discriminate].
    - reflexivity.
    - simpl. rewrite map_map. reflexivity. }
  rewrite Heq. simpl. unfold tensor_sum, int_truediv. simpl.
  now rewrite filter_map_true.
Qed.

Lemma calculate_accuracy_broadcasts_one_label_witness :
  exists values classes,
    torch_max same_class_predictions = Ok (values, classes)
    /\ Forall2 first_argmax same_class_predictions classes
    /\ calculate_accuracy same_class_predictions [1%Z]
       = Ok (torch_tensor
               (f64_div
                  (f64_of_Z
                     (Z.of_nat
                        (length (filter (fun k => (Z.of_nat k =? 1)%Z)
                                        classes))))
                  (f64_of_Z 1))).
Proof.
  apply (calculate_accuracy_broadcasts_one_label same_class_predictions 1).
  - repeat constructor; discriminate.
  - discriminate.
Defined.

Lemma forward_eval_mode_shapes_witness :
  exists out,
    @forward sequential_backend (small_model (f32_of_Z 1)) [5]
      (embeddings small_dataset)
    = (Ok out, [5])
    /\ length out = 3
    /\ Forall (fun logits => length logits = 3) out.
Proof.
  apply (@forward_eval_mode_shapes sequential_backend
           (small_model (f32_of_Z 1)) 1 1 3 [5] (embeddings small_dataset)).
  - repeat split; repeat constructor.
  - reflexivity.
  - repeat constructor.
Defined.

Lemma forward_rejects_other_width_witness :
  @forward sequential_backend (small_model (f32_of_Z 1)) [5]
    malformed_embeddings
  = (Raise RuntimeError, [5]).
Proof.
  apply (@forward_rejects_other_width sequential_backend
           (small_model (f32_of_Z 1)) 1 1 3 [5] malformed_embeddings).
  - repeat split; repeat constructor.
  - lia.
  - apply Exists_cons_tl, Exists_cons_hd. simpl. lia.
Defined.

Section ExactQuotients.

Local Open Scope Z_scope.

Lemma f64_div_same (n : positive) :
  Zpos n < 2 ^ 53 -> f64_div (f64_normal n) (f64_normal n) = f64_one.
Proof.
  intros Hn.
  destruct (f64_normal_mantissa n Hn) as (Emn & Dmn & Hdn).
  unfold f64_div, SFdiv, f64_normal, SFdiv_core_binary.
  set (dn := Zpos (digits2_pos n)) in *.
  set (mn := Z.to_pos (Zpos n * 2 ^ (53 - dn))) in *.
  rewrite Emn, Dmn.
  replace (53 + (dn - 53) - (53 + (dn - 53))) with 0 by lia.
  replace (dn - 53 - (dn - 53)) with 0 by lia.
  change (fexp 53 1024 0) with (-53).
  change (IntDef.Z.min (-53) 0) with (-53).
  change (0 - -53) with 53.
  rewrite <- Emn.
  cbv beta iota zeta.
  rewrite Z.shiftl_mul_pow2 by lia.
  pose proof (Z_div_mod (Zpos mn * 2 ^ 53) (Zpos mn) ltac:(lia)) as Hdiv.
  destruct (Z.div_eucl (Zpos mn * 2 ^ 53) (Zpos mn)) as [q r].
  destruct Hdiv as [Hqr Hr].
  assert (Hq : q = 2 ^ 53) by nia.
  assert (Hr0 : r = 0) by nia.
  subst q r. rewrite new_location_exact.
  reflexivity.
Qed.

End ExactQuotients.

(** ** The end points of the accuracy *)

Lemma tensor_eq_same_length (a b : list Z) :
  length a = length b ->
  tensor_eq a b = Ok (map (fun p => (fst p =? snd p)%Z) (combine a b)).
Proof.
  intros H. unfold tensor_eq. now rewrite H, Nat.eqb_refl.
Qed.

Lemma tensor_sum_all (a b : list Z) :
  Forall2 eq a b ->
  tensor_sum (map (fun p => (fst p =? snd p)%Z) (combine a b))
  = Z.of_nat (length b).
Proof.
  unfold tensor_sum. intros H. f_equal.
  induction H as [|x y a b -> _ IH]; [reflexivity|].
  simpl. rewrite Z.eqb_refl. simpl. now rewrite IH.
Qed.

Lemma tensor_sum_none (a b : list Z) :
  Forall2 (fun x y => x <> y) a b ->
  tensor_sum (map (fun p => (fst p =? snd p)%Z) (combine a b)) = 0%Z.
Proof.
  unfold tensor_sum. intros H.
  induction H as [|x y a b Hxy _ IH]; [reflexivity|].
  simpl. apply Z.eqb_neq in Hxy. rewrite Hxy. exact IH.
Qed.

Lemma Forall2_classes {X : Type} (P : X -> nat -> Prop) (Q : Z -> Z -> Prop)
    (R : X -> Z -> Prop) (rows : list X) (classes : list nat)
    (labels : list Z) :
  (forall row k l, P row k -> R row l -> Q (Z.of_nat k) l) ->
  Forall2 P rows classes -> Forall2 R rows labels ->
  Forall2 Q (map Z.of_nat classes) labels.
Proof.
  intros HPR HP. revert labels.
  induction HP as [|row k rows classes Hk _ IH]; intros labels HR;
    inversion HR; subst; simpl; constructor; eauto.
Qed.

(** X12. When the first largest score of every row is at the row's label the
    accuracy is exactly 1.0, and when it is so in no row the accuracy is
    exactly 0.0: the two end points carry no rounding error. *)
Theorem calculate_accuracy_end_points (predictions : list (list float))
    (labels : list Z) :
  labels <> [] ->
  (Z.of_nat (length labels) < 2 ^ 53)%Z ->
  (Forall2 (fun row label => exists k, first_argmax row k /\ Z.of_nat k = label)
           predictions labels ->
   calculate_accuracy predictions labels = Ok f32_one)
  /\ (Forall2 (fun row label => row <> []
                                /\ forall k, first_argmax row k ->
                                             Z.of_nat k <> label)
              predictions labels ->
      calculate_accuracy predictions labels = Ok f_zero).
Proof.
  intros Hne Hbig.
  assert (Hn : exists n, Z.of_nat (length labels) = Zpos n).
  { destruct labels as [|l labels]; [contradiction|].
    exists (Pos.of_succ_nat (length labels)). simpl. reflexivity. }
  destruct Hn as (n & Hn).
  assert (Hz : (Z.of_nat (length labels) =? 0)%Z = false)
    by (rewrite Hn; reflexivity).
  split; intros Hall.
  - assert (Hrows : Forall (fun row => row <> []) predictions).
    { clear -Hall. induction Hall as [|row l ? ? (k & [Hk _] & _) _ IH];
        constructor; [|exact IH].
      intros ->. simpl in Hk. lia. }
    destruct (torch_max_classes predictions Hrows)
      as (values & classes & E & Hlen & Hcls).
    assert (Heq : Forall2 eq (map Z.of_nat classes) labels).
    { refine (Forall2_classes _ _ _ _ _ _ _ Hcls Hall).
      intros row k l Hk (k' & Hk' & <-).
      f_equal. apply (first_argmax_unique row); assumption. }
    unfold calculate_accuracy. rewrite E. cbn [rbind snd].
    rewrite tensor_eq_same_length
      by (rewrite length_map, Hlen; apply (Forall2_length Hall)).
    cbn [rbind]. rewrite (tensor_sum_all _ _ Heq).
    unfold int_truediv. rewrite Hz, Hn. cbn [rbind].
    rewrite (f64_of_Z_small n) by (rewrite <- Hn; exact Hbig).
    rewrite f64_div_same by (rewrite <- Hn; exact Hbig).
    reflexivity.
  - assert (Hrows : Forall (fun row => row <> []) predictions).
    { clear -Hall. induction Hall as [|row l ? ? [Hrow _] _ IH];
        constructor; assumption. }
    destruct (torch_max_classes predictions Hrows)
      as (values & classes & E & Hlen & Hcls).
    assert (Heq : Forall2 (fun x y => x <> y) (map Z.of_nat classes) labels).
    { refine (Forall2_classes _ _ _ _ _ _ _ Hcls Hall).
      intros row k l Hk [_ Hl]. apply Hl, Hk. }
    unfold calculate_accuracy. rewrite E. cbn [rbind snd].
    rewrite tensor_eq_same_length
      by (rewrite length_map, Hlen; apply (Forall2_length Hall)).
    cbn [rbind]. rewrite (tensor_sum_none _ _ Heq).
    unfold int_truediv. rewrite Hz, Hn. cbn [rbind].
    rewrite (f64_of_Z_small n) by (rewrite <- Hn; exact Hbig).
    reflexivity.
Qed.

Lemma calculate_accuracy_end_points_witness :
  calculate_accuracy same_class_predictions [1%Z; 1%Z; 1%Z] = Ok f32_one
  /\ calculate_accuracy same_class_predictions [0%Z; 2%Z; 0%Z] = Ok f_zero.
Proof.
  assert (H : forall row, In row same_class_predictions -> first_argmax row 1).
  { intros row [<-|[<-|[<-|[]]]]; repeat split; try (simpl; lia);
      intros j Hj; simpl in Hj;
      do 3 (destruct j as [|j]; [try reflexivity; lia|]); lia. }
  split.
  - apply (calculate_accuracy_end_points same_class_predictions
             [1%Z; 1%Z; 1%Z]); [discriminate|simpl; lia|].
    repeat constructor; exists 1;
      (split; [apply H; simpl; auto|reflexivity]).
  - apply (calculate_accuracy_end_points same_class_predictions
             [0%Z; 2%Z; 0%Z]); [discriminate|simpl; lia|].
    assert (Hk : forall row k, In row same_class_predictions ->
                               first_argmax row k -> k = 1)
      by (intros row k Hin Hk;
          apply (first_argmax_unique row k 1 Hk (H row Hin))).
    repeat apply Forall2_cons; try apply Forall2_nil;
      (split; [discriminate|]); intros k Hk';
      apply Hk in Hk'; try (simpl; auto; fail); subst k; discriminate.
Defined.

(** ** What an epoch of training keeps and what it discards *)

Section TrainTheorems.

Context {B : Backend}.

Lemma zero_grad_fields (env1 env2 : Env) :
  zero_grad env1 = zero_grad env2 ->
  model env1 = model env2 /\ dataloader env1 = dataloader env2
  /\ optimizer env1 = optimizer env2 /\ rng env1 = rng env2.
Proof.
  intros H. repeat split.
  - exact (f_equal model H).
  - exact (f_equal dataloader H).
  - exact (f_equal optimizer H).
  - exact (f_equal rng H).
Qed.

Lemma train_step_zero_grad (criterion : Criterion) (indices : list nat)
    (env1 env2 : Env) :
  zero_grad env1 = zero_grad env2 ->
  fst (train_step criterion indices env1)
  = fst (train_step criterion indices env2)
  /\ zero_grad (snd (train_step criterion indices env1))
     = zero_grad (snd (train_step criterion indices env2)).
Proof.
  intros H. destruct (zero_grad_fields _ _ H) as (_ & Hd & _ & _).
  unfold train_step. rewrite Hd, H.
  destruct (fetch (dataset (dataloader env2)) indices) as [[eb lb]|e];
    [|split; [reflexivity|exact H]].
  split; reflexivity.
Qed.

Lemma train_trace_zero_grad (criterion : Criterion)
    (batches : list (list nat)) (env1 env2 : Env) :
  zero_grad env1 = zero_grad env2 ->
  fst (train_trace criterion batches env1)
  = fst (train_trace criterion batches env2)
  /\ zero_grad (snd (train_trace criterion batches env1))
     = zero_grad (snd (train_trace criterion batches env2)).
Proof.
  revert env1 env2; induction batches as [|indices rest IH];
    intros env1 env2 H; [split; [reflexivity|exact H]|].
  cbn [train_trace].
  destruct (train_step_zero_grad criterion indices env1 env2 H) as [Hr He].
  destruct (train_step criterion indices env1) as [r1 e1].
  destruct (train_step criterion indices env2) as [r2 e2].
  cbn [fst snd] in Hr, He. subst r2.
  destruct r1 as [m|e]; [|split; [reflexivity|exact He]].
  destruct (IH e1 e2 He) as [Hr' He'].
  destruct (train_trace criterion rest e1) as [rs1 f1].
  destruct (train_trace criterion rest e2) as [rs2 f2].
  cbn [fst snd] in *. subst rs2. split; [reflexivity|exact He'].
Qed.

Lemma iter_dataloader_zero_grad (env1 env2 : Env) :
  zero_grad env1 = zero_grad env2 ->
  fst (iter_dataloader env1) = fst (iter_dataloader env2)
  /\ zero_grad (snd (iter_dataloader env1))
     = zero_grad (snd (iter_dataloader env2)).
Proof.
  intros H. destruct (zero_grad_fields _ _ H) as (_ & Hd & _ & Hg).
  unfold iter_dataloader. rewrite Hd, Hg.
  destruct (random_ (rng env2)) as [r0 g1].
  destruct (shuffle (dataloader env2)).
  - destruct (random_ g1) as [seed g2]. split; [reflexivity|].
    exact (f_equal (set_rng g2) H).
  - split; [reflexivity|]. exact (f_equal (set_rng g1) H).
Qed.

(** X13. [train] starts every batch with [optimizer.zero_grad()]: gradients left
    by earlier calls change neither what it returns nor the model, the
    optimizer state and the generator it leaves. *)
Theorem train_discards_earlier_gradients (criterion : Criterion)
    (env : Env) (earlier : option gradients) :
  fst (train criterion (set_grad earlier env)) = fst (train criterion env)
  /\ model (snd (train criterion (set_grad earlier env)))
     = model (snd (train criterion env))
  /\ optimizer (snd (train criterion (set_grad earlier env)))
     = optimizer (snd (train criterion env))
  /\ rng (snd (train criterion (set_grad earlier env)))
     = rng (snd (train criterion env)).
Proof.
  rewrite !train_unfold.
  assert (H0 : zero_grad (set_training true (set_grad earlier env))
               = zero_grad (set_training true env)) by reflexivity.
  destruct (iter_dataloader_zero_grad _ _ H0) as [Hb He].
  destruct (iter_dataloader (set_training true (set_grad earlier env)))
    as [b1 e1].
  destruct (iter_dataloader (set_training true env)) as [b2 e2].
  cbn [fst snd] in Hb, He. subst b2.
  destruct (train_trace_zero_grad criterion b1 e1 e2 He) as [Hr Hf].
  destruct (train_trace criterion b1 e1) as [r1 f1].
  destruct (train_trace criterion b1 e2) as [r2 f2].
  cbn [fst snd] in *. subst r2.
  destruct (zero_grad_fields _ _ Hf) as (Hm & _ & Ho & Hg).
  repeat split; assumption.
Qed.

(** *** An exception in the middle of an epoch *)

Lemma train_trace_app (criterion : Criterion) (pre rest : list (list nat))
    (env : Env) :
  train_trace criterion (pre ++ rest) env
  = (let (r, env1) := train_trace criterion pre env in
     match r with
     | Raise e => (Raise e, env1)
     | Ok ms =>
         let (rs, env2) := train_trace criterion rest env1 in
         (ms' <- rs ;; Ok (ms ++ ms'), env2)
     end).
Proof.
  revert env; induction pre as [|indices pre IH]; intros env.
  - cbn [app train_trace].
    destruct (train_trace criterion rest env) as [[ms|e] env2]; reflexivity.
  - cbn [app train_trace].
    destruct (train_step criterion indices env) as [[m|e] env1];
      [|reflexivity].
    rewrite IH.
    destruct (train_trace criterion pre env1) as [[ms|e] env2];
      [|reflexivity].
    destruct (train_trace criterion rest env2) as [[ms'|e] env3]; reflexivity.
Qed.

Lemma train_step_raises (criterion : Criterion) (indices : list nat)
    (env : Env) (e : PyExc) :
  fst (train_step criterion indices env) = Raise e ->
  model (snd (train_step criterion indices env)) = model env
  /\ optimizer (snd (train_step criterion indices env)) = optimizer env.
Proof.
  unfold train_step.
  destruct (fetch (dataset (dataloader env)) indices) as [[eb lb]|e'];
    [|split; reflexivity].
  unfold call_model.
  destruct (forward (model (zero_grad env)) (rng (zero_grad env)) eb)
    as [[p|e'] g]; [|split; reflexivity].
  destruct (criterion p lb) as [loss|e']; [|split; reflexivity].
  destruct (calculate_accuracy p lb) as [a|e']; [|split; reflexivity].
  discriminate.
Qed.

(** X14. An exception in a batch ends the epoch with that exception and no
    metrics.  The updates of the batches before it stay: the model and the
    optimizer state that [train] leaves are those after the last batch that
    went through, and the failing batch changes neither. *)
Theorem train_stops_at_failing_batch (criterion : Criterion) (env : Env)
    (done : list (list nat)) (failing : list nat) (rest : list (list nat))
    (ms : list (float * float)) (env1 : Env) (e : PyExc) :
  epoch_batches true env = done ++ failing :: rest ->
  train_trace criterion done (epoch_start true env) = (Ok ms, env1) ->
  fst (train_step criterion failing env1) = Raise e ->
  fst (train criterion env) = Raise e
  /\ model (snd (train criterion env)) = model env1
  /\ optimizer (snd (train criterion env)) = optimizer env1.
Proof.
  intros Hb Hdone Hfail.
  rewrite train_by_trace, Hb, train_trace_app, Hdone.
  cbn [train_trace].
  destruct (train_step_raises criterion failing env1 e Hfail) as [Hm Ho].
  destruct (train_step criterion failing env1) as [r env2].
  cbn [fst snd] in *. subst r. cbn [fst snd rbind].
  repeat split; assumption.
Qed.

(** *** The mode an epoch leaves *)

Lemma train_step_mode (criterion : Criterion) (indices : list nat)
    (env : Env) :
  training (model (snd (train_step criterion indices env)))
  = training (model env)
  /\ dropout_p (model (snd (train_step criterion indices env)))
     = dropout_p (model env).
Proof.
  unfold train_step.
  destruct (fetch (dataset (dataloader env)) indices) as [[eb lb]|e];
    [|split; reflexivity].
  unfold call_model.
  destruct (forward (model (zero_grad env)) (rng (zero_grad env)) eb)
    as [[p|e] g]; [|split; reflexivity].
  destruct (criterion p lb) as [loss|e]; [|split; reflexivity].
  destruct (calculate_accuracy p lb) as [a|e]; [|split; reflexivity].
  unfold step, loss_backward; simpl.
  destruct (optimizer_step _ _ _) as [o [l1 l2]]. split; reflexivity.
Qed.

Lemma train_trace_mode (criterion : Criterion) (batches : list (list nat))
    (env : Env) :
  training (model (snd (train_trace criterion batches env)))
  = training (model env)
  /\ dropout_p (model (snd (train_trace criterion batches env)))
     = dropout_p (model env).
Proof.
  revert env; induction batches as [|indices rest IH]; intros env;
    [split; reflexivity|]. cbn [train_trace].
  pose proof (train_step_mode criterion indices env) as [H1 H2].
  destruct (train_step criterion indices env) as [[m|e] env1];
    cbn [fst snd] in *; [|split; assumption].
  pose proof (IH env1) as [H3 H4].
  destruct (train_trace criterion rest env1) as [rs env2]; cbn [fst snd] in *.
  split; congruence.
Qed.

(** X15. Whether it returns or raises, [train] leaves the model in training
    mode, with the dropout probability and the loader it was given: a
    forward pass made right after it applies dropout and draws from the
    generator. *)
Theorem train_leaves_training_mode (criterion : Criterion) (env : Env) :
  training (model (snd (train criterion env))) = true
  /\ dropout_p (model (snd (train criterion env))) = dropout_p (model env)
  /\ dataloader (snd (train criterion env)) = dataloader env
  /\ (forall g embedding out,
        mapM (linear (fc1 (model (snd (train criterion env))))) embedding
        = Ok out ->
        forward (model (snd (train criterion env))) g embedding
        = (let (dropped, g') :=
             dropout_train (dropout_p (model env)) g (map (map relu) out) in
           (mapM (linear (fc2 (model (snd (train criterion env))))) dropped,
            g'))).
Proof.
  rewrite train_by_trace. cbn [snd].
  destruct (epoch_batches_spec true env) as (s & g & _ & S & _).
  pose proof (train_trace_mode criterion (epoch_batches true env)
                (epoch_start true env)) as [Hm Hp].
  pose proof (train_trace_dataloader criterion (epoch_batches true env)
                (epoch_start true env)) as Hd.
  rewrite S in Hm, Hp, Hd. rewrite S.
  cbn in Hm, Hp, Hd.
  split; [exact Hm|]. split; [exact Hp|]. split; [exact Hd|].
  intros g0 embedding out Hout. unfold forward. rewrite Hout, Hm, Hp.
  reflexivity.
Qed.

End TrainTheorems.

Lemma train_stops_at_failing_batch_witness :
  fst (train nll_loss late_failure_env) = Raise IndexError
  /\ model (snd (train nll_loss late_failure_env))
     = model (set_training true late_failure_env)
  /\ optimizer (snd (train nll_loss late_failure_env)) = 1.
Proof.
  apply (train_stops_at_failing_batch nll_loss late_failure_env
           [[0; 1]] [2] []
           [(S754_finite true 4503599627370496 (-52), f64_one)]
           (@Build_Env sequential_backend
              (model (set_training true late_failure_env))
              (dataloader late_failure_env) 1 (Some tt) [])).
  - vm_compute. reflexivity.
  - vm_compute. reflexivity.
  - vm_compute. reflexivity.
Defined.

(** ** predict_sentiment with any table and any head *)

Lemma dict_getitem_missing {V : Type} (d : dict V) (k : Z) :
  dict_getitem d k = Raise KeyError <-> ~ In k (map fst d).
Proof.
  induction d as [|[k' v'] d IH]; simpl.
  - split; [intros _ []|reflexivity].
  - destruct (Z.eqb_spec k' k) as [->|Hne].
    + split; [discriminate|]. intros H. exfalso. apply H. now left.
    + rewrite IH. split; [intros H [E|Hin]; [contradiction|auto]|auto].
Qed.

Section PredictTableTheorems.

Context {B : Backend}.

Variable lower : string -> string.
Variable remove_urls : string -> string.
Variable stop_words : list string.

Lemma predict_sentiment_eval (encode : string -> Embedding)
    (sentence : PyObject) (table : dict string) (env : Env) :
  predict_sentiment lower remove_urls stop_words encode sentence table env
  = (prediction <-
       forward_eval (model env)
         [encode (preprocess_text_st lower remove_urls stop_words sentence)] ;;
     mx <- torch_max prediction ;;
     match snd mx with
     | [predicted_sentiment_index] =>
         dict_getitem table (Z.of_nat predicted_sentiment_index)
     | _ => Raise RuntimeError
     end, set_training false env).
Proof.
  unfold predict_sentiment.
  rewrite call_model_in_eval_mode by reflexivity. reflexivity.
Qed.

(** X17. With a head of any number of classes and any table, [predict_sentiment]
    looks up the lowest index of a greatest logit: it returns the table's
    entry for it, raises [KeyError] (and nothing else) exactly when the
    table has no such key, and changes nothing but the mode of the model,
    which it leaves in evaluation mode. *)
Theorem predict_sentiment_reads_table (encode : string -> Embedding)
    (sentence : PyObject) (table : dict string) (env : Env)
    (embedding_dim hidden_dim output_dim : nat) :
  classifier_shape (model env) embedding_dim hidden_dim output_dim ->
  0 < output_dim ->
  length (encode (preprocess_text_st lower remove_urls stop_words sentence))
  = embedding_dim ->
  exists (logits : list float) (k : nat),
    forward_eval (model env)
      [encode (preprocess_text_st lower remove_urls stop_words sentence)]
    = Ok [logits]
    /\ length logits = output_dim
    /\ first_argmax logits k
    /\ fst (predict_sentiment lower remove_urls stop_words encode sentence
              table env) = dict_getitem table (Z.of_nat k)
    /\ (forall e,
          fst (predict_sentiment lower remove_urls stop_words encode sentence
                 table env) = Raise e
          <-> e = KeyError /\ ~ In (Z.of_nat k) (map fst table))
    /\ snd (predict_sentiment lower remove_urls stop_words encode sentence
              table env) = set_training false env.
Proof.
  intros [H1 H2] Hc Henc.
  set (x := encode (preprocess_text_st lower remove_urls stop_words sentence))
    in *.
  destruct (linear_in_shape _ _ _ x H1 Henc) as (h & Eh & Hh).
  destruct (linear_in_shape (fc2 (model env)) hidden_dim output_dim
              (map relu h) H2 ltac:(now rewrite length_map)) as (y & Ey & Hy).
  assert (Hfw : forward_eval (model env) [x] = Ok [y])
    by (unfold forward_eval; simpl; rewrite Eh; simpl; rewrite Ey;
        reflexivity).
  assert (Hne : y <> []) by (intros ->; simpl in Hy; lia).
  destruct (torch_max_row_spec y Hne) as (v & k & Ek & Harg & _).
  exists y, k. rewrite predict_sentiment_eval. fold x. rewrite Hfw.
  cbn [rbind fst snd]. unfold torch_max. cbn [mapM]. rewrite Ek.
  cbn [rbind fst snd map].
  split; [reflexivity|]. split; [exact Hy|]. split; [exact Harg|].
  split; [reflexivity|]. split; [|reflexivity].
  intros e. split.
  - intros He. pose proof (dict_getitem_error _ _ _ He) as ->.
    split; [reflexivity|]. apply dict_getitem_missing, He.
  - intros [-> Hk]. apply dict_getitem_missing, Hk.
Qed.

(** X18. An encoder whose vectors have another length than the head's input
    width makes [predict_sentiment] raise [RuntimeError], whatever the
    widths of the head are; the model is left in evaluation mode. *)
Theorem predict_sentiment_rejects_other_width (encode : string -> Embedding)
    (sentence : PyObject) (table : dict string) (env : Env)
    (embedding_dim hidden_dim output_dim : nat) :
  classifier_shape (model env) embedding_dim hidden_dim output_dim ->
  length (encode (preprocess_text_st lower remove_urls stop_words sentence))
  <> embedding_dim ->
  predict_sentiment lower remove_urls stop_words encode sentence table env
  = (Raise RuntimeError, set_training false env).
Proof.
  intros [H1 _] Henc. rewrite predict_sentiment_eval.
  unfold forward_eval. cbn [mapM].
  rewrite (linear_wrong_width _ _ _ _ H1 Henc). reflexivity.
Qed.

(** X19. The prediction depends on the two layers of the head only: not on the
    mode the model was in, its dropout probability, the generator, the
    gradients, the optimizer or the loader. *)
Theorem predict_sentiment_reads_weights_only (encode : string -> Embedding)
    (sentence : PyObject) (table : dict string) (env1 env2 : Env) :
  fc1 (model env1) = fc1 (model env2) ->
  fc2 (model env1) = fc2 (model env2) ->
  fst (predict_sentiment lower remove_urls stop_words encode sentence table
         env1)
  = fst (predict_sentiment lower remove_urls stop_words encode sentence table
           env2).
Proof.
  intros E1 E2. rewrite !predict_sentiment_eval. cbn [fst].
  unfold forward_eval. rewrite E1, E2. reflexivity.
Qed.

End PredictTableTheorems.

(** A table without the class 1 that the head of [demo_env] predicts. *)
Lemma predict_sentiment_reads_table_witness :
  exists (logits : list float) (k : nat),
    @forward_eval sequential_backend (model demo_env)
      [demo_encode (preprocess_text_st (fun s => s) (fun s => s) []
                      (PyStr "good film"))]
    = Ok [logits]
    /\ length logits = 3
    /\ first_argmax logits k
    /\ fst (predict_sentiment (fun s => s) (fun s => s) [] demo_encode
              (PyStr "good film") [(0%Z, "negative"%string)] demo_env)
       = dict_getitem [(0%Z, "negative"%string)] (Z.of_nat k)
    /\ (forall e,
          fst (predict_sentiment (fun s => s) (fun s => s) [] demo_encode
                 (PyStr "good film") [(0%Z, "negative"%string)] demo_env)
          = Raise e
          <-> e = KeyError
              /\ ~ In (Z.of_nat k) (map fst [(0%Z, "negative"%string)]))
    /\ snd (predict_sentiment (fun s => s) (fun s => s) [] demo_encode
              (PyStr "good film") [(0%Z, "negative"%string)] demo_env)
       = set_training false demo_env.
Proof.
  apply (predict_sentiment_reads_table (fun s => s) (fun s => s) []
           demo_encode (PyStr "good film") [(0%Z, "negative"%string)]
           demo_env 1 1 3).
  - repeat split; repeat constructor.
  - lia.
  - reflexivity.
Defined.

Lemma predict_sentiment_rejects_other_width_witness :
  predict_sentiment (fun s => s) (fun s => s) []
    (fun s => [f32_of_Z 1; f32_of_Z 2]) (PyStr "good film") sentiment_map_inv
    demo_env
  = (Raise RuntimeError, set_training false demo_env).
Proof.
  apply (predict_sentiment_rejects_other_width (fun s => s) (fun s => s) []
           (fun s => [f32_of_Z 1; f32_of_Z 2]) (PyStr "good film")
           sentiment_map_inv demo_env 1 1 3).
  - repeat split; repeat constructor.
  - simpl. lia.
Defined.

Lemma predict_sentiment_reads_weights_only_witness :
  fst (predict_sentiment (fun s => s) (fun s => s) [] demo_encode
         (PyStr "good film") sentiment_map_inv
         (@set_training sequential_backend true
            (@set_rng sequential_backend [7; 3] demo_env)))
  = fst (predict_sentiment (fun s => s) (fun s => s) [] demo_encode
           (PyStr "good film") sentiment_map_inv demo_env).
Proof.
  apply (predict_sentiment_reads_weights_only (fun s => s) (fun s => s) []
           demo_encode (PyStr "good film") sentiment_map_inv
           (@set_training sequential_backend true
              (@set_rng sequential_backend [7; 3] demo_env))
           demo_env); reflexivity.
Defined.

(** ** The training loop *)

Section TrainingLoopTheorems.

Context {B : Backend}.

Lemma evaluate_mode (criterion : Criterion) (env : Env) :
  training (model (snd (evaluate criterion env))) = false.
Proof.
  rewrite evaluate_by_metrics. cbn [snd].
  destruct (epoch_batches_spec false env) as (s & g & _ & S & _).
  rewrite S. reflexivity.
Qed.

Section LoopCallLemmas.

Variable criterion : Criterion.
Variables train_dl test_dl : DataLoader.

Lemma after_epochs_shift (k : nat) (env : Env) :
  after_epochs criterion train_dl test_dl (S k) env
  = after_epochs criterion train_dl test_dl k
      (after_epoch criterion train_dl test_dl env).
Proof.
  induction k as [|k IH]; [reflexivity|].
  change (after_epochs criterion train_dl test_dl (S (S k)) env)
    with (after_epoch criterion train_dl test_dl
            (after_epochs criterion train_dl test_dl (S k) env)).
  rewrite IH. reflexivity.
Qed.

Lemma train_call_shift (i : nat) (env : Env) :
  train_call criterion train_dl test_dl (S i) env
  = train_call criterion train_dl test_dl i
      (after_epoch criterion train_dl test_dl env).
Proof. unfold train_call. now rewrite after_epochs_shift. Qed.

Lemma evaluate_call_shift (i : nat) (env : Env) :
  evaluate_call criterion train_dl test_dl (S i) env
  = evaluate_call criterion train_dl test_dl i
      (after_epoch criterion train_dl test_dl env).
Proof. unfold evaluate_call. now rewrite train_call_shift. Qed.

Lemma training_loop_calls (first count : nat) (env : Env) :
  let out := training_loop criterion train_dl test_dl (seq first count) env in
  let lines := fst (fst out) in
  (forall i line,
     nth_error lines i = Some line ->
     epoch_number line = first + i + 1
     /\ fst (train criterion (train_call criterion train_dl test_dl i env))
        = Ok (train_loss line, train_acc line)
     /\ fst (evaluate criterion
               (evaluate_call criterion train_dl test_dl i env))
        = Ok (test_loss line, test_acc line))
  /\ (snd (fst out) = None ->
      length lines = count
      /\ snd out = after_epochs criterion train_dl test_dl count env)
  /\ (forall e,
        snd (fst out) = Some e ->
        length lines < count
        /\ ((fst (train criterion
                    (train_call criterion train_dl test_dl (length lines)
                       env)) = Raise e
             /\ snd out
                = snd (train criterion
                         (train_call criterion train_dl test_dl
                            (length lines) env)))
            \/ ((exists metrics,
                   fst (train criterion
                          (train_call criterion train_dl test_dl
                             (length lines) env)) = Ok metrics)
                /\ fst (evaluate criterion
                          (evaluate_call criterion train_dl test_dl
                             (length lines) env)) = Raise e
                /\ snd out
                   = snd (evaluate criterion
                            (evaluate_call criterion train_dl test_dl
                               (length lines) env))))).
Proof.
  revert first env; induction count as [|count IH]; intros first env.
  - cbn. split; [intros [|i] line H; discriminate|].
    split; [auto|intros e H; discriminate].
  - cbn [seq training_loop].
    assert (Et0 : train_call criterion train_dl test_dl 0 env
                  = with_dataloader train_dl env) by reflexivity.
    destruct (train criterion (with_dataloader train_dl env))
      as [[[tl ta]|e0] env1] eqn:Etr.
    2:{ cbn [fst snd length]. rewrite Et0, Etr. cbn [fst snd].
        split; [intros [|i] line H; discriminate|].
        split; [discriminate|].
        intros e H. injection H as <-. split; [lia|]. left. auto. }
    assert (Ee0 : evaluate_call criterion train_dl test_dl 0 env
                  = with_dataloader test_dl env1)
      by (unfold evaluate_call; rewrite Et0, Etr; reflexivity).
    destruct (evaluate criterion (with_dataloader test_dl env1))
      as [[[vl va]|e0] env2] eqn:Eev.
    2:{ cbn [fst snd length]. rewrite Et0, Ee0, Etr, Eev. cbn [fst snd].
        split; [intros [|i] line H; discriminate|].
        split; [discriminate|].
        intros e H. injection H as <-. split; [lia|]. right.
        split; [eexists; reflexivity|]. auto. }
    assert (Ea : after_epoch criterion train_dl test_dl env = env2)
      by (unfold after_epoch; rewrite Etr; cbn [snd]; rewrite Eev;
          reflexivity).
    specialize (IH (S first) env2). cbv zeta in IH.
    destruct (training_loop criterion train_dl test_dl (seq (S first) count)
                env2) as [[lines e] env3].
    cbn [fst snd] in *. destruct IH as (Hlines & Hnone & Hsome).
    split; [|split].
    + intros [|i] line H.
      * injection H as <-. cbn [epoch_number train_loss train_acc test_loss
                                 test_acc].
        rewrite Et0, Ee0, Etr, Eev. cbn [fst].
        repeat split. lia.
      * cbn [nth_error] in H. rewrite train_call_shift, evaluate_call_shift, Ea.
        destruct (Hlines i line H) as (Hn & Ht & He).
        repeat split; [lia|exact Ht|exact He].
    + intros He. destruct (Hnone He) as [Hlen Henv].
      split; [cbn [length]; now rewrite Hlen|].
      now rewrite after_epochs_shift, Ea.
    + intros e' He. destruct (Hsome e' He) as [Hlen Hcases].
      cbn [length]. split; [lia|].
      rewrite train_call_shift, evaluate_call_shift, Ea. exact Hcases.
Qed.

End LoopCallLemmas.

(** X16. In every epoch the loop calls [train] and then [evaluate], each on
    the objects that the calls before it left, and prints a line with the
    results of the two calls, numbered from 1.  The first call that raises
    ends the loop with its exception: the lines printed are those of the
    epochs before it, and the objects are left as that call left them.
    Without an exception the loop prints [num_epochs] lines and leaves the
    model in evaluation mode. *)
Theorem training_loop_prints_completed_epochs (criterion : Criterion)
    (train_dataloader_st test_dataloader_st : DataLoader) (num_epochs : nat)
    (env : Env) :
  let out := training_loop criterion train_dataloader_st test_dataloader_st
               (seq 0 num_epochs) env in
  let lines := fst (fst out) in
  let train_env :=
    train_call criterion train_dataloader_st test_dataloader_st in
  let evaluate_env :=
    evaluate_call criterion train_dataloader_st test_dataloader_st in
  (forall i line,
     nth_error lines i = Some line ->
     epoch_number line = i + 1
     /\ fst (train criterion (train_env i env))
        = Ok (train_loss line, train_acc line)
     /\ fst (evaluate criterion (evaluate_env i env))
        = Ok (test_loss line, test_acc line))
  /\ (snd (fst out) = None ->
      length lines = num_epochs
      /\ snd out
         = after_epochs criterion train_dataloader_st test_dataloader_st
             num_epochs env
      /\ (0 < num_epochs -> training (model (snd out)) = false))
  /\ (forall e,
        snd (fst out) = Some e ->
        length lines < num_epochs
        /\ ((fst (train criterion (train_env (length lines) env)) = Raise e
             /\ snd out = snd (train criterion (train_env (length lines) env)))
            \/ ((exists metrics,
                   fst (train criterion (train_env (length lines) env))
                   = Ok metrics)
                /\ fst (evaluate criterion (evaluate_env (length lines) env))
                   = Raise e
                /\ snd out
                   = snd (evaluate criterion
                            (evaluate_env (length lines) env))))).
Proof.
  cbv zeta.
  pose proof (training_loop_calls criterion train_dataloader_st
                test_dataloader_st 0 num_epochs env) as H.
  cbv zeta in H. destruct H as (Hlines & Hnone & Hsome).
  split; [|split].
  - intros i line H. destruct (Hlines i line H) as (Hn & Ht & He).
    repeat split; assumption.
  - intros He. destruct (Hnone He) as [Hlen Henv].
    split; [exact Hlen|]. split; [exact Henv|].
    intros Hn. rewrite Henv. destruct num_epochs as [|k]; [lia|].
    apply evaluate_mode.
  - exact Hsome.
Qed.

End TrainingLoopTheorems.

(** Two epochs over [demo_env] print two lines; over [late_failure_env] the
    first call of [train] raises and nothing is printed. *)
Lemma training_loop_two_epochs :
  map epoch_number
      (fst (fst (training_loop nll_loss (dataloader demo_env)
                   (dataloader demo_env) (seq 0 2) demo_env)))
  = [1; 2]
  /\ fst (training_loop nll_loss (dataloader late_failure_env)
            (dataloader late_failure_env) (seq 0 2) late_failure_env)
     = ([], Some IndexError).
Proof. split; vm_compute; reflexivity. Qed.

(** ** Sums and means of numbers between zero and one *)

Section SumBounds.

Local Open Scope Z_scope.

Lemma at_most_mono (a b : Z) (x : float) :
  a <= b -> at_most a x -> at_most b x.
Proof.
  intros Hab [->|(m & e & -> & He & Hm)]; [left; reflexivity|].
  right. exists m, e. repeat split; [exact He|].
  assert (0 < 2 ^ (- e)) by (apply Z.pow_pos_nonneg; lia).
  nia.
Qed.

Lemma unit_shape_at_most (prec : Z) (x : float) :
  0 < prec -> unit_shape prec false x -> at_most 1 x.
Proof.
  intros Hp [->|(m & e & -> & He & Hm)]; [left; reflexivity|].
  right. exists m, e. repeat split; lia.
Qed.

Section BoundedRounding.

Variables prec emax : Z.
Hypothesis Hprec : 0 < prec.
Hypothesis Hemax : 2 <= emax.
Hypothesis Hpe : prec <= emax.
Variable N : Z.
Hypothesis HN : 0 < N < 2 ^ prec.

Lemma digits_exponent_le_prec (m e : Z) :
  0 <= m -> e <= 0 -> m <= N * 2 ^ (- e) -> Zdigits2 m + e <= prec.
Proof.
  intros Hm He H.
  assert (Zdigits2 m <= prec - e); [|lia].
  apply Zdigits2_le; [lia|lia|].
  replace (prec - e) with (prec + - e) by lia.
  rewrite Z.pow_add_r by lia.
  assert (0 < 2 ^ (- e)) by (apply Z.pow_pos_nonneg; lia).
  apply Z.le_lt_trans with (N * 2 ^ (- e)); [exact H|].
  apply Z.mul_lt_mono_pos_r; [assumption|apply HN].
Qed.

Lemma fexp_le_zero (k : Z) : k <= prec -> fexp prec emax k <= 0.
Proof. unfold fexp, emin. lia. Qed.

Lemma shr_bound (mx ex : Z) (lx : location) (n : Z) :
  0 <= mx -> 0 <= n -> ex + n <= 0 ->
  (mx < N * 2 ^ (- ex) \/ (mx = N * 2 ^ (- ex) /\ lx = loc_Exact)) ->
  exists mrs,
    shr (shr_record_of_loc mx lx) ex n = (mrs, ex + n)
    /\ 0 <= shr_m mrs
    /\ (shr_m mrs < N * 2 ^ (- (ex + n))
        \/ (shr_m mrs = N * 2 ^ (- (ex + n))
            /\ loc_of_shr_record mrs = loc_Exact)).
Proof.
  intros Hm Hn He H.
  destruct n as [|p|p]; [| |lia].
  - exists (shr_record_of_loc mx lx). rewrite Z.add_0_r.
    rewrite shr_m_of_loc, loc_of_shr_record_of_loc. auto.
  - exists (iter_pos shr_1 p (shr_record_of_loc mx lx)).
    split; [reflexivity|].
    rewrite iter_pos_nat.
    assert (Hpow : 2 ^ (- ex) = 2 ^ (- (ex + Zpos p)) * 2 ^ Zpos p)
      by (rewrite <- Z.pow_add_r by lia; f_equal; lia).
    assert (Hpos : 0 < 2 ^ Zpos p) by (apply Z.pow_pos_nonneg; lia).
    assert (Hpos' : 0 < 2 ^ (- (ex + Zpos p)))
      by (apply Z.pow_pos_nonneg; lia).
    destruct H as [H|[H ->]].
    + rewrite shr_iter_div by (rewrite shr_m_of_loc; exact Hm).
      rewrite shr_m_of_loc, positive_nat_Z.
      split; [apply Z.div_pos; lia|]. left.
      apply Z.div_lt_upper_bound; [exact Hpos|]. rewrite Hpow in H.
      revert H Hpos Hpos'. generalize (2 ^ Zpos p).
      generalize (2 ^ (- (ex + Zpos p))). intros; nia.
    + change (shr_record_of_loc mx loc_Exact)
        with (Build_shr_record mx false false).
      replace mx
        with (N * 2 ^ (- (ex + Zpos p)) * 2 ^ Z.of_nat (Pos.to_nat p))
        by (rewrite positive_nat_Z, H, Hpow; ring).
      rewrite shr_iter_exact by nia.
      cbn [shr_m]. split; [nia|]. right. split; reflexivity.
Qed.

(** Rounding a value of at most [N] that is given with enough digits. *)
Lemma binary_round_aux_bound (mx ex : Z) (lx : location) :
  0 <= mx -> ex <= 0 ->
  ex <= fexp prec emax (Zdigits2 mx + ex) ->
  (mx < N * 2 ^ (- ex) \/ (mx = N * 2 ^ (- ex) /\ lx = loc_Exact)) ->
  at_most N (binary_round_aux prec emax false mx ex lx).
Proof.
  intros Hm He Hf H.
  assert (Hle : mx <= N * 2 ^ (- ex)) by lia.
  pose proof (fexp_le_zero _ (digits_exponent_le_prec mx ex Hm He Hle)) as He1.
  unfold binary_round_aux, shr_fexp.
  destruct (shr_bound mx ex lx (fexp prec emax (Zdigits2 mx + ex) - ex)
              Hm ltac:(lia) ltac:(lia) H) as (mrs1 & -> & Hm1 & H1).
  replace (ex + (fexp prec emax (Zdigits2 mx + ex) - ex))
    with (fexp prec emax (Zdigits2 mx + ex)) in * by lia.
  set (e1 := fexp prec emax (Zdigits2 mx + ex)) in *.
  pose proof (round_nearest_even_unit (shr_m mrs1) (N * 2 ^ (- e1))
                (loc_of_shr_record mrs1) Hm1 H1) as [Hm2 Hm2'].
  set (m2 := round_nearest_even (shr_m mrs1) (loc_of_shr_record mrs1)) in *.
  pose proof (fexp_le_zero _
                (digits_exponent_le_prec m2 e1 Hm2 ltac:(lia) Hm2')) as He2.
  assert (Hfin : forall m3 e3,
            0 <= m3 <= N * 2 ^ (- e3) -> e3 <= 0 ->
            at_most N
              match m3 with
              | 0 => S754_zero false
              | Zpos m =>
                  if e3 <=? emax - prec then S754_finite false m e3
                  else S754_infinity false
              | Zneg _ => S754_nan
              end).
  { intros m3 e3 Hm3 He3. destruct m3 as [|m|m]; [left; reflexivity| |lia].
    destruct (Z.leb_spec e3 (emax - prec)); [|lia].
    right. exists m, e3. repeat split; lia. }
  destruct (Z_le_gt_dec (fexp prec emax (Zdigits2 m2 + e1) - e1) 0)
    as [Hn2|Hn2].
  - assert (E : shr (shr_record_of_loc m2 loc_Exact) e1
                  (fexp prec emax (Zdigits2 m2 + e1) - e1)
                = (shr_record_of_loc m2 loc_Exact, e1))
      by (destruct (fexp prec emax (Zdigits2 m2 + e1) - e1);
          try reflexivity; lia).
    rewrite E. simpl shr_m. apply Hfin; lia.
  - assert (H2 : m2 < N * 2 ^ (- e1)
                 \/ (m2 = N * 2 ^ (- e1) /\ loc_Exact = loc_Exact))
      by (destruct (Z.eq_dec m2 (N * 2 ^ (- e1)));
          [right; split; [assumption|reflexivity]|left; lia]).
    destruct (shr_bound m2 e1 loc_Exact
                (fexp prec emax (Zdigits2 m2 + e1) - e1)
                Hm2 ltac:(lia) ltac:(lia) H2)
      as (mrs3 & -> & Hm3 & H3).
    apply Hfin; lia.
Qed.

(** Rounding a value of at most [N] that is given exactly. *)
Lemma binary_round_bound (m : positive) (e : Z) :
  e <= 0 -> Zpos m <= N * 2 ^ (- e) ->
  at_most N (binary_round prec emax false m e).
Proof.
  intros He Hm. unfold binary_round.
  set (e' := fexp prec emax (Zpos (digits2_pos m) + e)).
  destruct (shl_align_spec m e e') as [Hlt Hge].
  destruct (shl_align m e e') as [mz ez] eqn:E. cbn [fst snd] in Hlt.
  assert (Hexact : forall x : Z, x <= N * 2 ^ (- ez) ->
            x < N * 2 ^ (- ez) \/ (x = N * 2 ^ (- ez) /\ loc_Exact = loc_Exact))
    by (intros x Hx; destruct (Z.eq_dec x (N * 2 ^ (- ez)));
        [right; split; [assumption|reflexivity]|left; lia]).
  destruct (Z_lt_le_dec e' e) as [H|H].
  - destruct (Hlt H) as [Hmz ->].
    assert (Hpow : 2 ^ (- e') = 2 ^ (- e) * 2 ^ (e - e'))
      by (rewrite <- Z.pow_add_r by lia; f_equal; lia).
    apply binary_round_aux_bound; try lia.
    + rewrite Hmz, Zdigits2_mul_pow2 by lia.
      change (Zdigits2 (Zpos m)) with (Zpos (digits2_pos m)).
      replace (Zpos (digits2_pos m) + (e - e') + e')
        with (Zpos (digits2_pos m) + e) by lia.
      fold e'. lia.
    + apply Hexact. rewrite Hmz, Hpow.
      assert (0 <= 2 ^ (e - e')) by (apply Z.pow_nonneg; lia).
      revert Hm H0. generalize (2 ^ (e - e')). generalize (2 ^ (- e)).
      intros; nia.
  - injection (Hge H) as -> ->.
    apply binary_round_aux_bound; try lia.
    + exact H.
    + apply Hexact, Hm.
Qed.

End BoundedRounding.

(** The binary64 sum of two numbers of at most [a] and [b]. *)
Lemma f64_add_at_most (a b : Z) (x y : float) :
  0 <= a -> 0 <= b -> a + b < 2 ^ 53 ->
  at_most a x -> at_most b y -> at_most (a + b) (f64_add x y).
Proof.
  intros Ha Hb Hab [->|(mx & ex & -> & Hex & Hmx)]
         [->|(my & ey & -> & Hey & Hmy)].
  - left. reflexivity.
  - apply (at_most_mono b); [lia|]. right. exists my, ey. auto.
  - apply (at_most_mono a); [lia|]. right. exists mx, ex. auto.
  - unfold f64_add, SFadd. cbn [cond_Zopp].
    set (ez := Z.min ex ey).
    destruct (shl_align_spec mx ex ez) as [Hxl Hxg].
    destruct (shl_align_spec my ey ez) as [Hyl Hyg].
    assert (Hx : Zpos (fst (shl_align mx ex ez)) = Zpos mx * 2 ^ (ex - ez)).
    { destruct (Z_lt_le_dec ez ex) as [H|H]; [apply (Hxl H)|].
      rewrite (Hxg H). replace (ex - ez) with 0 by lia. simpl fst. lia. }
    assert (Hy : Zpos (fst (shl_align my ey ez)) = Zpos my * 2 ^ (ey - ez)).
    { destruct (Z_lt_le_dec ez ey) as [H|H]; [apply (Hyl H)|].
      rewrite (Hyg H). replace (ey - ez) with 0 by lia. simpl fst. lia. }
    cbn [Z.add binary_normalize].
    assert (Hpx : 2 ^ (- ez) = 2 ^ (- ex) * 2 ^ (ex - ez))
      by (rewrite <- Z.pow_add_r by lia; f_equal; lia).
    assert (Hpy : 2 ^ (- ez) = 2 ^ (- ey) * 2 ^ (ey - ez))
      by (rewrite <- Z.pow_add_r by lia; f_equal; lia).
    assert (H1 : 0 < 2 ^ (- ex)) by (apply Z.pow_pos_nonneg; lia).
    assert (H2 : 0 < 2 ^ (- ey)) by (apply Z.pow_pos_nonneg; lia).
    assert (H3 : 0 < 2 ^ (ex - ez)) by (apply Z.pow_pos_nonneg; lia).
    assert (H4 : 0 < 2 ^ (ey - ez)) by (apply Z.pow_pos_nonneg; lia).
    apply (binary_round_bound 53 1024); try lia.
    + nia.
    + rewrite Pos2Z.inj_add, Hx, Hy.
      rewrite Z.mul_add_distr_r. rewrite Hpx at 1. rewrite Hpy.
      revert Hmx Hmy H1 H2 H3 H4.
      generalize (2 ^ (- ex)) (2 ^ (- ey)) (2 ^ (ex - ez)) (2 ^ (ey - ez)).
      intros; nia.
Qed.

Lemma fold_add_at_most (xs : list float) (a : Z) (acc : float) :
  0 <= a -> a + Z.of_nat (length xs) < 2 ^ 53 ->
  at_most a acc -> Forall (at_most 1) xs ->
  at_most (a + Z.of_nat (length xs)) (fold_left f64_add xs acc).
Proof.
  revert a acc; induction xs as [|x xs IH]; intros a acc Ha Hbig Hacc Hxs.
  - simpl. rewrite Z.add_0_r. exact Hacc.
  - inversion Hxs as [|? ? Hx Hxs']; subst.
    cbn [fold_left length] in Hbig |- *. rewrite Nat2Z.inj_succ in *.
    replace (a + Z.succ (Z.of_nat (length xs)))
      with ((a + 1) + Z.of_nat (length xs)) by lia.
    apply IH; [lia|lia| |exact Hxs'].
    apply f64_add_at_most; try lia; assumption.
Qed.

(** The binary64 quotient of a number of at most [n] by [n]. *)
Lemma f64_div_at_most (n : positive) (x : float) :
  Zpos n < 2 ^ 53 -> at_most (Zpos n) x ->
  unit_shape 53 false (f64_div x (f64_normal n)).
Proof.
  intros Hn [->|(m1 & e1 & -> & He1 & Hm1)]; [left; reflexivity|].
  destruct (f64_normal_mantissa n Hn) as (Emn & Dmn & Hdn).
  pose proof (digits2_pos_bounds n) as [_ Hnd].
  unfold f64_div, SFdiv, f64_normal, SFdiv_core_binary.
  set (dn := Zpos (digits2_pos n)) in *.
  set (mn := Z.to_pos (Zpos n * 2 ^ (53 - dn))) in *.
  rewrite Emn, Dmn. rewrite <- Emn.
  set (d1 := Zdigits2 (Zpos m1)).
  assert (Hd1 : d1 <= dn - e1).
  { apply Zdigits2_le; [lia|lia|].
    replace (dn - e1) with (dn + - e1) by lia.
    rewrite Z.pow_add_r by lia.
    assert (0 < 2 ^ (- e1)) by (apply Z.pow_pos_nonneg; lia). nia. }
  assert (Hd1' : 0 < d1) by (unfold d1; simpl; lia).
  set (D := d1 + e1 - (53 + (dn - 53))).
  set (e' := Z.min (fexp 53 1024 D) (e1 - (dn - 53))).
  assert (He' : e' <= -53) by (unfold e', D, fexp, emin; lia).
  set (s := e1 - (dn - 53) - e').
  assert (Hs : 0 <= s) by (unfold s, e'; lia).
  set (m' := match s with
             | 0 => Zpos m1
             | Zpos _ => Z.shiftl (Zpos m1) s
             | Zneg _ => 0
             end).
  assert (Hm' : m' = Zpos m1 * 2 ^ s).
  { unfold m'. destruct s as [|p|p] eqn:Es; [simpl; lia| |lia].
    rewrite Z.shiftl_mul_pow2 by lia. reflexivity. }
  clearbody m'.
  cbv beta iota zeta.
  pose proof (Z_div_mod m' (Zpos mn) ltac:(lia)) as Hdiv.
  destruct (Z.div_eucl m' (Zpos mn)) as [q r].
  destruct Hdiv as [Hqr Hr].
  assert (HT : 0 < 2 ^ (- e')) by (apply Z.pow_pos_nonneg; lia).
  assert (HS : 0 < 2 ^ s) by (apply Z.pow_pos_nonneg; lia).
  assert (HE : 0 < 2 ^ (- e1)) by (apply Z.pow_pos_nonneg; lia).
  assert (HB : 0 < 2 ^ (53 - dn)) by (apply Z.pow_pos_nonneg; lia).
  (* the dividend is at most the divisor times 2^(-e') *)
  assert (Hid : 2 ^ (- e1) * 2 ^ s = 2 ^ (53 - dn) * 2 ^ (- e'))
    by (rewrite <- !Z.pow_add_r by lia; f_equal; unfold s; lia).
  assert (Hval : m' <= Zpos mn * 2 ^ (- e')).
  { rewrite Hm', Emn.
    replace (Zpos n * 2 ^ (53 - dn) * 2 ^ (- e'))
      with (Zpos n * (2 ^ (53 - dn) * 2 ^ (- e'))) by ring.
    rewrite <- Hid.
    replace (Zpos n * (2 ^ (- e1) * 2 ^ s))
      with (Zpos n * 2 ^ (- e1) * 2 ^ s) by ring.
    apply Z.mul_le_mono_nonneg_r; lia. }
  assert (Hq0 : 0 <= q).
  { destruct (Z_le_gt_dec 0 q) as [|Hneg]; [assumption|].
    assert (Zpos mn * q <= - Zpos mn) by nia.
    assert (0 <= m') by (rewrite Hm'; nia).
    lia. }
  assert (Hq_hi : q <= 2 ^ (- e')).
  { destruct (Z_le_gt_dec q (2 ^ (- e'))) as [|Hbig]; [assumption|].
    assert (Zpos mn * (2 ^ (- e') + 1) <= Zpos mn * q) by nia.
    nia. }
  assert (Hmn_hi : Zpos mn < 2 ^ 53).
  { pose proof (Zdigits2_bounds (Zpos mn) ltac:(lia)) as [_ Hhi].
    rewrite Emn, Dmn in Hhi. rewrite Emn. exact Hhi. }
  apply (binary_round_aux_unit 53 1024 ltac:(lia) ltac:(lia)).
  - exact Hq0.
  - lia.
  - destruct (Z_le_gt_dec e' (emin 53 1024)) as [Hlow|Hhigh];
      [unfold fexp; lia|].
    assert (HD : e' <= D - 53) by (unfold e', fexp in *; lia).
    set (t := D - e' - 1).
    assert (Ht : 52 <= t) by (unfold t; lia).
    assert (Hqt : 2 ^ t <= q).
    { destruct (Z_le_gt_dec (2 ^ t) q) as [|Hsmall]; [assumption|].
      exfalso.
      pose proof (Zdigits2_bounds (Zpos m1) ltac:(lia)) as [Hlo _].
      fold d1 in Hlo.
      assert (Hpow : 2 ^ (d1 - 1) * 2 ^ s = 2 ^ t * 2 ^ 53)
        by (rewrite <- !Z.pow_add_r by lia; f_equal; unfold t, D, s; lia).
      assert (H1 : 2 ^ t * 2 ^ 53 <= m')
        by (rewrite Hm', <- Hpow; apply Z.mul_le_mono_nonneg_r; lia).
      assert (H2 : 0 < 2 ^ t) by (apply Z.pow_pos_nonneg; lia).
      assert (H3 : Zpos mn * (q + 1) <= Zpos mn * 2 ^ t) by nia.
      assert (H4 : Zpos mn * 2 ^ t < 2 ^ 53 * 2 ^ t) by nia.
      nia. }
    pose proof (Zdigits2_ge q t ltac:(lia) Hqt) as Hdq.
    unfold fexp. unfold t in Hdq. lia.
  - destruct (Z.eq_dec q (2 ^ (- e'))) as [Heq|Hne]; [right|left; lia].
    split; [exact Heq|].
    assert (r = 0) by nia. subst r. apply new_location_exact.
Qed.

(** The mean of numbers between zero and one lies between zero and one. *)
Lemma mean_quotient_unit (xs : list float) :
  xs <> [] -> Z.of_nat (length xs) < 2 ^ 53 ->
  Forall (at_most 1) xs ->
  unit_shape 53 false
    (f64_div (fold_left f64_add xs f_zero) (f64_of_Z (Z.of_nat (length xs)))).
Proof.
  intros Hne Hbig Hxs.
  assert (Hn : exists n, Z.of_nat (length xs) = Zpos n).
  { destruct xs as [|x xs]; [contradiction|].
    exists (Pos.of_succ_nat (length xs)). simpl. reflexivity. }
  destruct Hn as (n & Hn).
  pose proof (fold_add_at_most xs 0 f_zero ltac:(lia) ltac:(lia)
                (or_introl eq_refl) Hxs) as Hsum.
  rewrite Z.add_0_l, Hn in Hsum. rewrite Hn.
  rewrite (f64_of_Z_small n) by lia.
  apply f64_div_at_most; [lia|exact Hsum].
Qed.

End SumBounds.

(** ** The accuracy of an epoch *)

Lemma calculate_accuracy_unit (predictions : list (list float))
    (labels : list Z) (accuracy : float) :
  length predictions = length labels ->
  (Z.of_nat (length labels) < 2 ^ 53)%Z ->
  calculate_accuracy predictions labels = Ok accuracy ->
  unit_shape 24 false accuracy.
Proof.
  intros Hlen Hbig. unfold calculate_accuracy, torch_max.
  destruct (mapM torch_max_row predictions) as [rows|e] eqn:E;
    [|discriminate].
  cbn [rbind snd].
  assert (Hcls : length (map snd rows) = length labels)
    by (rewrite length_map, (mapM_length _ _ _ E); exact Hlen).
  unfold tensor_eq. rewrite length_map, Hcls, Nat.eqb_refl. cbn [rbind].
  unfold int_truediv.
  destruct (Z.eqb_spec (Z.of_nat (length labels)) 0) as [|Hn];
    [discriminate|].
  cbn [rbind]. intros H. injection H as <-.
  apply torch_tensor_unit.
  pose proof (correct_count_range (map snd rows) labels) as Hrange.
  unfold correct_count in Hrange. unfold tensor_sum.
  rewrite combine_map_l, map_map, filter_map_true.
  apply accuracy_quotient_unit; [exact Hrange|lia].
Qed.

Lemma fetch_lengths (ds : SentimentDataset) (indices : list nat) (b : Batch) :
  fetch ds indices = Ok b ->
  length (fst b) = length indices /\ length (snd b) = length indices.
Proof.
  unfold fetch.
  destruct (mapM _ indices) as [samples|e] eqn:E; [|discriminate].
  cbn [rbind]. apply mapM_length in E.
  unfold stack. destruct (map fst samples) as [|r0 rows] eqn:Er;
    [discriminate|].
  destruct (forallb _ _); [|discriminate].
  cbn [rbind]. intros H. injection H as <-. cbn [fst snd].
  rewrite <- Er, !length_map. auto.
Qed.

Lemma in_concat_length {X : Type} (b : list X) (bs : list (list X)) :
  In b bs -> length b <= length (concat bs).
Proof.
  induction bs as [|b0 bs IH]; [intros []|].
  intros [->|H]; simpl; rewrite length_app; [lia|].
  specialize (IH H). lia.
Qed.

Lemma nonempty_count {X : Type} (bs : list (list X)) :
  Forall (fun b => b <> []) bs -> length bs <= length (concat bs).
Proof.
  induction 1 as [|b bs Hb _ IH]; [reflexivity|].
  simpl. rewrite length_app. destruct b; [contradiction|simpl; lia].
Qed.

Lemma mapM_Forall2 {X Y : Type} (f : X -> result Y) (l : list X)
    (ys : list Y) :
  mapM f l = Ok ys -> Forall2 (fun x y => f x = Ok y) l ys.
Proof.
  revert ys; induction l as [|x l IH]; simpl; intros ys H.
  - injection H as <-. constructor.
  - destruct (f x) as [y|e] eqn:Ex; simpl in H; [|discriminate].
    destruct (mapM f l) as [ys'|e]; simpl in H; [|discriminate].
    injection H as <-. constructor; [exact Ex|apply IH; reflexivity].
Qed.

Section EpochAccuracy.

Context {B : Backend}.

Lemma epoch_batches_bounds (mode : bool) (env : Env) :
  length (epoch_batches mode env)
  <= SentimentDataset_len (dataset (dataloader env))
  /\ forall b, In b (epoch_batches mode env) ->
               length b <= SentimentDataset_len (dataset (dataloader env)).
Proof.
  destruct (epoch_batches_spec mode env) as (sampler & g & E & _ & Hlen & _).
  rewrite E, <- Hlen.
  pose proof (batch_sampler_concat (batch_size (dataloader env)) sampler [])
    as Hcat.
  pose proof (batch_sampler_nonempty (batch_size (dataloader env)) sampler [])
    as Hne.
  cbn [app] in Hcat.
  set (bs := batch_sampler (batch_size (dataloader env)) [] sampler) in *.
  clearbody bs. rewrite <- Hcat. split.
  - apply nonempty_count, Hne.
  - intros b. apply in_concat_length.
Qed.

Lemma forward_eval_length (self : SentimentClassifier)
    (embedding : list Embedding) (out : list (list float)) :
  forward_eval self embedding = Ok out -> length out = length embedding.
Proof.
  unfold forward_eval.
  destruct (mapM (linear (fc1 self)) embedding) as [h|e] eqn:E;
    [|discriminate].
  cbn [rbind]. intros H. apply mapM_length in H, E.
  rewrite H, length_map. exact E.
Qed.

Lemma batch_metrics_eval_unit (criterion : Criterion)
    (m : SentimentClassifier) (ds : SentimentDataset) (indices : list nat)
    (metrics : float * float) :
  (Z.of_nat (length indices) < 2 ^ 53)%Z ->
  batch_metrics_eval criterion m ds indices = Ok metrics ->
  at_most 1 (snd metrics).
Proof.
  intros Hbig. unfold batch_metrics_eval.
  destruct (fetch ds indices) as [b|e] eqn:Ef; [|discriminate].
  cbn [rbind]. destruct (fetch_lengths _ _ _ Ef) as [Hf Hs].
  destruct (forward_eval m (fst b)) as [p|e] eqn:Ep; [|discriminate].
  cbn [rbind]. apply forward_eval_length in Ep.
  destruct (criterion p (snd b)) as [loss|e]; [|discriminate].
  cbn [rbind].
  destruct (calculate_accuracy p (snd b)) as [a|e] eqn:Ea; [|discriminate].
  cbn [rbind]. intros H. injection H as <-. cbn [snd].
  apply (unit_shape_at_most 53); [lia|]. apply item_unit.
  apply (calculate_accuracy_unit p (snd b)); [lia|lia|exact Ea].
Qed.

Lemma epoch_accuracy_unit (ms : list (float * float)) (dl : DataLoader)
    (batches : list (list nat)) (result : float * float) :
  Z.of_nat (length batches) = DataLoader_len dl ->
  length ms = length batches ->
  (Z.of_nat (length batches) < 2 ^ 53)%Z ->
  Forall (fun metrics => at_most 1 (snd metrics)) ms ->
  epoch_means (sums (f_zero, f_zero) ms) dl = Ok result ->
  unit_shape 53 false (snd result).
Proof.
  intros Hcount Hlen Hbig Hall H.
  destruct (Z.eq_dec (DataLoader_len dl) 0) as [H0|H0];
    [rewrite epoch_means_zero in H by exact H0; discriminate|].
  rewrite epoch_means_nonzero in H by exact H0.
  injection H as <-. cbn [snd sums].
  rewrite <- Hcount, <- Hlen, <- (length_map snd ms).
  apply mean_quotient_unit.
  - intros C. apply H0. rewrite <- Hcount, <- Hlen, <- (length_map snd ms), C.
    reflexivity.
  - rewrite length_map, Hlen. exact Hbig.
  - rewrite Forall_forall in *. intros a Ha.
    apply in_map_iff in Ha as (metrics & <- & Hin). apply Hall, Hin.
Qed.

Lemma batch_count (mode : bool) (env : Env) (acc : float * float)
    (result : float * float) :
  epoch_means acc (dataloader env) = Ok result ->
  Z.of_nat (length (epoch_batches mode env)) = DataLoader_len (dataloader env).
Proof.
  intros H. apply epoch_batches_count.
  destruct (batch_size (dataloader env)) as [|b] eqn:Eb; [|lia].
  rewrite epoch_means_zero in H; [discriminate|].
  unfold DataLoader_len. rewrite Eb. apply Z.div_0_r.
Qed.

(** X21. The accuracy [evaluate] returns lies between zero and one: the sum of
    the accuracies of the batches, each between zero and one, never passes
    the number of batches in binary64 arithmetic, and its quotient by that
    number never passes one (for fewer than 2^53 samples). *)
Theorem evaluate_accuracy_between_zero_and_one (criterion : Criterion)
    (env : Env) (loss accuracy : float) :
  (Z.of_nat (SentimentDataset_len (dataset (dataloader env))) < 2 ^ 53)%Z ->
  fst (evaluate criterion env) = Ok (loss, accuracy) ->
  SFleb f_zero accuracy = true /\ SFleb accuracy f64_one = true.
Proof.
  intros Hbig H. rewrite evaluate_by_metrics in H. cbn [fst] in H.
  destruct (mapM _ (epoch_batches false env)) as [ms|e] eqn:E;
    [|discriminate].
  cbn [rbind] in H.
  destruct (epoch_batches_bounds false env) as [Hcount Hsize].
  apply unit_shape_f64.
  apply (epoch_accuracy_unit ms (dataloader env) (epoch_batches false env)
           (loss, accuracy)).
  - apply (batch_count false env _ _ H).
  - apply (mapM_length _ _ _ E).
  - lia.
  - apply mapM_Forall2 in E. clear -E Hsize Hbig.
    induction E as [|indices metrics batches ms Hm _ IH]; constructor.
    + specialize (Hsize indices (or_introl eq_refl)).
      apply (fun Hi => batch_metrics_eval_unit _ _ _ indices _ Hi Hm). lia.
    + apply IH. intros b Hb. apply Hsize. right; exact Hb.
  - exact H.
Qed.

(** *** The same for an epoch of training *)

Lemma forward_length (self : SentimentClassifier) (g g' : generator)
    (embedding : list Embedding) (out : list (list float)) :
  (forall p g0 x, length (fst (dropout_train p g0 x)) = length x) ->
  forward self g embedding = (Ok out, g') ->
  length out = length embedding.
Proof.
  intros Hdrop. unfold forward.
  destruct (mapM (linear (fc1 self)) embedding) as [h|e] eqn:E;
    [|discriminate].
  apply mapM_length in E.
  destruct (training self).
  - pose proof (Hdrop (dropout_p self) g (map (map relu) h)) as Hd.
    destruct (dropout_train (dropout_p self) g (map (map relu) h))
      as [dropped g1]. cbn [fst] in Hd.
    intros H. injection H as H _. apply mapM_length in H.
    rewrite H, Hd, length_map. exact E.
  - intros H. injection H as H _. apply mapM_length in H.
    rewrite H, length_map. exact E.
Qed.

Lemma train_step_unit (criterion : Criterion) (indices : list nat)
    (env env' : Env) (metrics : float * float) :
  (forall p g0 x, length (fst (dropout_train p g0 x)) = length x) ->
  (Z.of_nat (length indices) < 2 ^ 53)%Z ->
  train_step criterion indices env = (Ok metrics, env') ->
  at_most 1 (snd metrics).
Proof.
  intros Hdrop Hbig. unfold train_step.
  destruct (fetch (dataset (dataloader env)) indices) as [[eb lb]|e] eqn:Ef;
    [|discriminate].
  destruct (fetch_lengths _ _ _ Ef) as [Hf Hs]. cbn [fst snd] in Hf, Hs.
  unfold call_model.
  destruct (forward (model (zero_grad env)) (rng (zero_grad env)) eb)
    as [[p|e] g] eqn:Ep; [|discriminate].
  apply (forward_length _ _ _ _ _ Hdrop) in Ep.
  destruct (criterion p lb) as [loss|e]; [|discriminate].
  destruct (calculate_accuracy p lb) as [a|e] eqn:Ea; [|discriminate].
  intros H. injection H as <- _. cbn [snd].
  apply (unit_shape_at_most 53); [lia|]. apply item_unit.
  apply (calculate_accuracy_unit p lb); [lia|lia|exact Ea].
Qed.

Lemma train_trace_unit (criterion : Criterion) (batches : list (list nat))
    (env env' : Env) (ms : list (float * float)) :
  (forall p g0 x, length (fst (dropout_train p g0 x)) = length x) ->
  (forall b, In b batches -> (Z.of_nat (length b) < 2 ^ 53)%Z) ->
  train_trace criterion batches env = (Ok ms, env') ->
  length ms = length batches
  /\ Forall (fun metrics => at_most 1 (snd metrics)) ms.
Proof.
  intros Hdrop. revert env env' ms.
  induction batches as [|indices rest IH]; intros env env' ms Hsize.
  - cbn [train_trace]. intros H. injection H as <- _.
    split; [reflexivity|constructor].
  - cbn [train_trace].
    destruct (train_step criterion indices env) as [[m|e] env1] eqn:Es;
      [|discriminate].
    destruct (train_trace criterion rest env1) as [[ms'|e] env2] eqn:Et;
      [|discriminate].
    cbn [rbind]. intros H. injection H as <- _.
    destruct (IH env1 env2 ms'
                ltac:(intros b Hb; apply Hsize; right; exact Hb) Et)
      as [Hlen Hall].
    split; [simpl; now rewrite Hlen|].
    constructor; [|exact Hall].
    apply (train_step_unit _ _ _ _ _ Hdrop (Hsize _ (or_introl eq_refl)) Es).
Qed.

(** X22. The accuracy [train] returns lies between zero and one as well, with a
    dropout that keeps the number of rows of its input. *)
Theorem train_accuracy_between_zero_and_one (criterion : Criterion)
    (env : Env) (loss accuracy : float) :
  (forall p g x, length (fst (dropout_train p g x)) = length x) ->
  (Z.of_nat (SentimentDataset_len (dataset (dataloader env))) < 2 ^ 53)%Z ->
  fst (train criterion env) = Ok (loss, accuracy) ->
  SFleb f_zero accuracy = true /\ SFleb accuracy f64_one = true.
Proof.
  intros Hdrop Hbig H. rewrite train_by_trace in H. cbn [fst] in H.
  destruct (train_trace criterion (epoch_batches true env)
              (epoch_start true env)) as [[ms|e] env'] eqn:E;
    [|discriminate].
  cbn [fst rbind] in H.
  destruct (epoch_batches_bounds true env) as [Hcount Hsize].
  destruct (train_trace_unit criterion _ _ _ _ Hdrop
              ltac:(intros b Hb; specialize (Hsize b Hb); lia) E)
    as [Hlen Hall].
  apply unit_shape_f64.
  apply (epoch_accuracy_unit ms (dataloader env) (epoch_batches true env)
           (loss, accuracy)); try assumption.
  - apply (batch_count true env _ _ H).
  - lia.
Qed.

End EpochAccuracy.

Lemma evaluate_accuracy_between_zero_and_one_witness :
  SFleb f_zero (S754_finite false 4503599627370496 (-53)) = true
  /\ SFleb (S754_finite false 4503599627370496 (-53)) f64_one = true.
Proof.
  apply (evaluate_accuracy_between_zero_and_one nll_loss demo_env
           (S754_finite false 4503599627370496 (-53))).
  - vm_compute. reflexivity.
  - vm_compute. reflexivity.
Defined.

Lemma train_accuracy_between_zero_and_one_witness :
  SFleb f_zero f_zero = true /\ SFleb f_zero f64_one = true.
Proof.
  eapply (train_accuracy_between_zero_and_one nll_loss single_env).
  - reflexivity.
  - vm_compute. reflexivity.
  - vm_compute. reflexivity.
Defined.
